(** * PSYBot: the intake funnel of [main.py] and its record store

    A shallow embedding of the Telegram bot in [src/main.py]: the SQLite
    table [users] with the functions that read and write it, the aiogram
    FSM storage that holds the intake dialog, and the handlers that
    validate the user's answers.  Python strings are lists of code points,
    handlers are computations in a state-and-exception monad over the
    process' world (database file, FSM storage, sent messages, export
    files), and every call that leaves the process (SQLite, the file
    system, the Bot API) may raise, as decided by an oracle carried in
    the world. *)

From Stdlib Require Import ZArith NArith Ascii String List Bool Lia.
From stdpp Require Import base option list gmap strings.

Open Scope string_scope.
Open Scope list_scope.
Open Scope Z_scope.

(** ** Python strings *)

(** A [str] is a sequence of Unicode code points; [len] counts them. *)
Definition pystr : Type := list N.

(** String constants of the source are written as UTF-8 literals and
    decoded to code points. *)
Fixpoint utf8_go (bs : list N) (pending : nat) (acc : N) : pystr :=
  match bs with
  | [] => []
  | b :: bs' =>
      match pending with
      | O =>
          if (b <? 128)%N then b :: utf8_go bs' 0 0%N
          else if (b <? 224)%N then utf8_go bs' 1 (b - 192)%N
          else if (b <? 240)%N then utf8_go bs' 2 (b - 224)%N
          else utf8_go bs' 3 (b - 240)%N
      | S k =>
          let acc' := (acc * 64 + (b - 128))%N in
          match k with
          | O => acc' :: utf8_go bs' 0 0%N
          | S _ => utf8_go bs' k acc'
          end
      end
  end.

Definition lit (s : string) : pystr :=
  utf8_go (List.map N_of_ascii (list_ascii_of_string s)) 0 0%N.

Arguments lit : simpl never.

Definition len (s : pystr) : Z := Z.of_nat (length s).

(** [str.isspace] for one character (CPython's [_PyUnicode_IsWhitespace]). *)
Definition isspace (c : N) : bool :=
  ((9 <=? c) && (c <=? 13) || (28 <=? c) && (c <=? 32)
   || (c =? 133) || (c =? 160) || (c =? 5760)
   || (8192 <=? c) && (c <=? 8202)
   || (c =? 8232) || (c =? 8233) || (c =? 8239) || (c =? 8287)
   || (c =? 12288))%N.

Fixpoint lstrip (s : pystr) : pystr :=
  match s with
  | c :: s' => if isspace c then lstrip s' else s
  | [] => []
  end.

Definition rstrip (s : pystr) : pystr := rev (lstrip (rev s)).

(** [s.strip()] *)
Definition strip (s : pystr) : pystr := rstrip (lstrip s).

(** [s.startswith('@')] and [s[1:]] *)
Definition at_sign : N := 64%N.

Definition startswith_at (s : pystr) : bool :=
  match s with
  | c :: _ => (c =? at_sign)%N
  | [] => false
  end.

(** [s[:n]] *)
Definition slice_to (n : nat) (s : pystr) : pystr := firstn n s.

(** [s.split()[0]]: the first whitespace-separated word, if there is one. *)
Fixpoint word (s : pystr) : pystr :=
  match s with
  | c :: s' => if isspace c then [] else c :: word s'
  | [] => []
  end.

Definition first_word (s : pystr) : option pystr :=
  match lstrip s with
  | [] => None
  | w => Some (word w)
  end.

Definition str_eqb (a b : pystr) : bool := bool_decide (a = b).

(** ** The built-in [int(str)] in base 10 *)

Section PyInt.

(** Two things [int] depends on are not in the repository: the Unicode
    table of decimal digits outside ASCII ([Py_UNICODE_TODECIMAL]) and the
    interpreter's limit on the number of digits
    ([sys.get_int_max_str_digits()], [0] when disabled).  Both are
    parameters. *)
Variable unicode_decimal : N → option Z.
Variable int_max_str_digits : N.

Inductive int_char :=
| IC_space
| IC_digit (d : Z)
| IC_plus
| IC_minus
| IC_underscore
| IC_other.

(** The C locale's [isspace], used on the ASCII part of the string. *)
Definition c_isspace (c : N) : bool :=
  ((9 <=? c) && (c <=? 13) || (c =? 32))%N.

(** ASCII characters are read as they are; others count as a blank when
    they are whitespace, as a digit when the table has them, and make the
    literal invalid otherwise. *)
Definition classify (c : N) : int_char :=
  if (c <? 128)%N then
    if c_isspace c then IC_space
    else if ((48 <=? c) && (c <=? 57))%N then IC_digit (Z.of_N (c - 48))
    else if (c =? 43)%N then IC_plus
    else if (c =? 45)%N then IC_minus
    else if (c =? 95)%N then IC_underscore
    else IC_other
  else if isspace c then IC_space
  else match unicode_decimal c with
       | Some d => IC_digit d
       | None => IC_other
       end.

Fixpoint skip_space (cs : list int_char) : list int_char :=
  match cs with
  | IC_space :: cs' => skip_space cs'
  | _ => cs
  end.

Definition is_space (c : int_char) : bool :=
  match c with IC_space => true | _ => false end.

(** Digits with single underscores between them; the value and the number
    of digits read, and what follows. *)
Fixpoint scan_digits (cs : list int_char) (prev_us : bool) (acc : Z) (cnt : N)
  : option (Z * N * list int_char) :=
  match cs with
  | IC_digit d :: cs' => scan_digits cs' false (acc * 10 + d) (cnt + 1)%N
  | IC_underscore :: cs' =>
      if prev_us then None else scan_digits cs' true acc cnt
  | _ => if prev_us then None else Some (acc, cnt, cs)
  end.

(** The limit applies to literals of more than 640 digits only. *)
Definition too_many_digits (cnt : N) : bool :=
  ((640 <? cnt) && (0 <? int_max_str_digits) && (int_max_str_digits <? cnt))%N.

(** [int(s)], [None] standing for [ValueError]. *)
Definition py_int (s : pystr) : option Z :=
  let cs := skip_space (List.map classify s) in
  let '(sign, cs) :=
    match cs with
    | IC_plus :: r => (1, r)
    | IC_minus :: r => (-1, r)
    | _ => (1, cs)
    end in
  match cs with
  | IC_digit _ :: _ =>
      match scan_digits cs false 0 0%N with
      | Some (v, cnt, rest) =>
          if forallb is_space rest
          then if too_many_digits cnt then None else Some (sign * v)
          else None
      | None => None
      end
  | _ => None
  end.

End PyInt.


(** ** The table [users] and the database file *)

(** One row of [users]; a column that allows NULL is an [option]. *)
Record user_row := Row {
  user_id : Z;
  username : option pystr;
  full_name : pystr;
  problem_segment : option pystr;
  custom_problem : option pystr;
  real_name : option pystr;
  age : option Z;
  phone : option pystr;
  created_at : option N
}.

(** A table keeps the names of its columns, since the bot inspects them
    ([PRAGMA table_info]) and a statement naming a column that is not
    there fails. *)
Record table := Table {
  columns : list string;
  rows : list user_row
}.

(** What is found at [/data/psychology_bot.db]: nothing, a file that is not
    an SQLite database, or a database with or without the table [users]. *)
Inductive file_state :=
| NoFile
| NotDb
| DbFile (users : option table).

(** The columns of [CREATE TABLE IF NOT EXISTS users (...)]. *)
Definition all_columns : list string :=
  ["user_id"; "username"; "full_name"; "problem_segment"; "custom_problem";
   "real_name"; "age"; "phone"; "created_at"].

Definition has_columns (cols : list string) (t : table) : bool :=
  forallb (fun c => bool_decide (c ∈ columns t)) cols.

Definition file_rows (f : file_state) : list user_row :=
  match f with
  | DbFile (Some t) => rows t
  | _ => []
  end.

Definition find_row (uid : Z) (rs : list user_row) : option user_row :=
  List.find (fun r => user_id r =? uid) rs.

Definition update_where (uid : Z) (f : user_row → user_row)
  (rs : list user_row) : list user_row :=
  List.map (fun r => if user_id r =? uid then f r else r) rs.

Definition set_segment (seg : pystr) (r : user_row) : user_row :=
  Row (user_id r) (username r) (full_name r) (Some seg) (custom_problem r)
      (real_name r) (age r) (phone r) (created_at r).

Definition set_segment_custom (seg text : pystr) (r : user_row) : user_row :=
  Row (user_id r) (username r) (full_name r) (Some seg) (Some text)
      (real_name r) (age r) (phone r) (created_at r).

Definition set_contact (name : pystr) (a : Z) (ph : pystr) (r : user_row)
  : user_row :=
  Row (user_id r) (username r) (full_name r) (problem_segment r)
      (custom_problem r) (Some name) (Some a) (Some ph) (created_at r).

(** [ORDER BY key DESC]: SQLite leaves the order of rows with equal keys
    open; here they keep the order of the table. *)
Fixpoint insert_desc {A} (key : A → Z) (x : A) (l : list A) : list A :=
  match l with
  | [] => [x]
  | y :: l' => if key x <? key y then y :: insert_desc key x l' else x :: l
  end.

Definition sort_desc {A} (key : A → Z) (l : list A) : list A :=
  fold_right (insert_desc key) [] l.

(** NULL sorts below every value. *)
Definition created_key (r : user_row) : Z :=
  match created_at r with
  | Some t => Z.of_N t
  | None => -1
  end.

(** [GROUP BY problem_segment] with [COUNT( * )]. *)
Fixpoint tally_add (k : pystr) (acc : list (pystr * nat)) : list (pystr * nat) :=
  match acc with
  | [] => [(k, 1%nat)]
  | (k', n) :: acc' =>
      if str_eqb k k' then (k', S n) :: acc' else (k', n) :: tally_add k acc'
  end.

Definition group_count (ks : list pystr) : list (pystr * nat) :=
  fold_left (fun acc k => tally_add k acc) ks [].

(** The dictionary returned by [get_user_stats]. *)
Record stats := Stats {
  total_users : nat;
  users_with_requests : nat;
  problems_distribution : list (pystr * nat);
  recent_requests :
    list (option pystr * option Z * option pystr * option pystr
          * option pystr * option N)
}.

Definition is_request (r : user_row) : bool :=
  bool_decide (real_name r ≠ None) && bool_decide (phone r ≠ None).

Definition has_name (r : user_row) : bool := bool_decide (real_name r ≠ None).

Definition request_tuple (r : user_row) :=
  (real_name r, age r, phone r, problem_segment r, custom_problem r,
   created_at r).

(** ** The conversation state (aiogram's [MemoryStorage]) *)

Inductive Form := Form_name | Form_age | Form_custom_problem | Form_phone.

(** The data dictionary of a conversation; [update_data] is only ever
    called with [name=] a string and [age=] an integer. *)
Record fsm_data := Data {
  d_name : option pystr;
  d_age : option Z
}.

Record fsm_record := Fsm {
  fsm_state : option Form;
  fsm_values : fsm_data
}.

Definition empty_data : fsm_data := Data None None.
Definition empty_record : fsm_record := Fsm None empty_data.

(** ** Messages sent through the Bot API

    A message is kept as the template it is built from and the values put
    into it. *)

(** The second component of what [export_users_to_excel] returns; both
    stand for strings that are not empty, hence true as a condition. *)
Inductive export_error :=
| ErrEmpty                       (* "База данных пуста" *)
| ErrRaised.                     (* [str(e)] of what was raised *)

Inductive reply :=
| MsgWelcomePhoto (name : pystr)
| MsgWelcome (name : pystr)
| MsgProblemResponse (key : pystr)
| MsgSignupButton
| MsgCallbackAnswer
| MsgCustomPrompt
| MsgCustomTooShort
| MsgCustomThanks (shown : pystr)
| MsgAskName
| MsgNameTooShort
| MsgAskAge (name : pystr)
| MsgAgeOutOfRange
| MsgAgeNotANumber
| MsgAskUsername (a : Z)
| MsgUsernameInvalid
| MsgRequestAccepted
| MsgAdminRequest (name : pystr) (a : Z) (problem : pystr) (tg : pystr)
                  (uid : Z) (time : N)
| MsgDenied
| MsgExportStarted
| MsgExportError (e : export_error)
| MsgExportEmpty
| MsgExportDocument (file : N) (st : option stats) (time : N)
| MsgSendFileError
| MsgStatsUnavailable
| MsgStatsReport (st : stats) (time : N)
| MsgStartupNotice (time : N).

(** ** The world and the monad of handlers *)

Record world := World {
  db : file_state;                       (* /data/psychology_bot.db *)
  fsm : gmap (Z * Z) fsm_record;         (* MemoryStorage, by chat and user *)
  outbox : list (Z * reply);             (* what the Bot API delivered *)
  exports : gmap N (list user_row);      (* clients_database_<time>.xlsx *)
  faults : list bool;                    (* which of the next outside calls raise *)
  now : N;                               (* the clock *)
  welcome_jpg : bool                     (* os.path.exists("welcome.jpg") *)
}.

Definition set_db (d : file_state) (w : world) : world :=
  World d (fsm w) (outbox w) (exports w) (faults w) (now w) (welcome_jpg w).
Definition set_fsm (f : gmap (Z * Z) fsm_record) (w : world) : world :=
  World (db w) f (outbox w) (exports w) (faults w) (now w) (welcome_jpg w).
Definition push_out (m : Z * reply) (w : world) : world :=
  World (db w) (fsm w) (outbox w ++ [m]) (exports w) (faults w) (now w)
        (welcome_jpg w).
Definition set_exports (e : gmap N (list user_row)) (w : world) : world :=
  World (db w) (fsm w) (outbox w) e (faults w) (now w) (welcome_jpg w).
Definition set_faults (fs : list bool) (w : world) : world :=
  World (db w) (fsm w) (outbox w) (exports w) fs (now w) (welcome_jpg w).

Inductive exn :=
| AttributeError
| ValueError
| IndexError
| OSError
| OperationalError
| DatabaseError
| TelegramAPIError.

Inductive res (A : Type) :=
| Val (a : A)
| Exc (e : exn).
Arguments Val {A} a.
Arguments Exc {A} e.

(** A computation changes the world and returns or raises; what was done
    before an exception stays done. *)
Definition M (A : Type) : Type := world → res A * world.

#[export] Instance M_ret : MRet M := fun A a w => (Val a, w).
#[export] Instance M_bind : MBind M := fun A B f m w =>
  match m w with
  | (Val a, w') => f a w'
  | (Exc e, w') => (Exc e, w')
  end.

Definition raise {A} (e : exn) : M A := fun w => (Exc e, w).
Definition get_world : M world := fun w => (Val w, w).
Definition modify (f : world → world) : M unit := fun w => (Val tt, f w).

(** [try: m except Exception as e: h e] *)
Definition try_ {A} (m : M A) (h : exn → M A) : M A := fun w =>
  match m w with
  | (Val a, w') => (Val a, w')
  | (Exc e, w') => h e w'
  end.

(** A call that leaves the process asks the oracle whether it fails. *)
Definition outside (e : exn) : M unit := fun w =>
  match faults w with
  | true :: fs => (Exc e, set_faults fs w)
  | false :: fs => (Val tt, set_faults fs w)
  | [] => (Val tt, w)
  end.

Definition run {A} (m : M A) (w : world) : world := snd (m w).
Definition result {A} (m : M A) (w : world) : res A := fst (m w).

(** ** SQLite and the file system *)

(** [os.path.exists("/data/psychology_bot.db")] *)
Definition os_path_exists_db : M bool := fun w =>
  (Val (match db w with NoFile => false | _ => true end), w).

(** [os.remove("/data/psychology_bot.db")] *)
Definition os_remove_db : M unit :=
  outside OSError ;;
  w ← get_world;
  match db w with
  | NoFile => raise OSError
  | _ => modify (set_db NoFile)
  end.

(** [sqlite3.connect(...)] creates an empty database when there is no file. *)
Definition sqlite3_connect : M unit :=
  outside OperationalError ;;
  w ← get_world;
  match db w with
  | NoFile => modify (set_db (DbFile None))
  | _ => mret tt
  end.

(** What a statement finds when it runs. *)
Definition opened : M (option table) :=
  outside OperationalError ;;
  w ← get_world;
  match db w with
  | DbFile t => mret t
  | NotDb => raise DatabaseError
  | NoFile => raise OperationalError
  end.

(** [PRAGMA table_info(users)], the column names; no rows without the table *)
Definition pragma_table_info : M (list string) :=
  t ← opened;
  mret (match t with Some t => columns t | None => [] end).

(** [CREATE TABLE IF NOT EXISTS users (...)]; a schema statement is not
    part of a transaction and is on disk once executed. *)
Definition create_table_users : M unit :=
  t ← opened;
  match t with
  | Some _ => mret tt
  | None => modify (set_db (DbFile (Some (Table all_columns []))))
  end.

(** A statement on [users] that names the columns [cols]. *)
Definition from_users (cols : list string) : M table :=
  t ← opened;
  match t with
  | Some t => if has_columns cols t then mret t else raise OperationalError
  | None => raise OperationalError
  end.

(** [conn.commit()]: the rows changed since [connect] reach the file here;
    without a commit they are dropped with the connection. *)
Definition conn_commit (pending : option table) : M unit :=
  match pending with
  | Some t => outside OperationalError ;; modify (set_db (DbFile (Some t)))
  | None => mret tt
  end.

(** ** The functions of the record store *)

Definition init_database : M bool :=
  try_ (ex ← os_path_exists_db;
        (if ex : bool then os_remove_db else mret tt) ;;
        sqlite3_connect ;;
        create_table_users ;;
        conn_commit None ;;
        mret true)
       (fun _ => mret false).

Definition user_exists (uid : Z) : M bool :=
  try_ (sqlite3_connect ;;
        t ← from_users ["user_id"];
        mret (match find_row uid (rows t) with Some _ => true | None => false end))
       (fun _ => mret false).

(** [users] is a rowid table with [user_id] as its key: SQLite keeps, and
    scans, its rows in the order of [user_id].  A new row goes before the
    first row with a greater key. *)
Fixpoint insert_by_id (r : user_row) (rs : list user_row) : list user_row :=
  match rs with
  | [] => [r]
  | r' :: rs' =>
      if user_id r <? user_id r' then r :: rs else r' :: insert_by_id r rs'
  end.

(** [INSERT OR IGNORE INTO users (user_id, username, full_name)]: nothing is
    inserted when the primary key is taken; [created_at] takes its default,
    the current time. *)
Definition insert_or_ignore (uid : Z) (un fn : pystr) (time : N) (t : table)
  : table :=
  match find_row uid (rows t) with
  | Some _ => t
  | None =>
      Table (columns t)
            (insert_by_id
               (Row uid (Some un) fn None None None None None
                    (if bool_decide ("created_at" ∈ columns t)
                     then Some time else None))
               (rows t))
  end.

Definition add_user (uid : Z) (un fn : pystr) : M bool :=
  try_ (sqlite3_connect ;;
        t ← from_users ["user_id"; "username"; "full_name"];
        w ← get_world;
        conn_commit (Some (insert_or_ignore uid un fn (now w) t)) ;;
        mret true)
       (fun _ => mret false).

(** [CallbackData] and [PROBLEM_NAMES] *)
Definition ANXIETY : pystr := lit "btn_anxiety".
Definition RELATIONS : pystr := lit "btn_relations".
Definition SELF : pystr := lit "btn_self".
Definition CUSTOM : pystr := lit "btn_custom".
Definition SIGNUP : pystr := lit "btn_signup".

Definition PROBLEM_NAMES : list (pystr * pystr) :=
  [(ANXIETY, lit "Тревога/Стресс");
   (RELATIONS, lit "Отношения");
   (SELF, lit "Выгорание/Самооценка");
   (CUSTOM, lit "Своя проблема")].

(** [d.get(k, dflt)] *)
Fixpoint dict_get (d : list (pystr * pystr)) (k dflt : pystr) : pystr :=
  match d with
  | [] => dflt
  | (k', v) :: d' => if str_eqb k k' then v else dict_get d' k dflt
  end.

Definition dict_has (d : list (pystr * pystr)) (k : pystr) : bool :=
  existsb (fun kv => str_eqb k (fst kv)) d.

(** The truth value of an optional string: [None] and [""] are false. *)
Definition truthy (s : option pystr) : bool :=
  match s with
  | Some (_ :: _) => true
  | _ => false
  end.

Definition update_user_problem (uid : Z) (seg : pystr) (custom : option pystr)
  : M bool :=
  try_ (sqlite3_connect ;;
        t' ← (if truthy custom && str_eqb seg CUSTOM then
                t ← from_users ["problem_segment"; "custom_problem"; "user_id"];
                mret (Table (columns t)
                        (update_where uid
                           (set_segment_custom seg (default [] custom))
                           (rows t)))
              else
                t ← from_users ["problem_segment"; "user_id"];
                mret (Table (columns t)
                        (update_where uid (set_segment seg) (rows t))));
        conn_commit (Some t') ;;
        mret true)
       (fun _ => mret false).

Definition update_user_contact_info (uid : Z) (name : pystr) (a : Z)
  (ph : pystr) : M bool :=
  try_ (sqlite3_connect ;;
        t ← from_users ["real_name"; "age"; "phone"; "user_id"];
        conn_commit
          (Some (Table (columns t)
                   (update_where uid (set_contact name a ph) (rows t)))) ;;
        mret true)
       (fun _ => mret false).

Definition get_user_stats : M (option stats) :=
  try_ (sqlite3_connect ;;
        t1 ← from_users [];
        let total := length (rows t1) in
        t2 ← from_users ["real_name"; "phone"];
        let requests := length (List.filter is_request (rows t2)) in
        t3 ← from_users ["problem_segment"];
        let distribution :=
          sort_desc (fun kc => Z.of_nat (snd kc))
            (group_count (omap problem_segment (rows t3))) in
        t4 ← from_users ["real_name"; "age"; "phone"; "problem_segment";
                         "custom_problem"; "created_at"];
        let recent :=
          List.map request_tuple
            (firstn 5 (sort_desc created_key (List.filter has_name (rows t4)))) in
        mret (Some (Stats total requests distribution recent)))
       (fun _ => mret None).

(** [df.to_excel(filename, ...)]: the call can fail before the file is
    there (the engine is missing, the file cannot be opened) and after it
    has been created (a value that the workbook does not take); what it
    leaves behind then is no workbook, written here as a file without
    rows. *)
Definition to_excel (filename : N) (df : list user_row) : M unit :=
  outside OSError ;;
  modify (fun w => set_exports (<[filename := []]> (exports w)) w) ;;
  outside ValueError ;;
  modify (fun w => set_exports (<[filename := df]> (exports w)) w).

(** [export_users_to_excel]: the file name stands for its time stamp, the
    file for the rows written to it. *)
Definition export_users_to_excel : M (option N * option export_error) :=
  try_ (sqlite3_connect ;;
        t ← from_users ["created_at"];
        let df := sort_desc created_key (rows t) in
        match df with
        | [] => mret (None, Some ErrEmpty)
        | _ =>
            w ← get_world;
            let filename := now w in
            to_excel filename df ;;
            mret (Some filename, None)
        end)
       (fun _ => mret (None, Some ErrRaised)).

(** ** Updates from Telegram and the FSM context *)

Record message := Message {
  chat_id : Z;
  from_id : Z;
  from_username : option pystr;
  from_full_name : pystr;
  text : option pystr
}.

Record callback := Callback {
  cb_chat : Z;
  cb_from : Z;
  cb_data : pystr
}.

(** The storage key of an update: the chat and the user. *)
Definition key_of (m : message) : Z * Z := (chat_id m, from_id m).
Definition cb_key (c : callback) : Z * Z := (cb_chat c, cb_from c).

(** A conversation never written to has no state and no data. *)
Definition fsm_of (w : world) (k : Z * Z) : fsm_record :=
  default empty_record (fsm w !! k).

Definition state_of (w : world) (k : Z * Z) : option Form :=
  fsm_state (fsm_of w k).
Definition data_of (w : world) (k : Z * Z) : fsm_data :=
  fsm_values (fsm_of w k).

Definition set_state (k : Z * Z) (s : option Form) : M unit :=
  modify (fun w => set_fsm (<[k := Fsm s (data_of w k)]> (fsm w)) w).

Definition update_data (k : Z * Z) (f : fsm_data → fsm_data) : M unit :=
  modify (fun w => set_fsm (<[k := Fsm (state_of w k) (f (data_of w k))]> (fsm w)) w).

Definition get_data (k : Z * Z) : M fsm_data :=
  w ← get_world; mret (data_of w k).

(** [state.clear()] drops the state and the data. *)
Definition state_clear (k : Z * Z) : M unit :=
  modify (fun w => set_fsm (<[k := empty_record]> (fsm w)) w).

(** Every send is a call to the Bot API. *)
Definition answer (chat : Z) (r : reply) : M unit :=
  outside TelegramAPIError ;; modify (push_out (chat, r)).

(** [message.text.strip()]; an update without text has [text = None]. *)
Definition text_strip (m : message) : M pystr :=
  match text m with
  | Some t => mret (strip t)
  | None => raise AttributeError
  end.

(** [time] of the clock, for [datetime.now()] *)
Definition datetime_now : M N := w ← get_world; mret (now w).

(** ** The handlers *)

Section Handlers.

(** The operator's identifier from the environment, [0] when it is not
    configured, and the two parameters of [int]. *)
Variable ADMIN_ID : Z.
Variable unicode_decimal : N → option Z.
Variable int_max_str_digits : N.

Definition int_ (s : pystr) : M Z :=
  match py_int unicode_decimal int_max_str_digits s with
  | Some n => mret n
  | None => raise ValueError
  end.

Definition required_columns : list string := ["custom_problem"; "age"; "real_name"].

(** The first block of [command_start]: the database is created when the
    file is missing, and removed and created again when [users] lacks one
    of the required columns or the check itself raises. *)
Definition ensure_schema : M unit :=
  ex ← os_path_exists_db;
  if ex : bool then
    try_ (sqlite3_connect ;;
          cols ← pragma_table_info;
          let missing_columns :=
            List.filter (fun c => negb (bool_decide (c ∈ cols)))
              required_columns in
          match missing_columns with
          | [] => mret tt
          | _ => os_remove_db ;; init_database ;; mret tt
          end)
         (fun _ =>
            ex' ← os_path_exists_db;
            (if ex' : bool then os_remove_db else mret tt) ;;
            init_database ;; mret tt)
  else init_database ;; mret tt.

(** The greeting, [full_name.split()[0]] or "друг". *)
Definition greeting_name (fn : pystr) : M pystr :=
  match fn with
  | [] => mret (lit "друг")
  | _ => match first_word fn with
         | Some w => mret w
         | None => raise IndexError
         end
  end.

(** The rest of [command_start]: the sender is put on record if not there
    already, and greeted. *)
Definition register_and_greet (m : message) : M unit :=
  let uid := from_id m in
  let un := if truthy (from_username m) then default [] (from_username m)
            else lit "не указан" in
  let fn := from_full_name m in
  known ← user_exists uid;
  (if known : bool then mret tt else add_user uid un fn ;; mret tt) ;;
  name ← greeting_name fn;
  try_ (w ← get_world;
        if welcome_jpg w then answer (chat_id m) (MsgWelcomePhoto name)
        else answer (chat_id m) (MsgWelcome name))
       (fun _ => answer (chat_id m) (MsgWelcome name)).

Definition command_start (m : message) : M unit :=
  ensure_schema ;; register_and_greet m.

Definition handle_problem_selection (c : callback) : M unit :=
  let uid := cb_from c in
  let problem_key := cb_data c in
  let problem_name :=
    dict_get PROBLEM_NAMES problem_key (lit "Неизвестная проблема") in
  update_user_problem uid problem_name None ;;
  answer (cb_chat c) (MsgProblemResponse problem_key) ;;
  answer (cb_chat c) MsgSignupButton ;;
  answer (cb_chat c) MsgCallbackAnswer.

Definition handle_custom_problem_start (c : callback) : M unit :=
  answer (cb_chat c) MsgCustomPrompt ;;
  set_state (cb_key c) (Some Form_custom_problem) ;;
  answer (cb_chat c) MsgCallbackAnswer.

Definition handle_custom_problem_input (m : message) : M unit :=
  custom ← text_strip m;
  if len custom <? 10 then answer (chat_id m) MsgCustomTooShort
  else
    update_user_problem (from_id m) CUSTOM (Some custom) ;;
    answer (chat_id m) (MsgCustomThanks (slice_to 100 custom)) ;;
    answer (chat_id m) MsgSignupButton ;;
    state_clear (key_of m).

Definition handle_signup_start (c : callback) : M unit :=
  answer (cb_chat c) MsgAskName ;;
  set_state (cb_key c) (Some Form_name) ;;
  answer (cb_chat c) MsgCallbackAnswer.

Definition handle_name_input (m : message) : M unit :=
  name ← text_strip m;
  if len name <? 2 then answer (chat_id m) MsgNameTooShort
  else
    update_data (key_of m) (fun d => Data (Some name) (d_age d)) ;;
    answer (chat_id m) (MsgAskAge name) ;;
    set_state (key_of m) (Some Form_age).

(** The [try] block either leaves the handler (after the re-prompt) or
    yields the age. *)
Definition handle_age_input (m : message) : M unit :=
  age_text ← text_strip m;
  checked ← try_ (a ← int_ age_text;
                  if (a <? 10) || (a >? 100)
                  then answer (chat_id m) MsgAgeOutOfRange ;; mret None
                  else mret (Some a))
                 (fun e =>
                    match e with
                    | ValueError =>
                        answer (chat_id m) MsgAgeNotANumber ;; mret None
                    | _ => raise e
                    end);
  match checked with
  | None => mret tt
  | Some a =>
      update_data (key_of m) (fun d => Data (d_name d) (Some a)) ;;
      answer (chat_id m) (MsgAskUsername a) ;;
      set_state (key_of m) (Some Form_phone)
  end.

(** The line of the operator's notice that names the problem. *)
Definition problem_display_of (user_data : option user_row) : pystr :=
  match user_data with
  | Some r =>
      let seg := if truthy (problem_segment r)
                 then default [] (problem_segment r)
                 else lit "не указана" in
      if str_eqb seg CUSTOM && truthy (custom_problem r) then
        lit "Своя проблема: "
          ++ slice_to 100 (default [] (custom_problem r)) ++ lit "..."
      else if dict_has PROBLEM_NAMES seg then dict_get PROBLEM_NAMES seg []
      else seg
  | None => lit "не указана"
  end.

Definition handle_phone_input (m : message) : M unit :=
  let uid := from_id m in
  stripped ← text_strip m;
  if len stripped <? 3 then answer (chat_id m) MsgUsernameInvalid
  else
    let telegram_username :=
      if startswith_at stripped then List.tl stripped else stripped in
    data ← get_data (key_of m);
    let name := default (lit "Не указано") (d_name data) in
    let a := default 0 (d_age data) in
    problem_display ←
      try_ (sqlite3_connect ;;
            t ← from_users ["problem_segment"; "custom_problem"; "user_id"];
            mret (problem_display_of (find_row uid (rows t))))
           (fun _ => mret (lit "не удалось определить"));
    update_user_contact_info uid name a telegram_username ;;
    answer (chat_id m) MsgRequestAccepted ;;
    (if bool_decide (ADMIN_ID ≠ 0) then
       try_ (time ← datetime_now;
             answer ADMIN_ID
               (MsgAdminRequest name a problem_display telegram_username uid time))
            (fun _ => mret tt)
     else mret tt) ;;
    state_clear (key_of m).

(** [os.remove(filename)] of an export file *)
Definition os_remove_export (f : N) : M unit :=
  outside OSError ;;
  w ← get_world;
  match exports w !! f with
  | Some _ => modify (set_exports (delete f (exports w)))
  | None => raise OSError
  end.

(** [answer_document] reads the file it sends. *)
Definition answer_document (chat : Z) (f : N) (st : option stats) : M unit :=
  w ← get_world;
  match exports w !! f with
  | Some _ => answer chat (MsgExportDocument f st (now w))
  | None => raise OSError
  end.

Definition command_export (m : message) : M unit :=
  if bool_decide (from_id m ≠ ADMIN_ID) then answer (chat_id m) MsgDenied
  else
    answer (chat_id m) MsgExportStarted ;;
    r ← export_users_to_excel;
    match snd r with
    | Some e => answer (chat_id m) (MsgExportError e)
    | None =>
        match fst r with
        | None => answer (chat_id m) MsgExportEmpty
        | Some filename =>
            try_ (st ← get_user_stats;
                  answer_document (chat_id m) filename st ;;
                  os_remove_export filename)
                 (fun _ => answer (chat_id m) MsgSendFileError)
        end
    end.

Definition command_stats (m : message) : M unit :=
  if bool_decide (from_id m ≠ ADMIN_ID) then answer (chat_id m) MsgDenied
  else
    st ← get_user_stats;
    match st with
    | None => answer (chat_id m) MsgStatsUnavailable
    | Some st =>
        time ← datetime_now;
        answer (chat_id m) (MsgStatsReport st time)
    end.

(** [on_startup]: the database is initialised and the operator told. *)
Definition on_startup : M unit :=
  init_database ;;
  (if bool_decide (ADMIN_ID ≠ 0) then
     try_ (time ← datetime_now; answer ADMIN_ID (MsgStartupNotice time))
          (fun _ => mret tt)
   else mret tt).

End Handlers.

(** ** The operator's identifier

    [ADMIN_ID] as the module computes it from the environment variable
    of that name: [0] when the variable is not set or empty, and when
    [int] does not take it. *)
Definition configured_ADMIN_ID (unicode_decimal : N → option Z)
  (int_max_str_digits : N) (env : option pystr) : Z :=
  if truthy env then
    match py_int unicode_decimal int_max_str_digits (default [] env) with
    | Some n => n
    | None => 0
    end
  else 0.

(** ** The upgrade of the schema *)

(** A column added to a table holds NULL in every row. *)
Definition null_column (c : string) (r : user_row) : user_row :=
  if bool_decide (c = "username") then
    Row (user_id r) None (full_name r) (problem_segment r) (custom_problem r)
        (real_name r) (age r) (phone r) (created_at r)
  else if bool_decide (c = "problem_segment") then
    Row (user_id r) (username r) (full_name r) None (custom_problem r)
        (real_name r) (age r) (phone r) (created_at r)
  else if bool_decide (c = "custom_problem") then
    Row (user_id r) (username r) (full_name r) (problem_segment r) None
        (real_name r) (age r) (phone r) (created_at r)
  else if bool_decide (c = "real_name") then
    Row (user_id r) (username r) (full_name r) (problem_segment r)
        (custom_problem r) None (age r) (phone r) (created_at r)
  else if bool_decide (c = "age") then
    Row (user_id r) (username r) (full_name r) (problem_segment r)
        (custom_problem r) (real_name r) None (phone r) (created_at r)
  else if bool_decide (c = "phone") then
    Row (user_id r) (username r) (full_name r) (problem_segment r)
        (custom_problem r) (real_name r) (age r) None (created_at r)
  else if bool_decide (c = "created_at") then
    Row (user_id r) (username r) (full_name r) (problem_segment r)
        (custom_problem r) (real_name r) (age r) (phone r) None
  else r.

Definition add_column (c : string) (t : table) : table :=
  Table (columns t ++ [c]) (List.map (null_column c) (rows t)).

(** [ALTER TABLE users ADD COLUMN c ...]: fails without the table and when
    the column is there already; as a schema statement it is on disk once
    executed. *)
Definition alter_table_add_column (c : string) : M unit :=
  t ← opened;
  match t with
  | Some t =>
      if bool_decide (c ∈ columns t) then raise OperationalError
      else modify (set_db (DbFile (Some (add_column c t))))
  | None => raise OperationalError
  end.

Definition update_database_schema : M bool :=
  try_ (sqlite3_connect ;;
        cols ← pragma_table_info;
        (if bool_decide ("custom_problem" ∈ cols) then mret tt
         else alter_table_add_column "custom_problem") ;;
        (if bool_decide ("age" ∈ cols) then mret tt
         else alter_table_add_column "age") ;;
        (if bool_decide ("real_name" ∈ cols) then mret tt
         else alter_table_add_column "real_name") ;;
        conn_commit None ;;
        mret true)
       (fun _ => mret false).


(** * Notions for the statements *)

(** What the functions of the store leave alone. *)
Definition aside (w w' : world) : Prop :=
  fsm w' = fsm w ∧ outbox w' = outbox w ∧ exports w' = exports w
  ∧ now w' = now w ∧ welcome_jpg w' = welcome_jpg w
  ∧ (faults w = [] → faults w' = []).

(** The database is as it was, but for the empty file that [connect] may
    have created. *)
Definition untouched (w w' : world) : Prop :=
  db w' = db w ∨ (db w = NoFile ∧ db w' = DbFile None).

(** The three writers have one shape: connect, one statement on [users],
    commit. *)
Definition transaction (cols : list string) (g : N → table → table)
  : M bool :=
  try_ (sqlite3_connect ;;
        t ← from_users cols;
        w ← get_world;
        conn_commit (Some (g (now w) t)) ;;
        mret true)
       (fun _ => mret false).

Definition problem_columns (seg : pystr) (custom : option pystr) : list string :=
  if truthy custom && str_eqb seg CUSTOM
  then ["problem_segment"; "custom_problem"; "user_id"]
  else ["problem_segment"; "user_id"].

Definition problem_update (uid : Z) (seg : pystr) (custom : option pystr)
  (t : table) : table :=
  Table (columns t)
    (update_where uid
       (if truthy custom && str_eqb seg CUSTOM
        then set_segment_custom seg (default [] custom)
        else set_segment seg)
       (rows t)).

Definition contact_update (uid : Z) (name : pystr) (a : Z) (ph : pystr)
  (t : table) : table :=
  Table (columns t) (update_where uid (set_contact name a ph) (rows t)).

Definition fresh_table : file_state := DbFile (Some (Table all_columns [])).

(** The world once the oracle has answered the next call. *)
Definition popped (w : world) : world := set_faults (List.tl (faults w)) w.

(** The oracle schedules no failure. *)
Definition no_faults (w : world) : Prop := faults w = [].

(** The table [users] is there with all the columns the bot names. *)
Definition schema_ok (f : file_state) : Prop :=
  ∃ t, f = DbFile (Some t) ∧ has_columns all_columns t = true.

(** The identifiers on record. *)
Definition ids (f : file_state) : list Z := List.map user_id (file_rows f).

Definition records_of (uid : Z) (f : file_state) : list user_row :=
  List.filter (fun r => user_id r =? uid) (file_rows f).

(** [keeps R m]: whatever the world and whatever fails, running [m] takes
    the world to one related to it by [R]. *)
Definition keeps {A} (R : relation world) (m : M A) : Prop :=
  ∀ w, R w (run m w).

(** What every step keeps that does not write to the database: the file,
    the clock, and an oracle that schedules no failure. *)
Definition calm (w w' : world) : Prop :=
  untouched w w' ∧ now w' = now w ∧ (faults w = [] → faults w' = []).

(** Relations that hold across every calm step. *)
Class Coarse (R : relation world) : Prop :=
  coarse : ∀ w w', calm w w' → R w w'.

(** No identifier on record is lost. *)
Definition no_loss (w w' : world) : Prop :=
  ∀ uid, In uid (ids (db w)) → In uid (ids (db w')).

(** A property of the database file that holds again after the step. *)
Definition inv_kept (P : file_state → Prop) (w w' : world) : Prop :=
  P (db w) → P (db w').

(** Properties that hold of a store without records. *)
Class StoreInv (P : file_state → Prop) : Prop := {
  inv_no_file : P NoFile;
  inv_no_table : P (DbFile None);
  inv_fresh : P (DbFile (Some (Table all_columns [])))
}.

(** ** Well-formed stores *)

(** The three contact fields are set together. *)
Definition contact_ok (r : user_row) : Prop :=
  (real_name r = None ∧ age r = None ∧ phone r = None)
  ∨ (real_name r ≠ None ∧ age r ≠ None ∧ phone r ≠ None).

(** What the three buttons store as the category. *)
Definition fixed_keys : list pystr := [ANXIETY; RELATIONS; SELF].
Definition fixed_names : list pystr :=
  [lit "Тревога/Стресс"; lit "Отношения"; lit "Выгорание/Самооценка"].

(** A stored description comes with a category: the custom one, or one of
    the three chosen later. *)
Definition problem_ok (r : user_row) : Prop :=
  ∀ text, custom_problem r = Some text →
    10 ≤ len text
    ∧ ∃ seg, problem_segment r = Some seg ∧ (seg = CUSTOM ∨ In seg fixed_names).

Definition store_ok (f : file_state) : Prop :=
  match f with
  | NoFile | DbFile None => True
  | NotDb => False
  | DbFile (Some t) =>
      columns t = all_columns
      ∧ NoDup (List.map user_id (rows t))
      ∧ Forall contact_ok (rows t)
      ∧ Forall problem_ok (rows t)
  end.

(** The two ways the handlers call [update_user_problem]. *)
Definition problem_args_ok (seg : pystr) (custom : option pystr) : Prop :=
  (custom = None ∧ In seg fixed_names)
  ∨ (∃ text, custom = Some text ∧ 10 ≤ len text ∧ seg = CUSTOM).

(** What holds of the store after calls from a fresh table: the
    identifiers on record are those created, each once. *)
Definition call_inv (st : list Z * world) : Prop :=
  ∃ t, db (snd st) = DbFile (Some t)
       ∧ columns t = all_columns
       ∧ List.map user_id (rows t) ≡ₚ fst st
       ∧ NoDup (fst st)
       ∧ Forall contact_ok (rows t).

(** A record with the three contact fields set. *)
Definition complete (r : user_row) : bool :=
  bool_decide (real_name r ≠ None) && bool_decide (age r ≠ None)
  && bool_decide (phone r ≠ None).

(** The connect and the [PRAGMA] of the schema check are not made to
    fail. *)
Definition check_undisturbed (w : world) : Prop :=
  match faults w with
  | true :: _ | _ :: true :: _ => False
  | _ => True
  end.

(** ** Sequences of calls to the store *)

Inductive store_call :=
| Call_add_user (uid : Z) (un fn : pystr)
| Call_update_user_problem (uid : Z) (seg : pystr) (custom : option pystr)
| Call_update_user_contact_info (uid : Z) (name : pystr) (a : Z) (ph : pystr)
| Call_user_exists (uid : Z)
| Call_get_user_stats
| Call_export_users_to_excel
| Call_env (time : N) (fs : list bool).   (* the clock moves, failures are scheduled *)

Definition set_env (time : N) (fs : list bool) (w : world) : world :=
  World (db w) (fsm w) (outbox w) (exports w) fs time (welcome_jpg w).

(** One call: the world after it, and the identifiers for which [add_user]
    has created a record so far. *)
Definition call_step (st : list Z * world) (c : store_call) : list Z * world :=
  let created := fst st in
  let w := snd st in
  match c with
  | Call_add_user uid un fn =>
      (match result (add_user uid un fn) w with
       | Val true =>
           if bool_decide (uid ∈ created) then created else created ++ [uid]
       | _ => created
       end,
       run (add_user uid un fn) w)
  | Call_update_user_problem uid seg custom =>
      (created, run (update_user_problem uid seg custom) w)
  | Call_update_user_contact_info uid name a ph =>
      (created, run (update_user_contact_info uid name a ph) w)
  | Call_user_exists uid => (created, run (user_exists uid) w)
  | Call_get_user_stats => (created, run get_user_stats w)
  | Call_export_users_to_excel => (created, run export_users_to_excel w)
  | Call_env time fs => (created, set_env time fs w)
  end.

Definition calls (cs : list store_call) (w : world) : list Z * world :=
  fold_left call_step cs ([], w).

(** ** The bot as a transition system *)

Inductive event :=
| Startup                               (* the process starts *)
| Start (m : message)                   (* /start *)
| ProblemSelected (c : callback)        (* one of the three buttons *)
| CustomProblemStart (c : callback)
| CustomProblemInput (m : message)
| SignupStart (c : callback)
| NameInput (m : message)
| AgeInput (m : message)
| PhoneInput (m : message)
| ExportCommand (m : message)
| StatsCommand (m : message)
| Outside (time : N) (fs : list bool).  (* the clock moves, failures are scheduled *)

(** The filters under which the router calls a handler, as far as they look
    at the update and the state.  That an earlier handler takes a message
    first is not modelled, so more is reachable here than in the bot. *)
Definition accepts (ev : event) (w : world) : Prop :=
  match ev with
  | ProblemSelected c => In (cb_data c) fixed_keys
  | CustomProblemStart c => cb_data c = CUSTOM
  | SignupStart c => cb_data c = SIGNUP
  | CustomProblemInput m => state_of w (key_of m) = Some Form_custom_problem
  | NameInput m => state_of w (key_of m) = Some Form_name
  | AgeInput m => state_of w (key_of m) = Some Form_age
  | PhoneInput m => state_of w (key_of m) = Some Form_phone
  | _ => True
  end.

(** Before the first start there is no database file and nothing in
    memory. *)
Definition installed (w : world) : Prop :=
  db w = NoFile ∧ fsm w = ∅ ∧ outbox w = [] ∧ exports w = ∅.

Section Program.

Variable ADMIN_ID : Z.
Variable unicode_decimal : N → option Z.
Variable int_max_str_digits : N.

(** A start of the process finds the memory storage empty. *)
Definition handle (ev : event) : M unit :=
  match ev with
  | Startup => modify (set_fsm ∅) ;; on_startup ADMIN_ID
  | Start m => command_start m
  | ProblemSelected c => handle_problem_selection c
  | CustomProblemStart c => handle_custom_problem_start c
  | CustomProblemInput m => handle_custom_problem_input m
  | SignupStart c => handle_signup_start c
  | NameInput m => handle_name_input m
  | AgeInput m => handle_age_input unicode_decimal int_max_str_digits m
  | PhoneInput m => handle_phone_input ADMIN_ID m
  | ExportCommand m => command_export ADMIN_ID m
  | StatsCommand m => command_stats ADMIN_ID m
  | Outside time fs => modify (set_env time fs)
  end.

Inductive reachable : world → Prop :=
| reach_boot w : installed w → reachable (run (handle Startup) w)
| reach_step w ev :
    reachable w → accepts ev w → reachable (run (handle ev) w).

(** A run of events, and that the router lets each of them through. *)
Fixpoint run_events (evs : list event) (w : world) : world :=
  match evs with
  | [] => w
  | ev :: evs' => run_events evs' (run (handle ev) w)
  end.

Fixpoint accepted (evs : list event) (w : world) : Prop :=
  match evs with
  | [] => True
  | ev :: evs' => accepts ev w ∧ accepted evs' (run (handle ev) w)
  end.

(** Every event but the two that look at the schema. *)
Definition ordinary (ev : event) : Prop :=
  match ev with
  | Startup | Start _ => False
  | _ => True
  end.

End Program.

(** What [get_user_stats] reads from a table. *)
Definition stats_of (t : table) : stats :=
  Stats (length (rows t))
        (length (List.filter is_request (rows t)))
        (sort_desc (fun kc => Z.of_nat (snd kc))
           (group_count (omap problem_segment (rows t))))
        (List.map request_tuple
           (firstn 5 (sort_desc created_key (List.filter has_name (rows t))))).

(** ** Rejected input *)

(** The step has sent messages at most: the conversations, the database
    and the export files are as they were. *)
Definition only_sent (w w' : world) : Prop :=
  fsm w' = fsm w ∧ db w' = db w ∧ exports w' = exports w.

(** The input that [handle_age_input] turns down: not an integer for
    [int], or one below 10 or above 100. *)
Definition age_rejected (unicode_decimal : N → option Z)
  (int_max_str_digits : N) (t : pystr) : Prop :=
  match py_int unicode_decimal int_max_str_digits (strip t) with
  | Some a => a < 10 ∨ 100 < a
  | None => True
  end.

(** The handle as it is stored: the trimmed input without a leading
    [@]. *)
Definition normalized (t : pystr) : pystr :=
  if startswith_at (strip t) then List.tl (strip t) else strip t.

(** ** A small deployment, for the examples *)

(** No digits outside ASCII, the default limit on digits, an operator. *)
Definition ascii_only : N → option Z := fun _ => None.
Definition default_limit : N := 4300%N.
Definition operator : Z := 1000.

Definition says (uid : Z) (t : string) : message :=
  Message uid uid (Some (lit "anna_t")) (lit "Anna T") (Some (lit t)).

Definition presses (uid : Z) (data : pystr) : callback :=
  Callback uid uid data.

(** Before the first start: no file, nothing in memory, no failure to
    come. *)
Definition unboxed : world := World NoFile ∅ [] ∅ [] 1700000000%N false.

Definition booted : world :=
  run (handle operator ascii_only default_limit Startup) unboxed.

Definition exhausted : string :=
  "Feeling exhausted all the time and losing interest".

(** A user describes a problem of her own, then presses a category. *)
Definition second_thoughts : list event :=
  [Start (says 7 "/start");
   CustomProblemStart (presses 7 CUSTOM);
   CustomProblemInput (says 7 exhausted);
   ProblemSelected (presses 7 ANXIETY)].

(** A user on record, with a store that has all its columns. *)
Definition anna_row : user_row :=
  Row 7 (Some (lit "anna_t")) (lit "Anna T") None None None None None
      (Some 1700000000%N).

Definition one_user : world :=
  World (DbFile (Some (Table all_columns [anna_row]))) ∅ [] ∅ []
        1700000500%N false.

(** The same user at the last question of the intake. *)
Definition at_contact_entry : world :=
  World (DbFile (Some (Table all_columns [anna_row])))
        {[ (7, 7) := Fsm (Some Form_phone) (Data (Some (lit "Anna")) (Some 29)) ]}
        [] ∅ [] 1700000500%N false.

(** And at the question before it. *)
Definition at_age_entry : world :=
  World (DbFile (Some (Table all_columns [anna_row])))
        {[ (7, 7) := Fsm (Some Form_age) (Data (Some (lit "Anna")) None) ]}
        [] ∅ [] 1700000500%N false.

(** A table just created, and some calls on it: two users are put on
    record, one of them twice; the first leaves her contact; a third call
    to [add_user] fails at its connect. *)
Definition just_created : world :=
  World fresh_table ∅ [] ∅ [] 1700000000%N false.

Definition some_calls : list store_call :=
  [Call_add_user 1 (lit "anna_t") (lit "Anna T");
   Call_add_user 2 (lit "bob") (lit "Bob");
   Call_add_user 1 (lit "anna") (lit "Anna");
   Call_update_user_problem 1 (lit "Отношения") None;
   Call_update_user_contact_info 1 (lit "Anna") 29 (lit "anna_t");
   Call_env 1700000900%N [true];
   Call_add_user 3 (lit "carl") (lit "Carl");
   Call_get_user_stats].

(** Three answers to the age question that are turned down. *)
Definition bad_ages : list message :=
  [says 7 "abc"; says 7 "9"; says 7 " 101 "].

(** * More notions *)

(** The columns the upgrade finds missing, and a table with columns
    added. *)
Definition missing_columns (t : table) : list string :=
  List.filter (fun c => negb (bool_decide (c ∈ columns t)))
    ["custom_problem"; "age"; "real_name"].

Definition add_columns (cs : list string) (t : table) : table :=
  fold_left (fun t c => add_column c t) cs t.

(** The columns of a record that the upgrade never adds. *)
Definition old_columns (r : user_row) :=
  (user_id r, username r, full_name r, problem_segment r, phone r,
   created_at r).

(** A table from before the fields of the intake were added, with one
    record. *)
Definition old_table : table :=
  Table ["user_id"; "username"; "full_name"; "problem_segment"; "phone";
         "created_at"] [anna_row].

Definition old_store : world :=
  World (DbFile (Some old_table)) ∅ [] ∅ [] 1700000500%N false.

(** The three steps of [update_database_schema], as a loop over the
    columns. *)
Fixpoint add_missing (cols cs : list string) : M unit :=
  match cs with
  | [] => mret tt
  | c :: cs' =>
      (if bool_decide (c ∈ cols) then mret tt else alter_table_add_column c) ;;
      add_missing cols cs'
  end.

(** ** What the updates of a record leave alone *)

Definition contact_fields (r : user_row) := (real_name r, age r, phone r).
Definition problem_fields (r : user_row) :=
  (problem_segment r, custom_problem r).

(** What is set when the record is created and by nothing else. *)
Definition identity (r : user_row) :=
  (user_id r, username r, full_name r, created_at r).

(** ** Orders and counts, for the statistics *)

(** No element is followed by one with a greater key. *)
Fixpoint descending {A} (key : A → Z) (l : list A) : Prop :=
  match l with
  | [] => True
  | x :: l' => Forall (fun y => key y ≤ key x) l' ∧ descending key l'
  end.

(** The records of a category. *)
Definition in_category (k : pystr) (r : user_row) : bool :=
  bool_decide (problem_segment r = Some k).

(** The count a tally holds for a key, [0] when it has none. *)
Fixpoint tally_get (k : pystr) (acc : list (pystr * nat)) : nat :=
  match acc with
  | [] => 0
  | (k', n) :: acc' => if str_eqb k k' then n else tally_get k acc'
  end.

Definition occurrences (k : pystr) (ks : list pystr) : nat :=
  length (List.filter (fun k' => str_eqb k' k) ks).

(** ** What the intake holds and what it stores *)

(** A conversation holds a name of two characters at least and an age
    between 10 and 100, if it holds them, and it holds the answers to the
    questions that were asked before the one it waits at. *)
Definition record_ok (c : fsm_record) : Prop :=
  (∀ n, d_name (fsm_values c) = Some n → 2 ≤ len n)
  ∧ (∀ a, d_age (fsm_values c) = Some a → 10 ≤ a ≤ 100)
  ∧ (fsm_state c = Some Form_age → d_name (fsm_values c) ≠ None)
  ∧ (fsm_state c = Some Form_phone →
     d_name (fsm_values c) ≠ None ∧ d_age (fsm_values c) ≠ None).

Definition conversations_ok (w : world) : Prop := ∀ k, record_ok (fsm_of w k).

(** The contact fields of a record, when set, passed the checks of the
    intake. *)
Definition contact_valid (r : user_row) : Prop :=
  (∀ n, real_name r = Some n → 2 ≤ len n)
  ∧ (∀ a, age r = Some a → 10 ≤ a ≤ 100)
  ∧ (∀ p, phone r = Some p → 2 ≤ len p).

Definition contacts_valid (f : file_state) : Prop :=
  Forall contact_valid (file_rows f).

(** The conversations are well formed again after the step. *)
Definition conv_kept (w w' : world) : Prop :=
  conversations_ok w → conversations_ok w'.

(** The conversation of an update, for the handlers that use the FSM
    context. *)
Definition conversation (ev : event) : option (Z * Z) :=
  match ev with
  | CustomProblemStart c | SignupStart c => Some (cb_key c)
  | CustomProblemInput m | NameInput m | AgeInput m | PhoneInput m =>
      Some (key_of m)
  | _ => None
  end.

(** The step leaves the conversation [k] as it was. *)
Definition fixed_at (k : Z * Z) (w w' : world) : Prop :=
  fsm w' !! k = fsm w !! k.

Definition intake_ok (w : world) : Prop :=
  conversations_ok w ∧ contacts_valid (db w).

(** One user goes through the whole intake. *)
Definition whole_intake : list event :=
  [Start (says 7 "/start");
   SignupStart (presses 7 SIGNUP);
   NameInput (says 7 "Anna");
   AgeInput (says 7 "29");
   PhoneInput (says 7 "@anna_t")].

(** ** The end of the intake *)

(** The operator's notice for the request of [m], with the name and the
    age and the line that names the problem. *)
Definition notice_of (m : message) (t : pystr) (w : world)
  (user_data : option user_row) : reply :=
  MsgAdminRequest
    (default (lit "Не указано") (d_name (data_of w (key_of m))))
    (default 0 (d_age (data_of w (key_of m))))
    (problem_display_of user_data) (normalized t) (from_id m) (now w).

(** What [handle_phone_input] writes. *)
Definition committed (m : message) (t : pystr) (w : world) (t0 : table)
  : table :=
  contact_update (from_id m)
    (default (lit "Не указано") (d_name (data_of w (key_of m))))
    (default 0 (d_age (data_of w (key_of m))))
    (normalized t) t0.

(** ** Identities *)

(** The step has left the identity of every record as it was and has
    created no record; or it has added records among those that were
    there, which are as they were and in the order they were. *)
Definition same_identities (w w' : world) : Prop :=
  List.map identity (file_rows (db w'))
  = List.map identity (file_rows (db w)).

Definition grown_identities (w w' : world) : Prop :=
  List.map identity (file_rows (db w))
  `sublist_of` List.map identity (file_rows (db w')).

(** The rows are in the order of their keys, as SQLite keeps them. *)
Fixpoint by_user_id (rs : list user_row) : Prop :=
  match rs with
  | [] => True
  | r :: rs' => Forall (fun r' => user_id r < user_id r') rs' ∧ by_user_id rs'
  end.

(** ** More examples *)

(** Three users: one left a request after choosing a category, one chose
    the same category, one described a problem of his own. *)
Definition three_users_table : table :=
  Table all_columns
    [Row 1 (Some (lit "anna_t")) (lit "Anna T") (Some (lit "Отношения")) None
         (Some (lit "Anna")) (Some 29) (Some (lit "anna_t"))
         (Some 1700000000%N);
     Row 2 (Some (lit "bob")) (lit "Bob") (Some (lit "Отношения")) None
         None None None (Some 1700000100%N);
     Row 3 (Some (lit "carl")) (lit "Carl") (Some CUSTOM)
         (Some (lit exhausted)) None None None (Some 1700000200%N)].

Definition three_users : world :=
  World (DbFile (Some three_users_table)) ∅ [] ∅ [] 1700000500%N false.

(** The intake up to the last question. *)
Definition up_to_contact : list event :=
  [Start (says 7 "/start");
   SignupStart (presses 7 SIGNUP);
   NameInput (says 7 "Anna");
   AgeInput (says 7 "29")].

(** A [/start] from a user whose name is three blanks. *)
Definition blank_start : message :=
  Message 9 9 None (lit "   ") (Some (lit "/start")).

(** A photo sent where the name is asked for. *)
Definition photo : message := Message 7 7 (Some (lit "anna_t")) (lit "Anna T") None.

(** The store of [at_contact_entry] with the operator's notice scheduled
    to fail, after six calls that pass. *)
Definition notice_fails : world :=
  set_faults (replicate 6 false ++ [true]) at_contact_entry.

(** * Reasoning about computations *)

Ltac unfold_m :=
  unfold mbind, M_bind, mret, M_ret, try_, raise, get_world, modify, outside,
    run, result in *.

(** Case analysis on the oracle, the file and the schema, as far as the
    computation in the goal looks at them. *)
Ltac world_cases :=
  repeat (cbn -[has_columns] in *;
          match goal with
          | |- context [match ?fs with [] => _ | _ :: _ => _ end] =>
              is_var fs; destruct fs as [|[] fs]
          | |- context [match ?d with NoFile => _ | _ => _ end] =>
              is_var d; destruct d as [| |[?|]]
          | |- context [if has_columns ?c ?t then _ else _] =>
              destruct (has_columns c t) eqn:?
          end).

Lemma transaction_cases cols g w :
  aside w (run (transaction cols g) w) ∧
  ((result (transaction cols g) w = Val true
    ∧ ∃ t, db w = DbFile (Some t) ∧ has_columns cols t = true
           ∧ db (run (transaction cols g) w) = DbFile (Some (g (now w) t)))
   ∨ (result (transaction cols g) w = Val false
      ∧ untouched w (run (transaction cols g) w))).
Proof.
  destruct w as [d f o e fs t j].
  unfold transaction, sqlite3_connect, from_users, opened, conn_commit, aside,
    untouched.
  unfold_m. world_cases; try (intuition congruence).
  all: split; [intuition congruence|left; split; [done|eauto]].
Qed.

Lemma has_columns_sub cols t :
  has_columns all_columns t = true →
  forallb (fun c => bool_decide (c ∈ all_columns)) cols = true →
  has_columns cols t = true.
Proof.
  unfold has_columns. rewrite !forallb_forall. intros Hall Hsub c Hc.
  apply Hall. specialize (Hsub c Hc). apply bool_decide_eq_true in Hsub.
  by apply list_elem_of_In.
Qed.

(** With the table in place and no failure scheduled, a transaction
    commits. *)
Lemma transaction_commits cols g w t :
  db w = DbFile (Some t) → has_columns cols t = true → no_faults w →
  transaction cols g w = (Val true, set_db (DbFile (Some (g (now w) t))) w).
Proof.
  destruct w as [d f o e fs tm j]. unfold no_faults. cbn. intros -> Hc ->.
  unfold transaction, sqlite3_connect, from_users, opened, conn_commit.
  unfold_m. cbn -[has_columns]. rewrite Hc. reflexivity.
Qed.

Lemma add_user_transaction uid un fn w :
  add_user uid un fn w
  = transaction ["user_id"; "username"; "full_name"]
      (insert_or_ignore uid un fn) w.
Proof. reflexivity. Qed.

Lemma update_user_problem_transaction uid seg custom w :
  update_user_problem uid seg custom w
  = transaction (problem_columns seg custom)
      (fun _ => problem_update uid seg custom) w.
Proof.
  unfold update_user_problem, transaction, problem_columns, problem_update.
  destruct (truthy custom && str_eqb seg CUSTOM);
    unfold_m; repeat case_match; congruence.
Qed.

Lemma update_user_contact_info_transaction uid name a ph w :
  update_user_contact_info uid name a ph w
  = transaction ["real_name"; "age"; "phone"; "user_id"]
      (fun _ => contact_update uid name a ph) w.
Proof. reflexivity. Qed.

Lemma problem_columns_known seg custom :
  forallb (fun c => bool_decide (c ∈ all_columns)) (problem_columns seg custom)
  = true.
Proof. unfold problem_columns. by case_match. Qed.

(** ** Rows and identifiers *)

Lemma update_where_absent uid f rs :
  find_row uid rs = None → update_where uid f rs = rs.
Proof.
  unfold find_row, update_where. induction rs as [|r rs IH]; cbn; [done|].
  destruct (user_id r =? uid); [done|]. intros H. by rewrite IH.
Qed.

Lemma find_row_update_where uid f rs :
  (∀ r, user_id (f r) = user_id r) →
  find_row uid (update_where uid f rs) = f <$> find_row uid rs.
Proof.
  intros Hid. unfold find_row, update_where.
  induction rs as [|r rs IH]; cbn; [done|].
  destruct (user_id r =? uid) eqn:E.
  - by rewrite Hid, E.
  - by rewrite E.
Qed.

Lemma update_where_ids uid f rs :
  (∀ r, user_id (f r) = user_id r) →
  List.map user_id (update_where uid f rs) = List.map user_id rs.
Proof.
  intros Hid. unfold update_where. rewrite List.map_map.
  apply List.map_ext. intros r. by case_match.
Qed.

Lemma file_rows_untouched w w' :
  untouched w w' → file_rows (db w') = file_rows (db w).
Proof. intros [->|[-> ->]]; done. Qed.

Lemma find_row_Some uid rs r :
  find_row uid rs = Some r → user_id r = uid ∧ In r rs.
Proof.
  unfold find_row. intros H. apply List.find_some in H as [? ?]. split; [lia|done].
Qed.

Lemma find_row_None uid rs :
  find_row uid rs = None → List.filter (fun r => user_id r =? uid) rs = [].
Proof.
  unfold find_row. induction rs as [|r rs IH]; cbn; [done|].
  destruct (user_id r =? uid); [done|auto].
Qed.

Lemma find_row_unique uid rs r :
  NoDup (List.map user_id rs) → find_row uid rs = Some r →
  List.filter (fun r => user_id r =? uid) rs = [r].
Proof.
  unfold find_row. induction rs as [|x rs IH]; cbn; [done|].
  intros Hnd. apply NoDup_cons in Hnd as [Hx Hnd].
  destruct (user_id x =? uid) eqn:E.
  - intros [= ->]. f_equal.
    apply find_row_None. unfold find_row.
    destruct (List.find _ rs) as [y|] eqn:Hy; [|done].
    apply List.find_some in Hy as [Hin Hy]. exfalso. apply Hx.
    apply list_elem_of_In, List.in_map_iff. exists y. split; [lia|done].
  - auto.
Qed.

(** * The record store *)

(** C6: the three contact fields are written by one statement in one
    transaction: either the call reports success and the record of the user
    carries the new name, age and handle, or it reports failure and no record
    has changed. *)
Theorem update_user_contact_info_all_or_nothing uid name a ph w :
  let w' := run (update_user_contact_info uid name a ph) w in
  (result (update_user_contact_info uid name a ph) w = Val true
   ∧ file_rows (db w')
     = update_where uid (set_contact name a ph) (file_rows (db w))
   ∧ ∀ r', find_row uid (file_rows (db w')) = Some r' →
           real_name r' = Some name ∧ age r' = Some a ∧ phone r' = Some ph)
  ∨ (result (update_user_contact_info uid name a ph) w = Val false
     ∧ file_rows (db w') = file_rows (db w)).
Proof.
  cbn zeta. unfold run, result.
  rewrite update_user_contact_info_transaction.
  destruct (transaction_cases
              ["real_name"; "age"; "phone"; "user_id"]
              (fun _ => contact_update uid name a ph) w)
    as [_ [(Hr & t & Hd & _ & Hd')|(Hr & Hu)]].
  - left. unfold run, result in *. rewrite Hr, Hd', Hd.
    cbn [file_rows rows contact_update].
    split_and!; [done..|].
    intros r'. rewrite find_row_update_where by done.
    destruct (find_row uid (rows t)); cbn; [|done].
    by intros [= <-].
  - right. split; [done|]. by apply file_rows_untouched.
Qed.

(** C10: for a user that is not on record, both updates leave every record
    as it is, whatever fails, and create none; with the table in place and
    no failure they report success and the database file is unchanged. *)
Theorem updates_of_absent_user uid seg custom name a ph w :
  find_row uid (file_rows (db w)) = None →
  file_rows (db (run (update_user_problem uid seg custom) w))
  = file_rows (db w)
  ∧ file_rows (db (run (update_user_contact_info uid name a ph) w))
    = file_rows (db w)
  ∧ (schema_ok (db w) → no_faults w →
     update_user_problem uid seg custom w = (Val true, w)
     ∧ update_user_contact_info uid name a ph w = (Val true, w)).
Proof.
  intros Habs. split_and!.
  - unfold run. rewrite update_user_problem_transaction.
    destruct (transaction_cases (problem_columns seg custom)
                (fun _ => problem_update uid seg custom) w)
      as [_ [(_ & t & Hd & _ & Hd')|(_ & Hu)]].
    + unfold run in Hd'. rewrite Hd' , Hd in *. cbn in *.
      by apply update_where_absent.
    + by apply file_rows_untouched.
  - unfold run. rewrite update_user_contact_info_transaction.
    destruct (transaction_cases ["real_name"; "age"; "phone"; "user_id"]
                (fun _ => contact_update uid name a ph) w)
      as [_ [(_ & t & Hd & _ & Hd')|(_ & Hu)]].
    + unfold run in Hd'. rewrite Hd' , Hd in *. cbn in *.
      by apply update_where_absent.
    + by apply file_rows_untouched.
  - intros (t & Hd & Hc) Hf. rewrite Hd in Habs. cbn in Habs.
    rewrite update_user_problem_transaction,
      update_user_contact_info_transaction.
    rewrite !(transaction_commits _ _ w t Hd) by
      first [exact Hf
            |apply has_columns_sub;
             [done|first [apply problem_columns_known|done]]].
    unfold problem_update, contact_update.
    rewrite !update_where_absent by done.
    destruct t as [cs rs], w as [d f o e fs tm j]. cbn in *. by subst.
Qed.

Lemma outside_run e w r w' :
  outside e w = (r, w') → aside w w' ∧ db w' = db w.
Proof.
  destruct w as [d f o ex fs t j]. unfold outside, aside. cbn.
  destruct fs as [|[] fs]; intros [= <- <-]; cbn; done.
Qed.

Lemma sqlite3_connect_run w r w' :
  sqlite3_connect w = (r, w') →
  aside w w' ∧ untouched w w' ∧ (r = Val tt → db w' ≠ NoFile).
Proof.
  destruct w as [d f o ex fs t j].
  unfold sqlite3_connect, aside, untouched. unfold_m. cbn.
  destruct fs as [|[] fs]; cbn; destruct d as [| |[?|]]; cbn;
    intros [= <- <-]; cbn; intuition congruence.
Qed.

Lemma from_users_run cols w r w' :
  from_users cols w = (r, w') →
  aside w w' ∧ db w' = db w
  ∧ ∀ t, r = Val t → db w = DbFile (Some t) ∧ has_columns cols t = true.
Proof.
  destruct w as [d f o ex fs tm j].
  unfold from_users, opened, aside. unfold_m. cbn -[has_columns].
  destruct fs as [|[] fs]; cbn -[has_columns];
    destruct d as [| |[tb|]]; cbn -[has_columns];
    try destruct (has_columns cols tb) eqn:E; cbn;
    intros [= <- <-]; cbn; split_and!; try done; intros ? [= <-]; done.
Qed.

Lemma untouched_trans w1 w2 w3 :
  untouched w1 w2 → untouched w2 w3 → untouched w1 w3.
Proof. unfold untouched. intuition congruence. Qed.

Lemma untouched_refl w : untouched w w.
Proof. by left. Qed.

Lemma aside_trans w1 w2 w3 : aside w1 w2 → aside w2 w3 → aside w1 w3.
Proof. unfold aside. intuition congruence. Qed.

Lemma calm_refl w : calm w w.
Proof. split_and!; [by left|done..]. Qed.

Lemma calm_trans w1 w2 w3 : calm w1 w2 → calm w2 w3 → calm w1 w3.
Proof.
  intros (U1 & N1 & F1) (U2 & N2 & F2).
  split_and!; [by eapply untouched_trans|congruence|auto].
Qed.

Lemma calm_of w w' : aside w w' → untouched w w' → calm w w'.
Proof. unfold aside, calm. intuition. Qed.

Lemma aside_refl w : aside w w.
Proof. by unfold aside. Qed.


(** What [get_user_stats] returns when it returns the dictionary. *)
Lemma get_user_stats_Some w st :
  result get_user_stats w = Val (Some st) →
  ∃ t, db w = DbFile (Some t)
       ∧ total_users st = length (rows t)
       ∧ users_with_requests st = length (List.filter is_request (rows t)).
Proof.
  unfold get_user_stats. unfold_m.
  destruct (sqlite3_connect w) as [[[]|?] w1] eqn:H1; [|cbn; congruence].
  apply sqlite3_connect_run in H1 as (_ & Hu & Hn).
  destruct (from_users [] w1) as [[t1|?] w2] eqn:H2; [|cbn; congruence].
  apply from_users_run in H2 as (_ & E2 & H2). destruct (H2 _ eq_refl) as [D1 _].
  destruct (from_users _ w2) as [[t2|?] w3] eqn:H3; [|cbn; congruence].
  apply from_users_run in H3 as (_ & E3 & H3). destruct (H3 _ eq_refl) as [D2 _].
  destruct (from_users _ w3) as [[t3|?] w4] eqn:H4; [|cbn; congruence].
  destruct (from_users _ w4) as [[t4|?] w5] eqn:H5; [|cbn; congruence].
  cbn. intros [= <-]. cbn.
  assert (t2 = t1) by congruence. subst t2.
  exists t1. split; [|done].
  destruct Hu as [Hu|[Hu Hu']]; congruence.
Qed.

(** ** Rules for [keeps] *)

Section Keeps.
Context (R : relation world) `{!PreOrder R}.

Lemma keeps_ret {A} (a : A) : keeps R (mret a : M A).
Proof. intros w. apply reflexivity. Qed.

Lemma keeps_raise {A} e : keeps R (raise e : M A).
Proof. intros w. apply reflexivity. Qed.

Lemma keeps_get_world : keeps R get_world.
Proof. intros w. apply reflexivity. Qed.

Lemma keeps_bind {A B} (m : M A) (f : A → M B) :
  keeps R m → (∀ a, keeps R (f a)) → keeps R (m ≫= f).
Proof.
  intros Hm Hf w. specialize (Hm w). unfold run in *. unfold_m.
  destruct (m w) as [[a|e] w1]; cbn in *; [|done].
  etrans; [done|]. apply Hf.
Qed.

Lemma keeps_try {A} (m : M A) (h : exn → M A) :
  keeps R m → (∀ e, keeps R (h e)) → keeps R (try_ m h).
Proof.
  intros Hm Hh w. specialize (Hm w). unfold run in *. unfold_m.
  destruct (m w) as [[a|e] w1]; cbn in *; [done|].
  etrans; [done|]. apply Hh.
Qed.

Lemma keeps_modify (f : world → world) :
  (∀ w, R w (f w)) → keeps R (modify f).
Proof. intros H w. apply H. Qed.

Context `{!Coarse R}.

Lemma keeps_calm {A} (m : M A) : keeps calm m → keeps R m.
Proof. intros H w. apply coarse, H. Qed.

End Keeps.

#[export] Instance calm_preorder : PreOrder calm.
Proof. split; [exact calm_refl|exact calm_trans]. Qed.

#[export] Instance calm_coarse : Coarse calm.
Proof. by intros w w'. Qed.

#[export] Instance untouched_preorder : PreOrder untouched.
Proof. split; [exact untouched_refl|exact untouched_trans]. Qed.

#[export] Instance untouched_coarse : Coarse untouched.
Proof. by intros w w' [? _]. Qed.

#[export] Instance no_loss_preorder : PreOrder no_loss.
Proof. split; [by intros w uid|intros w1 w2 w3 H1 H2 uid H; auto]. Qed.

#[export] Instance no_loss_coarse : Coarse no_loss.
Proof.
  intros w w' [H _] uid. unfold ids. by rewrite (file_rows_untouched w w' H).
Qed.

#[export] Instance inv_kept_preorder P : PreOrder (inv_kept P).
Proof.
  split; [intros w H; exact H|intros w1 w2 w3 H1 H2 H; exact (H2 (H1 H))].
Qed.

#[export] Instance inv_kept_coarse P `{!StoreInv P} : Coarse (inv_kept P).
Proof.
  intros w w' [Hu _] H.
  destruct Hu as [E|[_ E]]; rewrite E; [done|apply inv_no_table].
Qed.

(** ** What the calls to the outside keep *)

Ltac kbind := apply keeps_bind; [typeclasses eauto| |intros ?].
Ltac ktry := apply keeps_try; [typeclasses eauto| |intros ?].
Ltac kret := apply keeps_ret; typeclasses eauto.
Ltac kraise := apply keeps_raise; typeclasses eauto.
Ltac kget := apply keeps_get_world; typeclasses eauto.
Ltac kmodify := apply keeps_modify; intros ?; split_and!; [by left|done..].

Lemma keeps_outside e : keeps calm (outside e).
Proof.
  intros w. unfold run. destruct (outside e w) as [r w'] eqn:H.
  apply outside_run in H as [? H]. apply calm_of; [done|by left].
Qed.

Lemma keeps_sqlite3_connect : keeps calm sqlite3_connect.
Proof.
  intros w. unfold run. destruct (sqlite3_connect w) as [r w'] eqn:H.
  apply sqlite3_connect_run in H as (? & H & _). by apply calm_of.
Qed.

Lemma keeps_from_users cols : keeps calm (from_users cols).
Proof.
  intros w. unfold run. destruct (from_users cols w) as [r w'] eqn:H.
  apply from_users_run in H as (? & H & _). apply calm_of; [done|by left].
Qed.

Lemma keeps_opened : keeps calm opened.
Proof.
  unfold opened. kbind; [apply keeps_outside|]. kbind; [kget|].
  destruct (db a0); first [kraise|kret].
Qed.

Lemma keeps_pragma_table_info : keeps calm pragma_table_info.
Proof. unfold pragma_table_info. kbind; [apply keeps_opened|kret]. Qed.

Lemma keeps_os_path_exists_db : keeps calm os_path_exists_db.
Proof. intros w. apply calm_refl. Qed.

Lemma keeps_answer chat r : keeps calm (answer chat r).
Proof. unfold answer. kbind; [apply keeps_outside|kmodify]. Qed.

Lemma keeps_set_state k s : keeps calm (set_state k s).
Proof. kmodify. Qed.

Lemma keeps_update_data k f : keeps calm (update_data k f).
Proof. kmodify. Qed.

Lemma keeps_state_clear k : keeps calm (state_clear k).
Proof. kmodify. Qed.

Lemma keeps_get_data k : keeps calm (get_data k).
Proof. intros w. apply calm_refl. Qed.

Lemma keeps_datetime_now : keeps calm datetime_now.
Proof. intros w. apply calm_refl. Qed.

Lemma keeps_text_strip m : keeps calm (text_strip m).
Proof. unfold text_strip. destruct (text m); [kret|kraise]. Qed.

Lemma keeps_int_ ud mx s : keeps calm (int_ ud mx s).
Proof. unfold int_. case_match; [kret|kraise]. Qed.

Create HintDb keeps.

#[export] Hint Resolve keeps_outside keeps_sqlite3_connect keeps_from_users
  keeps_opened keeps_pragma_table_info keeps_os_path_exists_db keeps_answer
  keeps_set_state keeps_update_data keeps_state_clear keeps_get_data
  keeps_datetime_now keeps_text_strip keeps_int_ : keeps.

(** Takes a computation apart along its binds, tries and branches; the
    leaves are looked up in the hint base. *)
Ltac keeps_tac :=
  repeat first
    [ kret
    | kraise
    | kget
    | solve [eauto with keeps]
    | solve [apply keeps_calm; [typeclasses eauto|eauto with keeps]]
    | kbind
    | ktry
    | match goal with
      | |- keeps _ (if ?b then _ else _) => destruct b eqn:?
      | |- keeps _ (match ?x with _ => _ end) => destruct x eqn:?
      end ].

Lemma keeps_user_exists uid : keeps calm (user_exists uid).
Proof. unfold user_exists. keeps_tac. Qed.

Lemma keeps_get_user_stats : keeps calm get_user_stats.
Proof. unfold get_user_stats. keeps_tac. Qed.

Lemma keeps_export_users_to_excel : keeps calm export_users_to_excel.
Proof. unfold export_users_to_excel, to_excel. keeps_tac. Qed.

#[export] Hint Resolve keeps_user_exists keeps_get_user_stats
  keeps_export_users_to_excel : keeps.

(** ** Running a computation step by step *)

Lemma bind_val {A B} (m : M A) (f : A → M B) w a w1 :
  m w = (Val a, w1) → (m ≫= f) w = f a w1.
Proof. intros H. unfold_m. by rewrite H. Qed.

Lemma bind_exc {A B} (m : M A) (f : A → M B) w e w1 :
  m w = (Exc e, w1) → (m ≫= f) w = (Exc e, w1).
Proof. intros H. unfold_m. by rewrite H. Qed.

Lemma try_val {A} (m : M A) h w a w1 :
  m w = (Val a, w1) → try_ m h w = (Val a, w1).
Proof. intros H. unfold_m. by rewrite H. Qed.

Lemma try_exc {A} (m : M A) h w e w1 :
  m w = (Exc e, w1) → try_ m h w = h e w1.
Proof. intros H. unfold_m. by rewrite H. Qed.

Lemma calm_db w w' : calm w w' → db w ≠ NoFile → db w' = db w.
Proof. intros [[?|[? _]] _] ?; done. Qed.

(** With no failure scheduled the calls to the outside go through. *)
Lemma outside_quiet e w : no_faults w → outside e w = (Val tt, w).
Proof. unfold no_faults, outside. by intros ->. Qed.

Lemma sqlite3_connect_quiet w t :
  db w = DbFile t → no_faults w → sqlite3_connect w = (Val tt, w).
Proof.
  intros Hd Hf. unfold sqlite3_connect.
  rewrite (bind_val _ _ _ _ _ (outside_quiet _ w Hf)).
  unfold_m. by rewrite Hd.
Qed.

Lemma opened_quiet w t :
  db w = DbFile t → no_faults w → opened w = (Val t, w).
Proof.
  intros Hd Hf. unfold opened.
  rewrite (bind_val _ _ _ _ _ (outside_quiet _ w Hf)).
  unfold_m. by rewrite Hd.
Qed.

Lemma from_users_quiet cols w t :
  db w = DbFile (Some t) → has_columns cols t = true → no_faults w →
  from_users cols w = (Val t, w).
Proof.
  intros Hd Hc Hf. unfold from_users.
  rewrite (bind_val _ _ _ _ _ (opened_quiet w _ Hd Hf)). by rewrite Hc.
Qed.

Lemma user_exists_quiet uid w t :
  db w = DbFile (Some t) → has_columns all_columns t = true → no_faults w →
  user_exists uid w
  = (Val (match find_row uid (rows t) with Some _ => true | None => false end), w).
Proof.
  intros Hd Hc Hf. unfold user_exists. apply try_val.
  rewrite (bind_val _ _ _ _ _ (sqlite3_connect_quiet w _ Hd Hf)).
  rewrite (bind_val _ _ _ _ _ (from_users_quiet ["user_id"] w t Hd
             (has_columns_sub ["user_id"] t Hc eq_refl) Hf)).
  done.
Qed.

Lemma missing_none t :
  has_columns required_columns t = true →
  List.filter (fun c => negb (bool_decide (c ∈ columns t))) required_columns = [].
Proof.
  intros H. unfold has_columns, required_columns in *. cbn in H.
  repeat (apply andb_prop in H as [? H]). cbn.
  repeat match goal with H : bool_decide _ = true |- _ => rewrite H; clear H end.
  done.
Qed.

Lemma ensure_schema_quiet w t :
  db w = DbFile (Some t) → has_columns required_columns t = true →
  no_faults w → ensure_schema w = (Val tt, w).
Proof.
  intros Hd Hc Hf. unfold ensure_schema.
  rewrite (bind_val _ _ _ true w) by (unfold os_path_exists_db; by rewrite Hd).
  apply try_val.
  rewrite (bind_val _ _ _ _ _ (sqlite3_connect_quiet w _ Hd Hf)).
  unfold pragma_table_info.
  rewrite (bind_val _ _ _ (columns t) w)
    by (by rewrite (bind_val _ _ _ _ _ (opened_quiet w _ Hd Hf))).
  by rewrite missing_none.
Qed.

(** ** [INSERT OR IGNORE] *)

Lemma insert_or_ignore_columns uid un fn tm t :
  columns (insert_or_ignore uid un fn tm t) = columns t.
Proof. unfold insert_or_ignore. by case_match. Qed.

Lemma insert_by_id_perm r rs : insert_by_id r rs ≡ₚ rs ++ [r].
Proof.
  induction rs as [|r' rs IH]; cbn; [done|].
  destruct (user_id r <? user_id r').
  - change (r :: r' :: rs) with ([r] ++ (r' :: rs)).
    apply Permutation_app_comm.
  - by rewrite IH.
Qed.

Lemma insert_by_id_ids r rs :
  List.map user_id (insert_by_id r rs) ≡ₚ List.map user_id rs ++ [user_id r].
Proof.
  change [user_id r] with (List.map user_id [r]).
  rewrite <- List.map_app. apply Permutation_map, insert_by_id_perm.
Qed.

Lemma insert_by_id_find r rs :
  find_row (user_id r) (insert_by_id r rs) ≠ None.
Proof.
  unfold find_row. induction rs as [|r' rs IH]; cbn.
  - by rewrite Z.eqb_refl.
  - destruct (user_id r <? user_id r'); cbn.
    + by rewrite Z.eqb_refl.
    + by destruct (user_id r' =? user_id r).
Qed.

Lemma insert_by_id_filter (p : user_row → bool) r rs :
  length (List.filter p (insert_by_id r rs))
  = (length (List.filter p rs) + if p r then 1 else 0)%nat.
Proof.
  induction rs as [|r' rs IH]; cbn.
  - by destruct (p r).
  - destruct (user_id r <? user_id r'); cbn.
    + destruct (p r), (p r'); cbn; lia.
    + destruct (p r'); cbn; rewrite IH; lia.
Qed.

Lemma insert_or_ignore_found uid un fn tm t :
  find_row uid (rows (insert_or_ignore uid un fn tm t)) ≠ None.
Proof.
  unfold insert_or_ignore. destruct (find_row uid (rows t)) eqn:E; cbn [rows].
  - by rewrite E.
  - apply (insert_by_id_find (Row uid _ _ _ _ _ _ _ _)).
Qed.

Lemma insert_or_ignore_known uid un fn tm t :
  find_row uid (rows t) ≠ None → insert_or_ignore uid un fn tm t = t.
Proof. unfold insert_or_ignore. by case_match. Qed.

Lemma filter_id_app uid rs r :
  List.filter (fun r => user_id r =? uid) (rs ++ [r])
  = List.filter (fun r => user_id r =? uid) rs
    ++ (if user_id r =? uid then [r] else []).
Proof. rewrite List.filter_app. done. Qed.

Lemma insert_or_ignore_one uid un fn tm t :
  NoDup (List.map user_id (rows t)) →
  length (List.filter (fun r => user_id r =? uid)
            (rows (insert_or_ignore uid un fn tm t))) = 1%nat.
Proof.
  intros Hnd. unfold insert_or_ignore.
  destruct (find_row uid (rows t)) eqn:E; cbn [rows].
  - by rewrite (find_row_unique _ _ _ Hnd E).
  - rewrite insert_by_id_filter, (find_row_None _ _ E). cbn.
    by rewrite Z.eqb_refl.
Qed.

Lemma insert_or_ignore_NoDup uid un fn tm t :
  NoDup (List.map user_id (rows t)) →
  NoDup (List.map user_id (rows (insert_or_ignore uid un fn tm t))).
Proof.
  intros Hnd. unfold insert_or_ignore.
  destruct (find_row uid (rows t)) eqn:E; cbn [rows]; [done|].
  rewrite insert_by_id_ids. cbn. apply NoDup_app.
  split_and!; [done| |apply NoDup_singleton].
  intros x Hx ->%list_elem_of_singleton.
  apply list_elem_of_In, List.in_map_iff in Hx as (r & Hr & Hin).
  unfold find_row in E. eapply List.find_none in E; [|done]. cbn in E. lia.
Qed.

Lemma keeps_greeting_name fn : keeps calm (greeting_name fn).
Proof. unfold greeting_name. keeps_tac. Qed.

#[export] Hint Resolve keeps_greeting_name : keeps.

(** The second half of [/start] with the table in place and no failure:
    the user is on record afterwards and nothing else has changed in the
    database. *)
Lemma register_and_greet_quiet m w t :
  db w = DbFile (Some t) → has_columns all_columns t = true → no_faults w →
  let un := if truthy (from_username m) then default [] (from_username m)
            else lit "не указан" in
  let w' := run (register_and_greet m) w in
  db w' = DbFile (Some (insert_or_ignore (from_id m) un (from_full_name m)
                          (now w) t))
  ∧ no_faults w'.
Proof.
  intros Hd Hc Hf. cbv zeta. unfold register_and_greet, run. cbv zeta.
  rewrite (bind_val _ _ _ _ _ (user_exists_quiet (from_id m) w t Hd Hc Hf)).
  match goal with
  | |- context [(_ ;; ?rest) w] =>
      assert (keeps calm rest) as Hrest by keeps_tac
  end.
  destruct (find_row (from_id m) (rows t)) eqn:E.
  - rewrite (bind_val _ _ _ tt w) by done.
    specialize (Hrest w) as (Hu & _ & Hq). unfold run in *.
    rewrite insert_or_ignore_known by congruence.
    split; [|by apply Hq].
    destruct Hu as [->|[? _]]; congruence.
  - set (w1 := set_db (DbFile (Some (insert_or_ignore (from_id m)
                 (if truthy (from_username m)
                  then default [] (from_username m) else lit "не указан")
                 (from_full_name m) (now w) t))) w).
    rewrite (bind_val _ _ _ tt w1).
    + specialize (Hrest w1) as (Hu & _ & Hq). unfold run in *.
      split; [|by apply Hq].
      destruct Hu as [->|[? _]]; done.
    + erewrite bind_val; [done|]. rewrite add_user_transaction.
      apply (transaction_commits _ _ w t Hd); [|done].
      by apply (has_columns_sub ["user_id"; "username"; "full_name"]).
Qed.

Lemma command_start_quiet m w t :
  db w = DbFile (Some t) → has_columns all_columns t = true → no_faults w →
  let un := if truthy (from_username m) then default [] (from_username m)
            else lit "не указан" in
  let w' := run (command_start m) w in
  db w' = DbFile (Some (insert_or_ignore (from_id m) un (from_full_name m)
                          (now w) t))
  ∧ no_faults w'.
Proof.
  intros Hd Hc Hf. cbv zeta. unfold command_start, run.
  rewrite (bind_val _ _ _ _ _ (ensure_schema_quiet w t Hd
             (has_columns_sub required_columns t Hc eq_refl) Hf)).
  by apply register_and_greet_quiet.
Qed.

(** * One record for each user *)

(** C8: with the table in place and no failure, [add_user] leaves exactly
    one record of the user; a second call, with other identity strings and
    whatever fails during it, changes no record.  The same holds for two
    [/start] of one user when nothing fails. *)
Theorem add_user_twice uid un1 fn1 un2 fn2 w :
  schema_ok (db w) → no_faults w → NoDup (ids (db w)) →
  let w1 := run (add_user uid un1 fn1) w in
  (result (add_user uid un1 fn1) w = Val true
   ∧ length (records_of uid (db w1)) = 1%nat
   ∧ ∀ time fs,
       let w2 := run (add_user uid un2 fn2) (set_env time fs w1) in
       file_rows (db w2) = file_rows (db w1)
       ∧ length (records_of uid (db w2)) = 1%nat
       ∧ (fs = [] → result (add_user uid un2 fn2) (set_env time fs w1) = Val true))
  ∧ ∀ m1 m2, from_id m1 = uid → from_id m2 = uid →
      let v1 := run (command_start m1) w in
      let v2 := run (command_start m2) v1 in
      length (records_of uid (db v1)) = 1%nat
      ∧ length (records_of uid (db v2)) = 1%nat
      ∧ db v2 = db v1.
Proof.
  intros (t & Hd & Hc) Hf Hnd. unfold ids in Hnd. rewrite Hd in Hnd. cbn in Hnd.
  cbn zeta. split.
  - unfold run, result. rewrite add_user_transaction.
    rewrite (transaction_commits _ _ w t Hd
               (has_columns_sub ["user_id"; "username"; "full_name"] t Hc eq_refl)
               Hf).
    cbn [fst snd]. unfold records_of. cbn [db set_db file_rows].
    split_and!; [done|by apply insert_or_ignore_one|].
    intros time fs.
    set (t1 := insert_or_ignore uid un1 fn1 (now w) t).
    set (w1 := set_env time fs (set_db (DbFile (Some t1)) w)).
    rewrite add_user_transaction.
    destruct (transaction_cases ["user_id"; "username"; "full_name"]
                (insert_or_ignore uid un2 fn2) w1)
      as [_ [(Hr & t' & Hd1 & _ & Hd')|(Hr & Hu)]]; unfold run, result in *.
    + assert (t' = t1) as -> by (cbn in Hd1; congruence).
      rewrite Hd', Hr.
      rewrite insert_or_ignore_known by apply insert_or_ignore_found.
      cbn [file_rows]. split_and!; [done|by apply insert_or_ignore_one|done].
    + apply file_rows_untouched in Hu. rewrite Hu. cbn [db w1 set_env file_rows].
      split_and!; [done|by apply insert_or_ignore_one|].
      intros ->. exfalso.
      rewrite (transaction_commits _ _ w1 t1) in Hr; [done|done| |done].
      apply has_columns_sub; [|done]. unfold has_columns.
      unfold t1. by rewrite insert_or_ignore_columns.
  - intros m1 m2 H1 H2.
    destruct (command_start_quiet m1 w t Hd Hc Hf) as [D1 F1].
    set (v1 := run (command_start m1) w) in *.
    set (t1 := insert_or_ignore _ _ _ _ t) in D1.
    assert (has_columns all_columns t1 = true) as Hc1.
    { unfold has_columns, t1. by rewrite insert_or_ignore_columns. }
    destruct (command_start_quiet m2 v1 t1 D1 Hc1 F1) as [D2 _].
    rewrite D2, D1, H2, <- H1. subst t1.
    rewrite (insert_or_ignore_known _ _ _ _ (insert_or_ignore _ _ _ _ _))
      by apply insert_or_ignore_found.
    unfold records_of. cbn [file_rows].
    split_and!; [| |done]; by apply insert_or_ignore_one.
Qed.

(** ** What the writers keep *)

Lemma keeps_pointwise {A} R (m m' : M A) :
  (∀ w, m w = m' w) → keeps R m' → keeps R m.
Proof. intros E H w. unfold run. rewrite E. apply H. Qed.

Lemma no_loss_transaction cols g :
  (∀ tm t, List.map user_id (rows (g tm t)) = List.map user_id (rows t)
           ∨ ∃ r, rows (g tm t) ≡ₚ rows t ++ [r]) →
  keeps no_loss (transaction cols g).
Proof.
  intros Hg w.
  destruct (transaction_cases cols g w)
    as [_ [(_ & t & Hd & _ & Hd')|(_ & Hu)]].
  - intros uid. unfold ids. rewrite Hd', Hd. cbn [file_rows].
    destruct (Hg (now w) t) as [->|[r Hp]]; [done|].
    intros Hin. eapply Permutation_in.
    { symmetry. apply Permutation_map. exact Hp. }
    rewrite List.map_app. apply List.in_or_app. by left.
  - intros uid. unfold ids. by rewrite (file_rows_untouched _ _ Hu).
Qed.

Lemma insert_or_ignore_rows uid un fn tm t :
  rows (insert_or_ignore uid un fn tm t) = rows t
  ∨ ∃ r, rows (insert_or_ignore uid un fn tm t) ≡ₚ rows t ++ [r].
Proof.
  unfold insert_or_ignore. case_match; cbn [rows]; [by left|].
  right. eexists. apply insert_by_id_perm.
Qed.

Lemma no_loss_add_user uid un fn : keeps no_loss (add_user uid un fn).
Proof.
  eapply keeps_pointwise; [apply add_user_transaction|].
  apply no_loss_transaction. intros tm t.
  destruct (insert_or_ignore_rows uid un fn tm t) as [->|?]; eauto.
Qed.

Lemma no_loss_update_user_problem uid seg custom :
  keeps no_loss (update_user_problem uid seg custom).
Proof.
  eapply keeps_pointwise; [apply update_user_problem_transaction|].
  apply no_loss_transaction. intros _ t. left.
  unfold problem_update. cbn [rows]. apply update_where_ids.
  by case_match.
Qed.

Lemma no_loss_update_user_contact_info uid name a ph :
  keeps no_loss (update_user_contact_info uid name a ph).
Proof.
  eapply keeps_pointwise; [apply update_user_contact_info_transaction|].
  apply no_loss_transaction. intros _ t. left.
  unfold contact_update. cbn [rows]. by apply update_where_ids.
Qed.

#[export] Hint Resolve no_loss_add_user no_loss_update_user_problem
  no_loss_update_user_contact_info : keeps.

(** ** The invariant of the store *)

#[export] Instance store_ok_inv : StoreInv store_ok.
Proof.
  split; cbn; [done..|].
  split_and!; [done|apply NoDup_nil_2|apply Forall_nil_2..].
Qed.

Lemma ok_transaction cols g :
  (∀ tm t, store_ok (DbFile (Some t)) → store_ok (DbFile (Some (g tm t)))) →
  keeps (inv_kept store_ok) (transaction cols g).
Proof.
  intros Hg w Hok.
  destruct (transaction_cases cols g w)
    as [_ [(_ & t & Hd & _ & Hd')|(_ & Hu)]].
  - rewrite Hd'. rewrite Hd in Hok. by apply Hg.
  - destruct Hu as [->|[_ ->]]; done.
Qed.

Lemma ok_os_remove_db : keeps (inv_kept store_ok) os_remove_db.
Proof.
  intros w Hok. destruct w as [d f o e fs t j].
  unfold os_remove_db, run. unfold_m. cbn in *.
  destruct fs as [|[] fs]; cbn; destruct d as [| |[?|]]; cbn; done.
Qed.

Lemma ok_create_table_users : keeps (inv_kept store_ok) create_table_users.
Proof.
  intros w Hok. destruct w as [d f o e fs t j].
  unfold create_table_users, opened, run. unfold_m. cbn in *.
  destruct fs as [|[] fs]; cbn; destruct d as [| |[?|]]; cbn; try done;
    exact (inv_fresh (P:=store_ok)).
Qed.

Lemma ok_conn_commit_None : keeps (inv_kept store_ok) (conn_commit None).
Proof. kret. Qed.

#[export] Hint Resolve ok_os_remove_db ok_create_table_users
  ok_conn_commit_None : keeps.

Lemma ok_init_database : keeps (inv_kept store_ok) init_database.
Proof. unfold init_database. keeps_tac. Qed.

#[export] Hint Resolve ok_init_database : keeps.

Lemma ok_ensure_schema : keeps (inv_kept store_ok) ensure_schema.
Proof. unfold ensure_schema. keeps_tac. Qed.

Lemma Forall_update_where (P : user_row → Prop) uid f rs :
  (∀ r, P r → P (f r)) → Forall P rs → Forall P (update_where uid f rs).
Proof.
  intros Hf H. unfold update_where. apply List.Forall_map.
  eapply Forall_impl; [done|]. intros r Hr. cbn. case_match; auto.
Qed.

Lemma ok_add_user uid un fn : keeps (inv_kept store_ok) (add_user uid un fn).
Proof.
  eapply keeps_pointwise; [apply add_user_transaction|].
  apply ok_transaction. intros tm t (Hc & Hnd & H1 & H2). cbn.
  rewrite insert_or_ignore_columns.
  split_and!; [done|by apply insert_or_ignore_NoDup|..];
    unfold insert_or_ignore; case_match; cbn [rows]; try done;
    (eapply Permutation_Forall;
     [symmetry; apply insert_by_id_perm|]);
    apply Forall_app; (split; [done|]); apply Forall_singleton.
  - by left.
  - by intros text.
Qed.

Lemma ok_update_user_contact_info uid name a ph :
  keeps (inv_kept store_ok) (update_user_contact_info uid name a ph).
Proof.
  eapply keeps_pointwise; [apply update_user_contact_info_transaction|].
  apply ok_transaction. intros _ t (Hc & Hnd & H1 & H2). cbn.
  split_and!; [done|by rewrite update_where_ids|..];
    apply Forall_update_where; try done.
  intros r _. by right.
Qed.

Lemma ok_update_user_problem uid seg custom :
  problem_args_ok seg custom →
  keeps (inv_kept store_ok) (update_user_problem uid seg custom).
Proof.
  intros Hargs.
  eapply keeps_pointwise; [apply update_user_problem_transaction|].
  apply ok_transaction. intros _ t (Hc & Hnd & H1 & H2).
  unfold problem_update. cbn.
  destruct Hargs as [[-> Hseg]|(text & -> & Hlen & ->)].
  - cbn. split_and!; [done|by rewrite update_where_ids|..];
      apply Forall_update_where; try done.
    intros r Hr text Ht. cbn in *. destruct (Hr text Ht) as [? _].
    split; [done|eauto].
  - assert (truthy (Some text) = true) as ->.
    { destruct text; [unfold len in Hlen; cbn in Hlen; lia|done]. }
    assert (str_eqb CUSTOM CUSTOM = true) as ->
      by (unfold str_eqb; by apply bool_decide_eq_true_2).
    cbn. split_and!; [done|by rewrite update_where_ids|..];
      apply Forall_update_where; try done.
    intros r Hr text' [= <-]. cbn. split; [done|eauto].
Qed.

#[export] Hint Resolve ok_add_user ok_update_user_contact_info
  ok_ensure_schema : keeps.

(** ** What the handlers keep *)

Lemma keeps_os_remove_export f : keeps calm (os_remove_export f).
Proof.
  unfold os_remove_export. kbind; [apply keeps_outside|]. kbind; [kget|].
  case_match; [kmodify|kraise].
Qed.

Lemma keeps_answer_document chat f st : keeps calm (answer_document chat f st).
Proof. unfold answer_document. keeps_tac. Qed.

#[export] Hint Resolve keeps_os_remove_export keeps_answer_document : keeps.

Lemma keeps_command_export ADMIN_ID m : keeps calm (command_export ADMIN_ID m).
Proof. unfold command_export. keeps_tac. Qed.

Lemma keeps_command_stats ADMIN_ID m : keeps calm (command_stats ADMIN_ID m).
Proof. unfold command_stats. keeps_tac. Qed.

Lemma keeps_handle_custom_problem_start c :
  keeps calm (handle_custom_problem_start c).
Proof. unfold handle_custom_problem_start. keeps_tac. Qed.

Lemma keeps_handle_signup_start c : keeps calm (handle_signup_start c).
Proof. unfold handle_signup_start. keeps_tac. Qed.

Lemma keeps_handle_name_input m : keeps calm (handle_name_input m).
Proof. unfold handle_name_input. keeps_tac. Qed.

Lemma keeps_handle_age_input ud mx m : keeps calm (handle_age_input ud mx m).
Proof. unfold handle_age_input. keeps_tac. Qed.

#[export] Hint Resolve keeps_command_export keeps_command_stats
  keeps_handle_custom_problem_start keeps_handle_signup_start
  keeps_handle_name_input keeps_handle_age_input : keeps.

Lemma no_loss_handle_problem_selection c :
  keeps no_loss (handle_problem_selection c).
Proof. unfold handle_problem_selection. keeps_tac. Qed.

Lemma no_loss_handle_custom_problem_input m :
  keeps no_loss (handle_custom_problem_input m).
Proof. unfold handle_custom_problem_input. keeps_tac. Qed.

Lemma no_loss_handle_phone_input ADMIN_ID m :
  keeps no_loss (handle_phone_input ADMIN_ID m).
Proof. unfold handle_phone_input. keeps_tac. Qed.

Lemma problem_name_fixed key :
  In key fixed_keys →
  In (dict_get PROBLEM_NAMES key (lit "Неизвестная проблема")) fixed_names.
Proof. intros [<-|[<-|[<-|[]]]]; vm_compute; tauto. Qed.

Lemma ok_handle_problem_selection c :
  In (cb_data c) fixed_keys →
  keeps (inv_kept store_ok) (handle_problem_selection c).
Proof.
  intros Hk. unfold handle_problem_selection. cbv zeta.
  kbind; [|keeps_tac].
  apply ok_update_user_problem. left. split; [done|].
  by apply problem_name_fixed.
Qed.

Lemma ok_handle_custom_problem_input m :
  keeps (inv_kept store_ok) (handle_custom_problem_input m).
Proof.
  unfold handle_custom_problem_input. kbind; [keeps_tac|].
  destruct (len a <? 10) eqn:E; [keeps_tac|].
  kbind; [|keeps_tac].
  apply ok_update_user_problem. right. exists a. split_and!; [done|lia|done].
Qed.

Lemma ok_handle_phone_input ADMIN_ID m :
  keeps (inv_kept store_ok) (handle_phone_input ADMIN_ID m).
Proof. unfold handle_phone_input. keeps_tac. Qed.

Lemma ok_command_start m : keeps (inv_kept store_ok) (command_start m).
Proof. unfold command_start, register_and_greet. keeps_tac. Qed.

Lemma ok_on_startup ADMIN_ID : keeps (inv_kept store_ok) (on_startup ADMIN_ID).
Proof. unfold on_startup. keeps_tac. Qed.

Section Events.

Variable ADMIN_ID : Z.
Variable unicode_decimal : N → option Z.
Variable int_max_str_digits : N.

#[local] Abbreviation handle := (handle ADMIN_ID unicode_decimal int_max_str_digits).
#[local] Abbreviation reachable := (reachable ADMIN_ID unicode_decimal int_max_str_digits).

Lemma no_loss_handle ev : ordinary ev → keeps no_loss (handle ev).
Proof.
  destruct ev; cbn; intros Hord; try done;
    first [ apply no_loss_handle_problem_selection
          | apply no_loss_handle_custom_problem_input
          | apply no_loss_handle_phone_input
          | apply keeps_calm; [typeclasses eauto|solve [eauto with keeps]]
          | idtac ].
  apply keeps_modify. intros w uid H. exact H.
Qed.

Lemma ok_handle ev w :
  accepts ev w → inv_kept store_ok w (run (handle ev) w).
Proof.
  destruct ev; cbn; intros Hacc;
    first [ by apply ok_handle_problem_selection
          | apply ok_handle_custom_problem_input
          | apply ok_handle_phone_input
          | apply ok_command_start
          | apply keeps_calm; [typeclasses eauto|solve [eauto with keeps]]
          | idtac ].
  - apply keeps_bind; [typeclasses eauto| |intros ?; apply ok_on_startup].
    apply keeps_modify. intros w' H. exact H.
  - intros H. exact H.
Qed.

(** Every state the bot reaches has a well-formed store. *)
Lemma reachable_store_ok w : reachable w → store_ok (db w).
Proof.
  induction 1 as [w (Hd & _)|w ev _ IH Hacc].
  - apply (ok_handle Startup w I). by rewrite Hd.
  - by apply (ok_handle ev w Hacc).
Qed.

End Events.

(** * The statistics *)

Lemma find_row_None_iff uid rs :
  find_row uid rs = None ↔ ¬ In uid (List.map user_id rs).
Proof.
  unfold find_row. split.
  - intros H Hin. apply List.in_map_iff in Hin as (r & Hr & Hin).
    eapply List.find_none in H; [|done]. cbn in H. lia.
  - intros H. destruct (List.find _ rs) as [r|] eqn:E; [|done].
    apply List.find_some in E as [Hin E]. exfalso. apply H.
    apply List.in_map_iff. exists r. split; [lia|done].
Qed.

Lemma call_inv_calm created w w' :
  calm w w' → call_inv (created, w) → call_inv (created, w').
Proof.
  intros Hc (t & Hd & H). exists t. split; [|done]. cbn in *.
  rewrite (calm_db _ _ Hc); [done|congruence].
Qed.

Lemma call_inv_update created w cols f uid :
  (∀ r, user_id (f r) = user_id r) →
  (∀ r, contact_ok r → contact_ok (f r)) →
  call_inv (created, w) →
  call_inv (created,
            run (transaction cols
                   (fun _ t => Table (columns t) (update_where uid f (rows t)))) w).
Proof.
  intros Hid Hok (t & Hd & Hc & Hids & Hnd & Hall). cbn in *.
  destruct (transaction_cases cols
              (fun _ t => Table (columns t) (update_where uid f (rows t))) w)
    as [_ [(_ & t' & Hd1 & _ & Hd')|(_ & Hu)]].
  - assert (t' = t) as -> by congruence.
    eexists. split; [exact Hd'|]. cbn [fst snd columns rows].
    split_and!; [done|by rewrite update_where_ids|done|].
    by apply Forall_update_where.
  - exists t. cbn. split; [|done].
    destruct Hu as [->|[? _]]; congruence.
Qed.

Lemma call_step_inv st c : call_inv st → call_inv (call_step st c).
Proof.
  destruct st as [created w]. intros Hinv.
  destruct c; unfold call_step; cbn [fst snd].
  - destruct Hinv as (t & Hd & Hc & Hids & Hnd & Hall). cbn in *.
    unfold run, result. rewrite add_user_transaction.
    destruct (transaction_cases ["user_id"; "username"; "full_name"]
                (insert_or_ignore uid un fn) w)
      as [_ [(Hr & t' & Hd1 & _ & Hd')|(Hr & Hu)]]; unfold run, result in *.
    + assert (t' = t) as -> by congruence. rewrite Hr.
      eexists. split; [exact Hd'|]. cbn. rewrite insert_or_ignore_columns.
      unfold insert_or_ignore.
      destruct (find_row uid (rows t)) eqn:E.
      * assert (In uid created) as Hin.
        { eapply Permutation_in; [exact Hids|].
          apply find_row_Some in E as [<- Hin]. by apply List.in_map. }
        rewrite (bool_decide_eq_true_2 (uid ∈ created))
          by (by apply list_elem_of_In).
        done.
      * apply find_row_None_iff in E.
        assert (¬ In uid created) as Hout.
        { intros Hin. apply E. eapply Permutation_in; [|exact Hin].
          by symmetry. }
        rewrite (bool_decide_eq_false_2 (uid ∈ created))
          by (by intros ?%list_elem_of_In).
        cbn [rows].
        split_and!; [done| | |].
        -- rewrite insert_by_id_ids. cbn [user_id]. by rewrite Hids.
        -- apply NoDup_app. split_and!; [done| |apply NoDup_singleton].
           intros x Hx ->%list_elem_of_singleton. by apply list_elem_of_In in Hx.
        -- eapply Permutation_Forall; [symmetry; apply insert_by_id_perm|].
           apply Forall_app. split; [done|]. apply Forall_singleton. by left.
    + rewrite Hr. exists t. cbn. split; [|done].
      destruct Hu as [->|[? _]]; congruence.
  - unfold run. rewrite update_user_problem_transaction.
    unfold problem_update. apply call_inv_update; [by case_match| |done].
    intros r Hr. by case_match.
  - unfold run. rewrite update_user_contact_info_transaction.
    unfold contact_update. apply call_inv_update; [done| |done].
    intros r _. by right.
  - eapply call_inv_calm; [apply keeps_user_exists|done].
  - eapply call_inv_calm; [apply keeps_get_user_stats|done].
  - eapply call_inv_calm; [apply keeps_export_users_to_excel|done].
  - destruct Hinv as (t & Hd & H). by exists t.
Qed.

Lemma calls_inv cs st : call_inv st → call_inv (fold_left call_step cs st).
Proof.
  revert st. induction cs as [|c cs IH]; intros st H; cbn; [done|].
  by apply IH, call_step_inv.
Qed.

Lemma complete_is_request r : contact_ok r → is_request r = complete r.
Proof.
  unfold is_request, complete.
  intros [(-> & -> & ->)|(H1 & H2 & H3)]; [done|].
  by rewrite !bool_decide_eq_true_2.
Qed.

Lemma filter_ext_Forall {A} (f g : A → bool) (P : A → Prop) l :
  (∀ x, P x → f x = g x) → Forall P l → List.filter f l = List.filter g l.
Proof.
  intros H. induction 1 as [|x l Hx _ IH]; cbn; [done|].
  by rewrite (H x Hx), IH.
Qed.

Lemma from_users_known cols w t :
  db w = DbFile (Some t) → has_columns all_columns t = true →
  forallb (fun c => bool_decide (c ∈ all_columns)) cols = true →
  no_faults w → from_users cols w = (Val t, w).
Proof. intros Hd Hc Hs Hf. apply from_users_quiet; [done| |done]. by apply has_columns_sub. Qed.

Lemma get_user_stats_quiet w t :
  db w = DbFile (Some t) → has_columns all_columns t = true → no_faults w →
  get_user_stats w = (Val (Some (stats_of t)), w).
Proof.
  intros Hd Hc Hf. unfold get_user_stats. apply try_val.
  rewrite (bind_val _ _ _ _ _ (sqlite3_connect_quiet w _ Hd Hf)).
  rewrite (bind_val _ _ _ _ _ (from_users_known [] w t Hd Hc eq_refl Hf)).
  rewrite (bind_val _ _ _ _ _
             (from_users_known ["real_name"; "phone"] w t Hd Hc eq_refl Hf)).
  rewrite (bind_val _ _ _ _ _
             (from_users_known ["problem_segment"] w t Hd Hc eq_refl Hf)).
  rewrite (bind_val _ _ _ _ _
             (from_users_known
                ["real_name"; "age"; "phone"; "problem_segment";
                 "custom_problem"; "created_at"] w t Hd Hc eq_refl Hf)).
  reflexivity.
Qed.

Section Statistics.

Variable ADMIN_ID : Z.
Variable unicode_decimal : N → option Z.
Variable int_max_str_digits : N.

(** C4: after any calls to the store on a table freshly created, whatever
    failed on the way, the statistics, when they can be read, give as
    [total_users] the number of identifiers for which [add_user] created a
    record, which is the number of records, and as [users_with_requests]
    the number of records with name, age and handle all set; they can be
    read when nothing fails.  The two counts are those of the records and
    of the complete records in every state the bot reaches. *)
Theorem stats_count_the_records :
  (∀ cs w0,
     db w0 = DbFile (Some (Table all_columns [])) →
     let created := fst (calls cs w0) in
     let w := snd (calls cs w0) in
     (∀ st, result get_user_stats w = Val (Some st) →
        total_users st = length created
        ∧ total_users st = length (file_rows (db w))
        ∧ users_with_requests st
          = length (List.filter complete (file_rows (db w))))
     ∧ (no_faults w → ∃ st, result get_user_stats w = Val (Some st)))
  ∧ (∀ w st,
       reachable ADMIN_ID unicode_decimal int_max_str_digits w →
       result get_user_stats w = Val (Some st) →
       total_users st = length (file_rows (db w))
       ∧ users_with_requests st
         = length (List.filter complete (file_rows (db w)))).
Proof.
  split.
  - intros cs w0 Hd0. cbn zeta.
    assert (call_inv (calls cs w0)) as (t & Hd & Hc & Hids & Hnd & Hall).
    { apply calls_inv. exists (Table all_columns []). cbn.
      split_and!; [done..|apply NoDup_nil_2|apply Forall_nil_2]. }
    split.
    + intros st Hst. apply get_user_stats_Some in Hst as (t' & Hd' & Ht & Hr).
      assert (t' = t) as -> by congruence.
      rewrite Hd. cbn [file_rows].
      rewrite Ht, Hr, <- (Permutation_length Hids), length_map.
      split_and!; [done..|]. f_equal.
      eapply filter_ext_Forall; [apply complete_is_request|done].
    + intros Hf. exists (stats_of t). unfold result.
      rewrite (get_user_stats_quiet _ t Hd); [done| |done].
      unfold has_columns. by rewrite Hc.
  - intros w st Hw Hst. apply reachable_store_ok in Hw.
    apply get_user_stats_Some in Hst as (t & Hd & Ht & Hr).
    rewrite Hd in *. destruct Hw as (_ & _ & Hall & _).
    cbn [file_rows]. rewrite Ht, Hr. split; [done|]. f_equal.
    eapply filter_ext_Forall; [apply complete_is_request|done].
Qed.

End Statistics.

(** * Resets of the store *)

(** With no failure, [init_database] ends with an empty table, whatever was
    there. *)
Lemma init_database_quiet w :
  no_faults w → init_database w = (Val true, set_db fresh_table w).
Proof.
  destruct w as [d f o e fs t j]. unfold no_faults. cbn. intros ->.
  unfold init_database, os_remove_db, sqlite3_connect, create_table_users,
    opened, conn_commit, os_path_exists_db.
  unfold_m. destruct d as [| |[?|]]; reflexivity.
Qed.

Lemma os_remove_db_quiet w :
  db w ≠ NoFile → no_faults w → os_remove_db w = (Val tt, set_db NoFile w).
Proof.
  destruct w as [d f o e fs t j]. unfold no_faults. cbn. intros Hd ->.
  unfold os_remove_db. unfold_m. destruct d as [| |[?|]]; done.
Qed.

Lemma sqlite3_connect_passes w t :
  db w = DbFile t → hd false (faults w) = false →
  sqlite3_connect w = (Val tt, popped w).
Proof.
  destruct w as [d f o e fs tm j]. cbn. intros -> Hh.
  unfold sqlite3_connect, popped. unfold_m. cbn.
  destruct fs as [|[] fs]; done.
Qed.

Lemma pragma_table_info_passes w t :
  db w = DbFile (Some t) → hd false (faults w) = false →
  pragma_table_info w = (Val (columns t), popped w).
Proof.
  destruct w as [d f o e fs tm j]. cbn. intros -> Hh.
  unfold pragma_table_info, opened, popped. unfold_m. cbn.
  destruct fs as [|[] fs]; done.
Qed.

Lemma check_undisturbed_heads w :
  check_undisturbed w →
  hd false (faults w) = false ∧ hd false (faults (popped w)) = false.
Proof.
  unfold check_undisturbed, popped. cbn.
  destruct (faults w) as [|[] [|[] fs]]; done.
Qed.

(** The check of [/start] on a table with the required columns, when the
    check is not made to fail: nothing is removed. *)
Lemma ensure_schema_intact w t :
  db w = DbFile (Some t) → has_columns required_columns t = true →
  check_undisturbed w →
  ensure_schema w = (Val tt, popped (popped w)).
Proof.
  intros Hd Hc [H1 H2]%check_undisturbed_heads. unfold ensure_schema.
  rewrite (bind_val _ _ _ true w) by (unfold os_path_exists_db; by rewrite Hd).
  apply try_val.
  rewrite (bind_val _ _ _ _ _ (sqlite3_connect_passes w _ Hd H1)).
  rewrite (bind_val _ _ _ _ _ (pragma_table_info_passes (popped w) t Hd H2)).
  by rewrite missing_none.
Qed.

Lemma missing_some t :
  has_columns required_columns t = false →
  List.filter (fun c => negb (bool_decide (c ∈ columns t))) required_columns ≠ [].
Proof.
  unfold has_columns, required_columns. cbn.
  repeat (destruct (bool_decide _); cbn; try done).
Qed.

(** The same check on a table that lacks a required column, with no
    failure: the file is removed and an empty table created. *)
Lemma ensure_schema_resets w t :
  db w = DbFile (Some t) → has_columns required_columns t = false →
  no_faults w → ensure_schema w = (Val tt, set_db fresh_table w).
Proof.
  intros Hd Hc Hf. unfold ensure_schema.
  rewrite (bind_val _ _ _ true w) by (unfold os_path_exists_db; by rewrite Hd).
  apply try_val.
  rewrite (bind_val _ _ _ _ _ (sqlite3_connect_quiet w _ Hd Hf)).
  unfold pragma_table_info.
  rewrite (bind_val _ _ _ (columns t) w)
    by (by rewrite (bind_val _ _ _ _ _ (opened_quiet w _ Hd Hf))).
  pose proof (missing_some t Hc) as Hm.
  destruct (List.filter _ required_columns) as [|c cs]; [done|].
  rewrite (bind_val _ _ _ _ _ (os_remove_db_quiet w ltac:(congruence) Hf)).
  rewrite (bind_val _ _ _ _ _ (init_database_quiet (set_db NoFile w) Hf)).
  destruct w; done.
Qed.

(** The same check when its connect fails and nothing fails after it: the
    file is removed and an empty table created, whatever the table was. *)
Lemma ensure_schema_check_failed w t :
  db w = DbFile t → faults w = [true] →
  ensure_schema w = (Val tt, set_faults [] (set_db fresh_table w)).
Proof.
  destruct w as [d f o e fs tm j]. cbn. intros -> ->.
  unfold ensure_schema.
  rewrite (bind_val _ _ _ true _) by done.
  erewrite try_exc; cycle 1.
  { apply bind_exc. unfold sqlite3_connect. apply bind_exc. reflexivity. }
  rewrite (bind_val _ _ _ true _) by done.
  erewrite bind_val; cycle 1.
  { by apply os_remove_db_quiet. }
  erewrite bind_val; cycle 1.
  { by apply init_database_quiet. }
  reflexivity.
Qed.

Lemma no_loss_register_and_greet m : keeps no_loss (register_and_greet m).
Proof. unfold register_and_greet. keeps_tac. Qed.

Section Resets.

Variable ADMIN_ID : Z.
Variable unicode_decimal : N → option Z.
Variable int_max_str_digits : N.

#[local] Abbreviation handle' := (handle ADMIN_ID unicode_decimal int_max_str_digits).

(** C3, as the code has it: the functions of the store and every handler
    but [/start] and the start of the process lose no record, whatever
    fails; [/start] loses none when the table has the required columns and
    its check is not made to fail, and leaves a table with the sender as
    its only record when a required column is missing or when the connect
    of its check fails; the start of the process leaves an empty table
    whenever nothing fails, whatever the schema was. *)
Theorem records_lost_only_by_resets :
  ((∀ uid un fn, keeps no_loss (add_user uid un fn))
   ∧ (∀ uid seg custom, keeps no_loss (update_user_problem uid seg custom))
   ∧ (∀ uid name a ph,
        keeps no_loss (update_user_contact_info uid name a ph))
   ∧ keeps no_loss get_user_stats
   ∧ keeps no_loss export_users_to_excel
   ∧ ∀ ev, ordinary ev → keeps no_loss (handle' ev))
  ∧ (∀ m w t,
       db w = DbFile (Some t) → has_columns required_columns t = true →
       check_undisturbed w → no_loss w (run (command_start m) w))
  ∧ (∀ m w t,
       db w = DbFile (Some t) → has_columns required_columns t = false →
       no_faults w → ids (db (run (command_start m) w)) = [from_id m])
  ∧ (∀ m w t,
       db w = DbFile t → faults w = [true] →
       ids (db (run (command_start m) w)) = [from_id m])
  ∧ (∀ w, no_faults w → db (run (on_startup ADMIN_ID) w) = fresh_table).
Proof.
  split_and!.
  - apply no_loss_add_user.
  - apply no_loss_update_user_problem.
  - apply no_loss_update_user_contact_info.
  - apply keeps_calm; [typeclasses eauto|apply keeps_get_user_stats].
  - apply keeps_calm; [typeclasses eauto|apply keeps_export_users_to_excel].
  - apply no_loss_handle.
  - intros m w t Hd Hc Hu. unfold command_start, run.
    rewrite (bind_val _ _ _ _ _ (ensure_schema_intact w t Hd Hc Hu)).
    exact (no_loss_register_and_greet m (popped (popped w))).
  - intros m w t Hd Hc Hf. unfold command_start, run.
    rewrite (bind_val _ _ _ _ _ (ensure_schema_resets w t Hd Hc Hf)).
    change (ids (db (run (register_and_greet m) (set_db fresh_table w)))
            = [from_id m]).
    destruct (register_and_greet_quiet m (set_db fresh_table w)
                (Table all_columns []) eq_refl eq_refl Hf) as [-> _].
    reflexivity.
  - intros m w t Hd Hf. unfold command_start, run.
    rewrite (bind_val _ _ _ _ _ (ensure_schema_check_failed w t Hd Hf)).
    change (ids (db (run (register_and_greet m)
                       (set_faults [] (set_db fresh_table w))))
            = [from_id m]).
    destruct (register_and_greet_quiet m
                (set_faults [] (set_db fresh_table w))
                (Table all_columns []) eq_refl eq_refl eq_refl) as [-> _].
    reflexivity.
  - intros w Hf. unfold on_startup, run.
    rewrite (bind_val _ _ _ _ _ (init_database_quiet w Hf)).
    assert (keeps calm
              (if bool_decide (ADMIN_ID ≠ 0)
               then try_ (time ← datetime_now;
                          answer ADMIN_ID (MsgStartupNotice time))
                         (fun _ => mret tt)
               else mret tt)) as Hrest by keeps_tac.
    specialize (Hrest (set_db fresh_table w)) as ([E|[? _]] & _); [|done].
    exact E.
Qed.

End Resets.

(** * Stored descriptions *)

Section CustomText.

Variable ADMIN_ID : Z.
Variable unicode_decimal : N → option Z.
Variable int_max_str_digits : N.

#[local] Abbreviation reachable' :=
  (reachable ADMIN_ID unicode_decimal int_max_str_digits).
#[local] Abbreviation run_events' :=
  (run_events ADMIN_ID unicode_decimal int_max_str_digits).
#[local] Abbreviation accepted' :=
  (accepted ADMIN_ID unicode_decimal int_max_str_digits).

Lemma reachable_run_events evs w :
  reachable' w → accepted' evs w → reachable' (run_events' evs w).
Proof.
  revert w. induction evs as [|ev evs IH]; intros w Hw Hacc; cbn; [done|].
  destruct Hacc as [Ha Hacc]. apply IH; [|done]. by apply reach_step.
Qed.

(** What [update_user_problem] does to the stored descriptions: it leaves
    them all as they are, or it was called with the custom category and a
    description and has written both to the records of the user. *)
Lemma update_user_problem_texts uid seg custom w :
  let w' := run (update_user_problem uid seg custom) w in
  List.map custom_problem (file_rows (db w'))
  = List.map custom_problem (file_rows (db w))
  ∨ (seg = CUSTOM ∧ truthy custom = true
     ∧ file_rows (db w')
       = update_where uid (set_segment_custom CUSTOM (default [] custom))
           (file_rows (db w))).
Proof.
  cbn zeta. unfold run. rewrite update_user_problem_transaction.
  destruct (transaction_cases (problem_columns seg custom)
              (fun _ => problem_update uid seg custom) w)
    as [_ [(_ & t & Hd & _ & Hd')|(_ & Hu)]]; unfold run in *.
  - rewrite Hd', Hd. unfold problem_update. cbn [file_rows rows].
    destruct (truthy custom) eqn:Ht; cbn [andb].
    + unfold str_eqb. case_bool_decide as Hs.
      * right. by subst seg.
      * left. unfold update_where. rewrite List.map_map.
        apply List.map_ext. intros r. by case_match.
    + left. unfold update_where. rewrite List.map_map.
      apply List.map_ext. intros r. by case_match.
  - left. by rewrite (file_rows_untouched _ _ Hu).
Qed.

(** C2, as the code has it: in every state the bot reaches, a record with
    a stored description has a category, the custom one or one of the
    three fixed ones, and the description has at least ten characters; the
    description is written only together with the custom category, and a
    fixed category chosen later replaces the category and keeps the
    description. *)
Theorem custom_text_comes_with_a_category :
  (∀ w, reachable' w →
     ∀ r text, In r (file_rows (db w)) → custom_problem r = Some text →
       10 ≤ len text
       ∧ ∃ seg, problem_segment r = Some seg
                ∧ (seg = CUSTOM ∨ In seg fixed_names))
  ∧ (∀ uid seg custom w,
       let w' := run (update_user_problem uid seg custom) w in
       List.map custom_problem (file_rows (db w'))
       = List.map custom_problem (file_rows (db w))
       ∨ (seg = CUSTOM ∧ truthy custom = true
          ∧ file_rows (db w')
            = update_where uid
                (set_segment_custom CUSTOM (default [] custom))
                (file_rows (db w))))
  ∧ (∀ c w t r,
       In (cb_data c) fixed_keys →
       db w = DbFile (Some t) → has_columns all_columns t = true →
       no_faults w → find_row (cb_from c) (rows t) = Some r →
       ∃ r', find_row (cb_from c)
               (file_rows (db (run (handle_problem_selection c) w))) = Some r'
             ∧ custom_problem r' = custom_problem r
             ∧ In (default [] (problem_segment r')) fixed_names).
Proof.
  split_and!.
  - intros w Hw r text Hin Ht.
    apply reachable_store_ok in Hw.
    destruct (db w) as [| |[t|]]; try done.
    destruct Hw as (_ & _ & _ & Hp). cbn in Hin.
    rewrite Forall_forall in Hp. apply (Hp r); [by apply list_elem_of_In|done].
  - apply update_user_problem_texts.
  - intros c w t r Hk Hd Hc Hf Hr.
    unfold handle_problem_selection, run. cbv zeta.
    set (name := dict_get PROBLEM_NAMES (cb_data c) _).
    assert (update_user_problem (cb_from c) name None w
            = (Val true, set_db (DbFile (Some (problem_update (cb_from c) name None t))) w))
      as Hrun.
    { rewrite update_user_problem_transaction.
      apply (transaction_commits (problem_columns name None)
               (fun _ => problem_update (cb_from c) name None) w t Hd);
        [|done].
      apply has_columns_sub; [done|apply problem_columns_known]. }
    rewrite (bind_val _ _ _ _ _ Hrun).
    match goal with
    | |- context [?rest (set_db ?d w)] =>
        assert (keeps calm rest) as Hrest by keeps_tac;
        specialize (Hrest (set_db d w)) as ([E|[? _]] & _); [|done]
    end.
    unfold run in E. rewrite E. cbn [db set_db file_rows].
    unfold problem_update. cbn [truthy andb rows].
    rewrite find_row_update_where by done. rewrite Hr. cbn.
    eexists. split_and!; [done..|]. by apply problem_name_fixed.
Qed.

End CustomText.

(** C2 does not hold as it is stated: after a description of her own, the
    user presses "anxiety"; her record then has the category
    "Тревога/Стресс" and still the description. *)
Lemma fixed_category_keeps_custom_text :
  let w := run_events operator ascii_only default_limit second_thoughts booted in
  reachable operator ascii_only default_limit w
  ∧ ∃ r, find_row 7 (file_rows (db w)) = Some r
         ∧ problem_segment r = Some (lit "Тревога/Стресс")
         ∧ lit "Тревога/Стресс" ≠ CUSTOM
         ∧ custom_problem r = Some (lit exhausted)
         ∧ lit exhausted ≠ [].
Proof.
  cbv zeta. split.
  - apply reachable_run_events.
    + apply reach_boot. by vm_compute.
    + vm_compute. tauto.
  - vm_compute. eexists. split_and!; [reflexivity|reflexivity|done|reflexivity|done].
Qed.

(** * The intake dialog *)

Lemma only_sent_refl w : only_sent w w.
Proof. by unfold only_sent. Qed.

Lemma only_sent_trans w1 w2 w3 :
  only_sent w1 w2 → only_sent w2 w3 → only_sent w1 w3.
Proof. unfold only_sent. intuition congruence. Qed.

#[export] Instance only_sent_preorder : PreOrder only_sent.
Proof. split; [exact only_sent_refl|exact only_sent_trans]. Qed.

Lemma answer_only_sends chat r : keeps only_sent (answer chat r).
Proof.
  intros w. destruct w as [d f o e fs t j]. unfold answer, run. unfold_m. cbn.
  destruct fs as [|[] fs]; done.
Qed.

Lemma answer_cases chat r w :
  (∃ w', answer chat r w = (Val tt, w'))
  ∨ (∃ w', answer chat r w = (Exc TelegramAPIError, w')).
Proof.
  destruct w as [d f o e fs t j]. unfold answer. unfold_m. cbn.
  destruct fs as [|[] fs]; eauto.
Qed.

Lemma text_strip_Some m t w :
  text m = Some t → text_strip m w = (Val (strip t), w).
Proof. intros H. unfold text_strip. by rewrite H. Qed.

(** The branch each handler takes on input it turns down: the re-prompt and
    nothing else. *)
Lemma custom_problem_rejected m t w :
  text m = Some t → len (strip t) < 10 →
  handle_custom_problem_input m w = answer (chat_id m) MsgCustomTooShort w.
Proof.
  intros Ht Hl. unfold handle_custom_problem_input.
  rewrite (bind_val _ _ _ _ _ (text_strip_Some m t w Ht)).
  by rewrite (proj2 (Z.ltb_lt _ _) Hl).
Qed.

Lemma name_rejected m t w :
  text m = Some t → len (strip t) < 2 →
  handle_name_input m w = answer (chat_id m) MsgNameTooShort w.
Proof.
  intros Ht Hl. unfold handle_name_input.
  rewrite (bind_val _ _ _ _ _ (text_strip_Some m t w Ht)).
  by rewrite (proj2 (Z.ltb_lt _ _) Hl).
Qed.

Lemma phone_rejected ADMIN_ID m t w :
  text m = Some t → len (strip t) < 3 →
  handle_phone_input ADMIN_ID m w = answer (chat_id m) MsgUsernameInvalid w.
Proof.
  intros Ht Hl. unfold handle_phone_input. cbv zeta.
  rewrite (bind_val _ _ _ _ _ (text_strip_Some m t w Ht)).
  by rewrite (proj2 (Z.ltb_lt _ _) Hl).
Qed.

Section Intake.

Variable ADMIN_ID : Z.
Variable unicode_decimal : N → option Z.
Variable int_max_str_digits : N.

#[local] Abbreviation py_int' := (py_int unicode_decimal int_max_str_digits).
#[local] Abbreviation handle_age_input' :=
  (handle_age_input unicode_decimal int_max_str_digits).
#[local] Abbreviation age_rejected' :=
  (age_rejected unicode_decimal int_max_str_digits).

Lemma age_not_a_number m t w :
  text m = Some t → py_int' (strip t) = None →
  handle_age_input' m w
  = (answer (chat_id m) MsgAgeNotANumber ;; mret tt) w.
Proof.
  intros Ht Hp. unfold handle_age_input.
  rewrite (bind_val _ _ _ _ _ (text_strip_Some m t w Ht)).
  unfold int_. rewrite Hp. unfold_m.
  destruct (answer (chat_id m) MsgAgeNotANumber w) as [[[]|e] w']; done.
Qed.

Lemma age_out_of_range m t a w :
  text m = Some t → py_int' (strip t) = Some a → a < 10 ∨ 100 < a →
  handle_age_input' m w
  = (answer (chat_id m) MsgAgeOutOfRange ;; mret tt) w.
Proof.
  intros Ht Hp Hr. unfold handle_age_input.
  rewrite (bind_val _ _ _ _ _ (text_strip_Some m t w Ht)).
  unfold int_. rewrite Hp.
  assert ((a <? 10) || (a >? 100) = true) as Hc.
  { apply orb_true_iff. destruct Hr; [left|right]; lia. }
  unfold_m. rewrite Hc.
  destruct (answer_cases (chat_id m) MsgAgeOutOfRange w) as [[w' ->]|[w' ->]];
    done.
Qed.

Lemma age_in_range m t a w :
  text m = Some t → py_int' (strip t) = Some a → 10 ≤ a ≤ 100 →
  handle_age_input' m w
  = (update_data (key_of m) (fun d => Data (d_name d) (Some a)) ;;
     answer (chat_id m) (MsgAskUsername a) ;;
     set_state (key_of m) (Some Form_phone)) w.
Proof.
  intros Ht Hp Hr. unfold handle_age_input.
  rewrite (bind_val _ _ _ _ _ (text_strip_Some m t w Ht)).
  unfold int_. rewrite Hp.
  assert ((a <? 10) || (a >? 100) = false) as Hc.
  { apply orb_false_iff. lia. }
  unfold_m. by rewrite Hc.
Qed.

Lemma age_rejected_only_sends m t w :
  text m = Some t → age_rejected' t →
  only_sent w (run (handle_age_input' m) w).
Proof.
  intros Ht Hr. unfold age_rejected in Hr. unfold run.
  destruct (py_int' (strip t)) as [a|] eqn:Hp.
  - rewrite (age_out_of_range m t a w Ht Hp Hr).
    apply (keeps_bind only_sent); [apply answer_only_sends|intros; kret].
  - rewrite (age_not_a_number m t w Ht Hp).
    apply (keeps_bind only_sent); [apply answer_only_sends|intros; kret].
Qed.

(** C7: an answer to the age question is taken, that is, held as the age
    of the conversation, exactly when [int] reads the trimmed text as an
    integer from 10 to 100; then it is this integer that is held.  "25" is
    taken; "9", "101" and "abc" are not. *)
Theorem age_taken_iff_in_range :
  (∀ m t w,
     text m = Some t → d_age (data_of w (key_of m)) = None →
     let w' := run (handle_age_input' m) w in
     ((∃ a, d_age (data_of w' (key_of m)) = Some a)
      ↔ ∃ a, py_int' (strip t) = Some a ∧ 10 ≤ a ≤ 100)
     ∧ ∀ a, py_int' (strip t) = Some a → 10 ≤ a ≤ 100 →
            d_age (data_of w' (key_of m)) = Some a)
  ∧ py_int' (strip (lit "25")) = Some 25
  ∧ py_int' (strip (lit "9")) = Some 9
  ∧ py_int' (strip (lit "101")) = Some 101
  ∧ py_int' (strip (lit "abc")) = None.
Proof.
  split_and!; [|reflexivity..].
  intros m t w Ht Hnone. cbn zeta.
  assert (∀ a, py_int' (strip t) = Some a → 10 ≤ a ≤ 100 →
            d_age (data_of (run (handle_age_input' m) w) (key_of m)) = Some a)
    as Hacc.
  { intros a Hp Hr. unfold run. rewrite (age_in_range m t a w Ht Hp Hr).
    destruct w as [d f o e fs tm j].
    unfold update_data, answer, set_state, data_of, state_of, fsm_of.
    unfold_m. cbn.
    destruct fs as [|[] fs]; cbn; by rewrite ?lookup_insert_eq. }
  split; [|done]. split.
  - intros [a Ha].
    destruct (py_int' (strip t)) as [b|] eqn:Hp.
    + destruct (decide (10 ≤ b ≤ 100)) as [Hr|Hr]; [by exists b|].
      exfalso.
      assert (age_rejected' t) as Hrej by (unfold age_rejected; rewrite Hp; lia).
      destruct (age_rejected_only_sends m t w Ht Hrej) as (Hf & _).
      unfold data_of, fsm_of in *. rewrite Hf in Ha. congruence.
    + exfalso.
      assert (age_rejected' t) as Hrej by (unfold age_rejected; by rewrite Hp).
      destruct (age_rejected_only_sends m t w Ht Hrej) as (Hf & _).
      unfold data_of, fsm_of in *. rewrite Hf in Ha. congruence.
  - intros (a & Hp & Hr). exists a. by apply Hacc.
Qed.

End Intake.

(** * The operator's commands *)

Lemma answer_quiet chat r w :
  no_faults w → answer chat r w = (Val tt, push_out (chat, r) w).
Proof.
  intros Hf. unfold answer.
  by rewrite (bind_val _ _ _ _ _ (outside_quiet _ w Hf)).
Qed.

Lemma answer_passes chat r w :
  hd false (faults w) = false →
  outbox (run (answer chat r) w) = outbox w ++ [(chat, r)].
Proof.
  destruct w as [d f o e fs t j]. unfold answer, run. unfold_m. cbn.
  destruct fs as [|[] fs]; done.
Qed.

Lemma insert_desc_not_nil {A} (key : A → Z) x l : insert_desc key x l ≠ [].
Proof. destruct l; cbn; [done|]. by case_match. Qed.

Lemma sort_desc_not_nil {A} (key : A → Z) l : l ≠ [] → sort_desc key l ≠ [].
Proof. destruct l; [done|]. intros _. cbn. apply insert_desc_not_nil. Qed.

Lemma export_users_to_excel_quiet w t :
  db w = DbFile (Some t) → has_columns all_columns t = true → no_faults w →
  rows t ≠ [] →
  export_users_to_excel w
  = (Val (Some (now w), None),
     set_exports (<[now w := sort_desc created_key (rows t)]> (exports w)) w).
Proof.
  intros Hd Hc Hf Hne. unfold export_users_to_excel. apply try_val.
  rewrite (bind_val _ _ _ _ _ (sqlite3_connect_quiet w _ Hd Hf)).
  rewrite (bind_val _ _ _ _ _
             (from_users_known ["created_at"] w t Hd Hc eq_refl Hf)).
  pose proof (sort_desc_not_nil created_key (rows t) Hne) as Hs.
  destruct (sort_desc created_key (rows t)) as [|r rs]; [done|].
  rewrite (bind_val _ _ _ w w) by done.
  erewrite bind_val; cycle 1.
  { unfold to_excel.
    rewrite (bind_val _ _ _ _ _ (outside_quiet _ w Hf)).
    erewrite bind_val; [|reflexivity].
    erewrite bind_val; [reflexivity|].
    by apply outside_quiet. }
  cbn [exports set_exports]. by rewrite insert_insert_eq.
Qed.

Lemma answer_document_quiet chat f st w rs :
  exports w !! f = Some rs → no_faults w →
  answer_document chat f st w
  = (Val tt, push_out (chat, MsgExportDocument f st (now w)) w).
Proof.
  intros He Hf. unfold answer_document.
  rewrite (bind_val _ _ _ w w) by done. rewrite He. by apply answer_quiet.
Qed.

Lemma os_remove_export_quiet f w rs :
  exports w !! f = Some rs → no_faults w →
  os_remove_export f w = (Val tt, set_exports (delete f (exports w)) w).
Proof.
  intros He Hf. unfold os_remove_export.
  rewrite (bind_val _ _ _ _ _ (outside_quiet _ _ Hf)).
  rewrite (bind_val _ _ _ w w) by done. by rewrite He.
Qed.

Section Operator.

Variable ADMIN_ID : Z.

(** C9: from anyone but the operator, [/export] and [/stats] are answered
    with the refusal and do nothing else: no statement is run on the
    database and no file is written.  From the operator, with the table in
    place and no failure, [/stats] sends the statistics, and [/export], when
    there are records, the file. *)
Theorem admin_commands_are_gated :
  (∀ m w, from_id m ≠ ADMIN_ID →
     command_export ADMIN_ID m w = answer (chat_id m) MsgDenied w
     ∧ command_stats ADMIN_ID m w = answer (chat_id m) MsgDenied w
     ∧ only_sent w (run (command_export ADMIN_ID m) w)
     ∧ only_sent w (run (command_stats ADMIN_ID m) w)
     ∧ (hd false (faults w) = false →
        outbox (run (command_export ADMIN_ID m) w)
        = outbox w ++ [(chat_id m, MsgDenied)]
        ∧ outbox (run (command_stats ADMIN_ID m) w)
          = outbox w ++ [(chat_id m, MsgDenied)]))
  ∧ (∀ m w t, from_id m = ADMIN_ID →
       db w = DbFile (Some t) → has_columns all_columns t = true →
       no_faults w →
       outbox (run (command_stats ADMIN_ID m) w)
       = outbox w ++ [(chat_id m, MsgStatsReport (stats_of t) (now w))]
       ∧ (rows t ≠ [] →
          outbox (run (command_export ADMIN_ID m) w)
          = outbox w ++
            [(chat_id m, MsgExportStarted);
             (chat_id m,
              MsgExportDocument (now w) (Some (stats_of t)) (now w))])).
Proof.
  split.
  - intros m w Hne.
    assert (command_export ADMIN_ID m w = answer (chat_id m) MsgDenied w) as E1.
    { unfold command_export. by rewrite bool_decide_eq_true_2. }
    assert (command_stats ADMIN_ID m w = answer (chat_id m) MsgDenied w) as E2.
    { unfold command_stats. by rewrite bool_decide_eq_true_2. }
    unfold run. rewrite E1, E2.
    split_and!; [done|done|apply answer_only_sends..|].
    intros Hh. split; by apply answer_passes.
  - intros m w t Heq Hd Hc Hf. split.
    + unfold command_stats, run.
      rewrite bool_decide_eq_false_2 by (intros H; by apply H).
      rewrite (bind_val _ _ _ _ _ (get_user_stats_quiet w t Hd Hc Hf)).
      unfold datetime_now.
      rewrite (bind_val _ _ _ (now w) w) by done.
      by rewrite answer_quiet.
    + intros Hne. unfold command_export, run.
      rewrite bool_decide_eq_false_2 by (intros H; by apply H).
      rewrite (bind_val _ _ _ _ _ (answer_quiet _ _ w Hf)).
      set (w1 := push_out (chat_id m, MsgExportStarted) w).
      rewrite (bind_val _ _ _ _ _
                 (export_users_to_excel_quiet w1 t Hd Hc Hf Hne)).
      cbn [fst snd].
      set (w2 := set_exports _ w1).
      assert (exports w2 !! now w = Some (sort_desc created_key (rows t)))
        as Hfile by apply lookup_insert_eq.
      erewrite try_val; cycle 1.
      { rewrite (bind_val _ _ _ _ _ (get_user_stats_quiet w2 t Hd Hc Hf)).
        rewrite (bind_val _ _ _ _ _
                   (answer_document_quiet _ _ _ w2 _ Hfile Hf)).
        eapply os_remove_export_quiet; [exact Hfile|exact Hf]. }
      cbn. by rewrite <- app_assoc.
Qed.

(** * The contact handle *)

(** The last answer of the intake, taken: with the table in place and no
    failure, the record of the user gets the name and the age held by the
    conversation and the handle, the trimmed text without a leading [@]. *)
Lemma phone_accepted m t w t0 :
  text m = Some t → 3 ≤ len (strip t) →
  db w = DbFile (Some t0) → has_columns all_columns t0 = true → no_faults w →
  db (run (handle_phone_input ADMIN_ID m) w)
  = DbFile (Some (contact_update (from_id m)
                    (default (lit "Не указано") (d_name (data_of w (key_of m))))
                    (default 0 (d_age (data_of w (key_of m))))
                    (normalized t) t0)).
Proof.
  intros Ht Hl Hd Hc Hf. unfold handle_phone_input, run. cbv zeta.
  rewrite (bind_val _ _ _ _ _ (text_strip_Some m t w Ht)).
  rewrite (proj2 (Z.ltb_ge _ _) Hl).
  rewrite (bind_val (get_data _) _ w (data_of w (key_of m)) w) by done.
  erewrite bind_val; cycle 1.
  { apply try_val.
    rewrite (bind_val _ _ _ _ _ (sqlite3_connect_quiet w _ Hd Hf)).
    rewrite (bind_val _ _ _ _ _
               (from_users_known ["problem_segment"; "custom_problem"; "user_id"]
                  w t0 Hd Hc eq_refl Hf)).
    reflexivity. }
  erewrite bind_val; cycle 1.
  { rewrite update_user_contact_info_transaction.
    apply (transaction_commits _ _ w t0 Hd); [|done].
    by apply (has_columns_sub ["real_name"; "age"; "phone"; "user_id"]). }
  match goal with
  | |- context [?rest (set_db ?d w)] =>
      assert (keeps calm rest) as Hrest by keeps_tac;
      specialize (Hrest (set_db d w)) as ([E|[? _]] & _); [|done]
  end.
  unfold run in E. rewrite E. reflexivity.
Qed.

(** C1, as the code has it: the length is checked on the trimmed text, the
    [@] still in place.  Text shorter than 3 is turned down; any other is
    taken and stored without the [@], so that the handle on record has two
    characters at least.  "@ab" is taken and stored as "ab"; "ab" is turned
    down; "@abc" and "abc" are taken. *)
Theorem contact_length_checked_before_strip :
  (∀ m t w, text m = Some t → len (strip t) < 3 →
     only_sent w (run (handle_phone_input ADMIN_ID m) w))
  ∧ (∀ m t w t0,
       text m = Some t → 3 ≤ len (strip t) →
       db w = DbFile (Some t0) → has_columns all_columns t0 = true →
       no_faults w →
       db (run (handle_phone_input ADMIN_ID m) w)
       = DbFile (Some (contact_update (from_id m)
                         (default (lit "Не указано")
                            (d_name (data_of w (key_of m))))
                         (default 0 (d_age (data_of w (key_of m))))
                         (normalized t) t0)))
  ∧ (let w' := run (handle_phone_input ADMIN_ID (says 7 "@ab")) at_contact_entry in
     find_row 7 (file_rows (db w'))
     = Some (set_contact (lit "Anna") 29 (lit "ab") anna_row)
     ∧ len (lit "ab") = 2)
  ∧ len (strip (lit "ab")) < 3
  ∧ (3 ≤ len (strip (lit "@abc")) ∧ normalized (lit "@abc") = lit "abc")
  ∧ (3 ≤ len (strip (lit "abc")) ∧ normalized (lit "abc") = lit "abc")
  ∧ (∀ t, 3 ≤ len (strip t) → 2 ≤ len (normalized t)).
Proof.
  split_and!; try (by vm_compute).
  - intros m t w Ht Hl. unfold run.
    rewrite (phone_rejected ADMIN_ID m t w Ht Hl). apply answer_only_sends.
  - apply phone_accepted.
  - cbv zeta.
    rewrite (phone_accepted (says 7 "@ab") (lit "@ab") at_contact_entry
               (Table all_columns [anna_row]) eq_refl ltac:(by vm_compute)
               eq_refl eq_refl eq_refl).
    by vm_compute.
  - intros t. unfold normalized, len.
    destruct (strip t) as [|c s]; cbn [startswith_at length List.tl].
    + lia.
    + case_match; cbn [length]; lia.
Qed.

End Operator.

(** * Examples *)

Lemma second_thoughts_reachable :
  reachable operator ascii_only default_limit
    (run_events operator ascii_only default_limit second_thoughts booted).
Proof.
  apply reachable_run_events.
  - apply reach_boot. by vm_compute.
  - vm_compute. tauto.
Qed.

Lemma one_user_schema_ok : schema_ok (db one_user).
Proof. eexists. split; reflexivity. Qed.

(** C1 does not hold as it is stated: "@ab" is taken at the last question
    of the intake, the handle on record is "ab", of two characters, and the
    conversation is over. *)
Lemma at_ab_is_taken :
  let w' := run (handle_phone_input operator (says 7 "@ab")) at_contact_entry in
  len (normalized (lit "@ab")) < 3
  ∧ find_row 7 (file_rows (db w'))
    = Some (set_contact (lit "Anna") 29 (lit "ab") anna_row)
  ∧ state_of at_contact_entry (7, 7) = Some Form_phone
  ∧ state_of w' (7, 7) = None.
Proof. by vm_compute. Qed.

(** C1: "@abc" is taken and stored as "abc". *)
Lemma contact_length_checked_before_strip_witness :
  db (run (handle_phone_input operator (says 7 "@abc")) at_contact_entry)
  = DbFile (Some (Table all_columns
                    [set_contact (lit "Anna") 29 (lit "abc") anna_row])).
Proof.
  rewrite (proj1 (proj2 (contact_length_checked_before_strip operator))
             (says 7 "@abc") (lit "@abc") at_contact_entry
             (Table all_columns [anna_row]) eq_refl ltac:(by vm_compute)
             eq_refl eq_refl eq_refl).
  by vm_compute.
Defined.

(** C2: the record of the user who had second thoughts. *)
Lemma custom_text_comes_with_a_category_witness :
  ∃ r text,
    find_row 7
      (file_rows
         (db (run_events operator ascii_only default_limit
                second_thoughts booted))) = Some r
    ∧ custom_problem r = Some text
    ∧ 10 ≤ len text
    ∧ ∃ seg, problem_segment r = Some seg
             ∧ (seg = CUSTOM ∨ In seg fixed_names).
Proof.
  eexists _, _. split; [by vm_compute|]. split; [reflexivity|].
  apply (proj1 (custom_text_comes_with_a_category operator ascii_only
                  default_limit) _ second_thoughts_reachable
           (Row 7 (Some (lit "anna_t")) (lit "Anna T")
              (Some (lit "Тревога/Стресс")) (Some (lit exhausted))
              None None None (Some 1700000000%N))).
  - vm_compute. by left.
  - reflexivity.
Defined.

(** C3: [/start] of a second user keeps the first on record. *)
Lemma records_lost_only_by_resets_witness :
  In 7 (ids (db (run (command_start (says 8 "/start")) one_user))).
Proof.
  apply (proj1 (proj2 (records_lost_only_by_resets operator ascii_only
                         default_limit))
           (says 8 "/start") one_user (Table all_columns [anna_row])
           eq_refl eq_refl I).
  vm_compute. by left.
Defined.

(** C3 does not hold as it is stated: the start of the process empties a
    store that has all its columns. *)
Lemma startup_empties_intact_store :
  schema_ok (db one_user)
  ∧ In 7 (ids (db one_user))
  ∧ ids (db (run (on_startup operator) one_user)) = [].
Proof.
  split_and!; [apply one_user_schema_ok|vm_compute; by left|by vm_compute].
Qed.

(** C4: two records were created, one of them is complete. *)
Lemma stats_count_the_records_witness :
  ∃ st, result get_user_stats (snd (calls some_calls just_created)) = Val (Some st)
        ∧ total_users st = 2%nat
        ∧ users_with_requests st = 1%nat.
Proof.
  destruct (proj1 (stats_count_the_records operator ascii_only default_limit)
              some_calls just_created eq_refl)
    as [Hcount Hread].
  destruct (Hread ltac:(by vm_compute)) as [st Hst].
  exists st. split; [exact Hst|].
  destruct (Hcount st Hst) as (H1 & _ & H2).
  split; [rewrite H1|rewrite H2]; by vm_compute.
Defined.

(** C7: "25" is taken. *)
Lemma age_taken_iff_in_range_witness :
  d_age (data_of (run (handle_age_input ascii_only default_limit
                         (says 7 "25")) at_age_entry) (7, 7))
  = Some 25.
Proof.
  apply (proj2 (proj1 (age_taken_iff_in_range ascii_only default_limit)
                  (says 7 "25") (lit "25") at_age_entry eq_refl eq_refl));
    [reflexivity|lia].
Defined.

(** C6: the commit fails, and the record is as it was. *)
Lemma update_user_contact_info_all_or_nothing_witness :
  let w := set_faults [false; false; true] one_user in
  result (update_user_contact_info 7 (lit "Anna") 29 (lit "anna_t")) w
  = Val false
  ∧ file_rows (db (run (update_user_contact_info 7 (lit "Anna") 29
                          (lit "anna_t")) w))
    = [anna_row].
Proof.
  cbv zeta.
  destruct (update_user_contact_info_all_or_nothing 7 (lit "Anna") 29
              (lit "anna_t") (set_faults [false; false; true] one_user))
    as [(Hr & _)|(Hr & Hrows)].
  - vm_compute in Hr. discriminate Hr.
  - split; [exact Hr|exact Hrows].
Defined.

(** C8: a new user is put on record twice. *)
Lemma add_user_twice_witness :
  length (records_of 9
            (db (run (add_user 9 (lit "dan") (lit "Dan"))
                   (run (add_user 9 (lit "dan_k") (lit "Dan K")) one_user))))
  = 1%nat.
Proof.
  destruct (add_user_twice 9 (lit "dan_k") (lit "Dan K") (lit "dan") (lit "Dan")
              one_user one_user_schema_ok eq_refl
              ltac:(vm_compute; apply NoDup_singleton))
    as [(_ & _ & Hsecond) _].
  exact (proj1 (proj2 (Hsecond 1700000500%N []))).
Defined.

(** C9: a user who is not the operator asks for the statistics. *)
Lemma admin_commands_are_gated_witness :
  outbox (run (command_stats operator (says 7 "/stats")) one_user)
  = [(7, MsgDenied)]
  ∧ db (run (command_export operator (says 7 "/export")) one_user)
    = db one_user.
Proof.
  destruct (proj1 (admin_commands_are_gated operator) (says 7 "/stats")
              one_user ltac:(by vm_compute))
    as (_ & _ & _ & _ & Hout).
  destruct (proj1 (admin_commands_are_gated operator) (says 7 "/export")
              one_user ltac:(by vm_compute))
    as (_ & _ & (_ & Hdb & _) & _).
  split; [exact (proj2 (Hout eq_refl))|exact Hdb].
Defined.

(** C10: updates for a user who is not on record. *)
Lemma updates_of_absent_user_witness :
  update_user_problem 8 (lit "Отношения") None one_user = (Val true, one_user)
  ∧ update_user_contact_info 8 (lit "Bob") 40 (lit "bob") one_user
    = (Val true, one_user).
Proof.
  exact (proj2 (proj2 (updates_of_absent_user 8 (lit "Отношения") None
                         (lit "Bob") 40 (lit "bob") one_user eq_refl))
           one_user_schema_ok eq_refl).
Defined.

(** * The upgrade of the schema *)

Lemma user_id_null_column c r : user_id (null_column c r) = user_id r.
Proof. unfold null_column. repeat case_bool_decide; reflexivity. Qed.

Lemma columns_add_columns cs t : columns (add_columns cs t) = columns t ++ cs.
Proof.
  revert t. induction cs as [|c cs IH]; intros t; cbn.
  - by rewrite app_nil_r.
  - rewrite IH. cbn. by rewrite <- app_assoc.
Qed.

Lemma ids_add_columns cs t :
  List.map user_id (rows (add_columns cs t)) = List.map user_id (rows t).
Proof.
  revert t. induction cs as [|c cs IH]; intros t; cbn; [done|].
  rewrite IH. cbn. rewrite List.map_map.
  apply List.map_ext. intros r. apply user_id_null_column.
Qed.

Lemma old_columns_null_column c r :
  c ∈ required_columns → old_columns (null_column c r) = old_columns r.
Proof.
  unfold required_columns. rewrite !elem_of_cons, elem_of_nil.
  intros [->|[->|[->|[]]]]; reflexivity.
Qed.

Lemma old_columns_add_columns cs t :
  (∀ c, c ∈ cs → c ∈ required_columns) →
  List.map old_columns (rows (add_columns cs t)) = List.map old_columns (rows t).
Proof.
  revert t. induction cs as [|c cs IH]; intros t Hcs; cbn; [done|].
  rewrite IH by (intros; apply Hcs; by right).
  cbn. rewrite List.map_map. apply List.map_ext. intros r.
  apply old_columns_null_column, Hcs. by left.
Qed.

Lemma alter_table_add_column_cases c w t :
  db w = DbFile (Some t) → c ∉ columns t →
  (hd false (faults w) = false
   ∧ alter_table_add_column c w
     = (Val tt, set_db (DbFile (Some (add_column c t))) (popped w)))
  ∨ (hd false (faults w) = true
     ∧ alter_table_add_column c w = (Exc OperationalError, popped w)).
Proof.
  destruct w as [d f o e fs tm j]. cbn. intros -> Hc.
  unfold alter_table_add_column, opened, popped. unfold_m.
  destruct fs as [|[] fs]; cbn; auto;
    rewrite (bool_decide_eq_false_2 _ Hc); auto.
Qed.

Lemma aside_popped w : aside w (popped w).
Proof.
  unfold aside, popped. cbn. split_and!; try done.
  by intros ->.
Qed.

Lemma add_missing_cases cols cs : ∀ w t,
  db w = DbFile (Some t) → NoDup cs →
  (∀ c, c ∈ cs → c ∈ columns t → c ∈ cols) →
  let todo := List.filter (fun c => negb (bool_decide (c ∈ cols))) cs in
  ∃ added,
    added `prefix_of` todo
    ∧ db (run (add_missing cols cs) w) = DbFile (Some (add_columns added t))
    ∧ aside w (run (add_missing cols cs) w)
    ∧ (∀ u, result (add_missing cols cs) w = Val u → added = todo)
    ∧ (no_faults w → result (add_missing cols cs) w = Val tt).
Proof.
  induction cs as [|c cs IH]; intros w t Hdb Hnd Hin; cbn zeta.
  - exists []. cbn. split_and!; done.
  - apply NoDup_cons in Hnd as [Hc Hnd]. cbn [add_missing List.filter].
    destruct (bool_decide (c ∈ cols)) eqn:Hcols; cbn [negb].
    + destruct (IH w t Hdb Hnd) as (added & H); [|exists added; exact H].
      intros c' Hc'. apply Hin. by right.
    + apply bool_decide_eq_false_1 in Hcols.
      assert (c ∉ columns t) as Hct.
      { intros Hct. apply Hcols, Hin; [by left|done]. }
      destruct (alter_table_add_column_cases c w t Hdb Hct)
        as [[Hhd Heq]|[Hhd Heq]].
      * destruct (IH (set_db (DbFile (Some (add_column c t))) (popped w))
                    (add_column c t) eq_refl Hnd) as (added & Hp & Hd & Ha & Hr & Hq).
        { intros c' Hc' Hcc. cbn in Hcc. apply elem_of_app in Hcc as [Hcc|Hcc].
          - apply Hin; [by right|done].
          - apply list_elem_of_singleton in Hcc as ->. done. }
        exists (c :: added). unfold run, result in *.
        rewrite (bind_val _ _ _ _ _ Heq).
        split_and!.
        -- by apply prefix_cons.
        -- exact Hd.
        -- eapply aside_trans; [|exact Ha].
           eapply aside_trans; [apply aside_popped|].
           unfold aside; cbn; split_and!; done.
        -- intros u Hu. f_equal. by eapply Hr.
        -- intros Hw. apply Hq. unfold no_faults in *. cbn. by rewrite Hw.
      * exists []. unfold run, result in *.
        rewrite (bind_exc _ _ _ _ _ Heq). cbn.
        split_and!.
        -- apply prefix_nil.
        -- done.
        -- apply aside_popped.
        -- done.
        -- intros Hw. unfold no_faults in Hw. rewrite Hw in Hhd. done.
Qed.

Lemma three_steps {A} (s1 s2 s3 : M unit) (rest : M A) w :
  (s1 ;; s2 ;; s3 ;; rest) w = ((s1 ;; s2 ;; s3 ;; mret tt) ;; rest) w.
Proof.
  unfold_m.
  destruct (s1 w) as [[[]|] w1]; [|done].
  destruct (s2 w1) as [[[]|] w2]; [|done].
  destruct (s3 w2) as [[[]|] w3]; done.
Qed.

Lemma add_missing_steps {A} (rest : M A) w :
  (sqlite3_connect ;;
   cols ← pragma_table_info;
   (if bool_decide ("custom_problem" ∈ cols) then mret tt
    else alter_table_add_column "custom_problem") ;;
   (if bool_decide ("age" ∈ cols) then mret tt
    else alter_table_add_column "age") ;;
   (if bool_decide ("real_name" ∈ cols) then mret tt
    else alter_table_add_column "real_name") ;;
   rest) w
  = (sqlite3_connect ;;
     cols ← pragma_table_info;
     add_missing cols ["custom_problem"; "age"; "real_name"] ;;
     rest) w.
Proof.
  unfold mbind at 1 6. unfold M_bind.
  destruct (sqlite3_connect w) as [[[]|] w1]; [|done].
  unfold mbind at 1 5. unfold M_bind.
  destruct (pragma_table_info w1) as [[cols|] w2]; [|done].
  apply three_steps.
Qed.

Lemma update_database_schema_loop w :
  update_database_schema w
  = try_ (sqlite3_connect ;;
          cols ← pragma_table_info;
          add_missing cols ["custom_problem"; "age"; "real_name"] ;;
          conn_commit None ;;
          mret true)
         (fun _ => mret false) w.
Proof.
  unfold update_database_schema, try_. by rewrite add_missing_steps.
Qed.

Lemma missing_columns_nil t :
  has_columns required_columns t = true → missing_columns t = [].
Proof. apply missing_none. Qed.

Lemma prefix_of_missing added t c :
  added `prefix_of` missing_columns t → c ∈ added → c ∈ required_columns.
Proof.
  intros [k Hk] Hc.
  assert (c ∈ missing_columns t) as Hm.
  { rewrite Hk. apply elem_of_app. by left. }
  unfold missing_columns in Hm. apply list_elem_of_In, List.filter_In in Hm.
  apply list_elem_of_In, Hm.
Qed.

Lemma outside_fails e w :
  hd false (faults w) = true → outside e w = (Exc e, popped w).
Proof.
  destruct w as [d f o ex fs tm j]. unfold outside, popped. cbn.
  by destruct fs as [|[] fs].
Qed.

Lemma sqlite3_connect_fails w :
  hd false (faults w) = true →
  sqlite3_connect w = (Exc OperationalError, popped w).
Proof.
  intros H. unfold sqlite3_connect. by rewrite (bind_exc _ _ _ _ _ (outside_fails _ _ H)).
Qed.

Lemma opened_fails w :
  hd false (faults w) = true → opened w = (Exc OperationalError, popped w).
Proof.
  intros H. unfold opened. by rewrite (bind_exc _ _ _ _ _ (outside_fails _ _ H)).
Qed.

Lemma pragma_table_info_fails w :
  hd false (faults w) = true →
  pragma_table_info w = (Exc OperationalError, popped w).
Proof.
  intros H. unfold pragma_table_info.
  by rewrite (bind_exc _ _ _ _ _ (opened_fails _ H)).
Qed.

Lemma no_faults_popped w : no_faults w → popped w = w.
Proof.
  destruct w as [d f o ex fs tm j]. unfold no_faults, popped. cbn.
  by intros ->.
Qed.

Lemma no_faults_hd w : no_faults w → hd false (faults w) = false.
Proof. unfold no_faults. by intros ->. Qed.

Lemma update_database_schema_cases w t :
  db w = DbFile (Some t) →
  let w' := run update_database_schema w in
  let r := result update_database_schema w in
  ∃ added,
    added `prefix_of` missing_columns t
    ∧ db w' = DbFile (Some (add_columns added t))
    ∧ (r = Val true ∧ added = missing_columns t ∨ r = Val false)
    ∧ (no_faults w → r = Val true)
    ∧ aside w w'.
Proof.
  intros Hdb w' r.
  subst w' r. unfold run, result. rewrite update_database_schema_loop.
  unfold try_.
  destruct (hd false (faults w)) eqn:H1.
  { rewrite (bind_exc _ _ _ _ _ (sqlite3_connect_fails _ H1)). cbn.
    exists []. split_and!; [apply prefix_nil|done|by right| |apply aside_popped].
    intros Hw. by rewrite (no_faults_hd _ Hw) in H1. }
  rewrite (bind_val _ _ _ _ _ (sqlite3_connect_passes _ _ Hdb H1)).
  assert (db (popped w) = DbFile (Some t)) as Hdb1 by done.
  destruct (hd false (faults (popped w))) eqn:H2.
  { rewrite (bind_exc _ _ _ _ _ (pragma_table_info_fails _ H2)). cbn.
    exists []. split_and!; [apply prefix_nil|done|by right| |].
    - intros Hw. rewrite (no_faults_popped _ Hw) in H2.
      by rewrite (no_faults_hd _ Hw) in H2.
    - eapply aside_trans; apply aside_popped. }
  rewrite (bind_val _ _ _ _ _ (pragma_table_info_passes _ _ Hdb1 H2)).
  destruct (add_missing_cases (columns t)
              ["custom_problem"; "age"; "real_name"]
              (popped (popped w)) t)
    as (added & Hp & Hd & Ha & Hr & Hq).
  { done. }
  { repeat (apply NoDup_cons_2;
            [rewrite ?elem_of_cons, elem_of_nil; intuition discriminate|]).
    apply NoDup_nil_2. }
  { done. }
  exists added. fold (missing_columns t) in Hp, Hr.
  unfold conn_commit. unfold_m.
  destruct (add_missing (columns t) _ (popped (popped w))) as [[[]|e] w3];
    cbn [fst snd] in *.
  - split_and!; [done|done|left; split; [done|by eapply Hr]| |].
    + done.
    + eapply aside_trans; [|exact Ha].
      eapply aside_trans; apply aside_popped.
  - split_and!; [done|done|by right| |].
    + intros Hw. rewrite !(no_faults_popped _ Hw) in Hq.
      by specialize (Hq Hw).
    + eapply aside_trans; [|exact Ha].
      eapply aside_trans; apply aside_popped.
Qed.

(** X1: [update_database_schema] only adds columns.  On a database with
    the table [users], whatever fails, it leaves the table with some of
    the missing columns among [custom_problem], [age], [real_name] added,
    in that order, as many as were executed before a failure; it returns
    [True] only when all of them are there, and does so when nothing
    fails.  No record is lost or created, and the columns that were there
    keep their values. *)
Theorem update_database_schema_only_adds w t :
  db w = DbFile (Some t) →
  let w' := run update_database_schema w in
  let r := result update_database_schema w in
  ∃ added,
    added `prefix_of` missing_columns t
    ∧ db w' = DbFile (Some (add_columns added t))
    ∧ (r = Val true ∧ added = missing_columns t ∨ r = Val false)
    ∧ (no_faults w → r = Val true)
    ∧ ids (db w') = ids (db w)
    ∧ List.map old_columns (file_rows (db w'))
      = List.map old_columns (file_rows (db w))
    ∧ (has_columns required_columns t = true → db w' = db w)
    ∧ aside w w'.
Proof.
  intros Hdb w' r. subst w' r.
  destruct (update_database_schema_cases w t Hdb)
    as (added & Hp & Hd & Hr & Hq & Ha).
  exists added. split_and!; try done.
  - unfold ids. rewrite Hd, Hdb. cbn. apply ids_add_columns.
  - rewrite Hd, Hdb. cbn. apply old_columns_add_columns.
    intros c. by apply (prefix_of_missing added t).
  - intros Hc. rewrite (missing_columns_nil _ Hc) in Hp.
    apply prefix_nil_inv in Hp. subst added. by rewrite Hd, Hdb.
Qed.

Lemma has_required_after t :
  has_columns required_columns (add_columns (missing_columns t) t) = true.
Proof.
  unfold has_columns. rewrite columns_add_columns.
  unfold missing_columns, required_columns. cbn [forallb List.filter].
  repeat case_bool_decide; cbn [negb andb] in *; try done; exfalso;
    repeat match goal with
           | H : ¬ (_ ∈ _ ++ _) |- _ => rewrite elem_of_app in H
           end;
    rewrite ?elem_of_cons in *; tauto.
Qed.

(** X2: after an upgrade that returned [True] the table has the columns
    that [/start] asks for, so a [/start] whose check is not made to fail
    deletes nothing: every identifier on record before the upgrade is on
    record after the [/start].  A second upgrade, with nothing failing,
    changes nothing. *)
Theorem start_after_upgrade_keeps_records m w t :
  db w = DbFile (Some t) →
  result update_database_schema w = Val true →
  let w1 := run update_database_schema w in
  (∃ t1, db w1 = DbFile (Some t1) ∧ has_columns required_columns t1 = true)
  ∧ (check_undisturbed w1 → no_loss w (run (command_start m) w1))
  ∧ (no_faults w → run update_database_schema w1 = w1).
Proof.
  intros Hdb Hr w1.
  destruct (update_database_schema_cases w t Hdb)
    as (added & Hp & Hd & [[_ ->]|Hr'] & Hq & Ha); [|congruence].
  fold w1 in Hd, Ha.
  pose proof (has_required_after t) as Hcols.
  split_and!.
  - eauto.
  - intros Hu uid Hin.
    assert (In uid (ids (db w1))) as Hin1.
    { unfold ids in *. rewrite Hd. cbn. rewrite ids_add_columns.
      by rewrite Hdb in Hin. }
    unfold run, command_start.
    rewrite (bind_val _ _ _ _ _ (ensure_schema_intact _ _ Hd Hcols Hu)).
    apply (no_loss_register_and_greet m (popped (popped w1))). exact Hin1.
  - intros Hw.
    destruct (update_database_schema_cases w1 _ Hd)
      as (added' & Hp' & Hd' & _ & _ & Ha').
    rewrite (missing_columns_nil _ Hcols) in Hp'.
    apply prefix_nil_inv in Hp'. subst added'. cbn in Hd'.
    destruct Ha as (_ & _ & _ & _ & _ & Hf). specialize (Hf Hw).
    destruct Ha' as (? & ? & ? & ? & ? & Hf'). specialize (Hf' Hf).
    destruct (run update_database_schema w1), w1. cbn in *. congruence.
Qed.

(** X3: without the table [users] the upgrade adds nothing and creates
    nothing: it returns [False], and the file is as it was, or is the
    empty database that [connect] makes where there was no file. *)
Theorem update_database_schema_needs_the_table w :
  (∀ t, db w ≠ DbFile (Some t)) →
  result update_database_schema w = Val false
  ∧ untouched w (run update_database_schema w)
  ∧ aside w (run update_database_schema w).
Proof.
  intros Hdb. destruct w as [d f o e fs tm j]. cbn in Hdb.
  unfold update_database_schema, alter_table_add_column, pragma_table_info,
    sqlite3_connect, opened, conn_commit, untouched, aside.
  unfold_m.
  destruct d as [| |[t|]]; [| |by destruct (Hdb t)|].
  all: destruct fs as [|[] [|[] [|[] fs]]]; cbn; intuition congruence.
Qed.

(** * More on the record store *)

(** X4: [init_database] returns [True] only with the store an empty table
    of all nine columns, whatever was there before, and does so when
    nothing fails.  When it returns [False] the file is as it was, or it
    is gone, or it is a database without the table: a failure after the
    removal of the old file (here a failing [connect]) loses the records
    all the same. *)
Theorem init_database_outcomes :
  (∀ w,
     let w' := run init_database w in
     (result init_database w = Val true ∧ db w' = fresh_table
      ∨ result init_database w = Val false
        ∧ (db w' = db w ∨ db w' = NoFile ∨ db w' = DbFile None))
     ∧ aside w w'
     ∧ (no_faults w → result init_database w = Val true))
  ∧ (∀ w fs,
       db w ≠ NoFile → faults w = false :: true :: fs →
       result init_database w = Val false
       ∧ db (run init_database w) = NoFile).
Proof.
  split.
  - intros [d f o e fs tm j].
    unfold init_database, os_path_exists_db, os_remove_db, sqlite3_connect,
      create_table_users, opened, conn_commit, aside, fresh_table, no_faults.
    unfold_m. cbn.
    destruct d as [| |[t|]]; cbn.
    all: destruct fs as [|[] [|[] [|[] fs]]]; cbn; intuition congruence.
  - intros [d f o e fs0 tm j] fs Hdb Hfs. cbn in Hdb, Hfs. subst fs0.
    unfold init_database, os_path_exists_db, os_remove_db, sqlite3_connect,
      create_table_users, opened, conn_commit.
    unfold_m. cbn.
    destruct d as [| |[t|]]; cbn; done.
Qed.

Lemma find_row_In uid rs :
  find_row uid rs ≠ None ↔ In uid (List.map user_id rs).
Proof.
  pose proof (find_row_None_iff uid rs) as H.
  destruct (In_dec Z.eq_dec uid (List.map user_id rs)) as [Hi|Hn].
  - split; [done|]. intros _ Hf. by apply H in Hf.
  - split; [|done]. intros Hf. by apply H in Hn.
Qed.

(** X5: [user_exists] never raises and changes no record.  It answers
    [True] only for an identifier on record; with the table in place and
    nothing failing it answers [True] exactly for the identifiers on
    record; and when the connection fails it answers [False] whoever is
    on record. *)
Theorem user_exists_is_sound uid w :
  let r := result (user_exists uid) w in
  (r = Val true ∨ r = Val false)
  ∧ (r = Val true → In uid (ids (db w)))
  ∧ calm w (run (user_exists uid) w)
  ∧ (schema_ok (db w) → no_faults w → (r = Val true ↔ In uid (ids (db w))))
  ∧ (hd false (faults w) = true → r = Val false).
Proof.
  cbn zeta. split_and!.
  - destruct w as [d f o e fs tm j].
    unfold user_exists, sqlite3_connect, from_users, opened. unfold_m.
    world_cases; try (by right).
    all: destruct (find_row uid (rows _)); auto.
  - destruct w as [d f o e fs tm j].
    unfold user_exists, sqlite3_connect, from_users, opened, ids. unfold_m.
    world_cases; try done.
    all: destruct (find_row uid (rows _)) eqn:Hf; try done.
    all: intros _; apply find_row_In; by rewrite Hf.
  - apply keeps_user_exists.
  - intros (t & Hdb & Hcols) Hw.
    unfold result. rewrite (user_exists_quiet uid w t Hdb Hcols Hw). cbn.
    unfold ids. rewrite Hdb. cbn. rewrite <- find_row_In.
    destruct (find_row uid (rows t)); split; intros; done.
  - intros Hhd. unfold result, user_exists.
    by rewrite (try_exc _ _ _ _ _
      (bind_exc _ _ _ _ _ (sqlite3_connect_fails _ Hhd))).
Qed.

Lemma insert_by_id_new r rs :
  find_row (user_id r) rs = None →
  find_row (user_id r) (insert_by_id r rs) = Some r.
Proof.
  unfold find_row. induction rs as [|r' rs IH]; cbn.
  - by rewrite Z.eqb_refl.
  - destruct (user_id r' =? user_id r) eqn:E; [done|]. intros Hn.
    destruct (user_id r <? user_id r'); cbn.
    + by rewrite Z.eqb_refl.
    + rewrite E. by apply IH.
Qed.

Lemma insert_by_id_ordered r rs :
  find_row (user_id r) rs = None → by_user_id rs →
  by_user_id (insert_by_id r rs).
Proof.
  unfold find_row. induction rs as [|r' rs IH]; cbn.
  - intros _ _. split; [constructor|done].
  - destruct (user_id r' =? user_id r) eqn:E; [done|]. intros Hn [Hr' Hrs].
    apply Z.eqb_neq in E.
    destruct (user_id r <? user_id r') eqn:Hlt; cbn.
    + apply Z.ltb_lt in Hlt. split_and!; [|done..].
      constructor; [done|].
      eapply Forall_impl; [exact Hr'|]. cbn. intros; lia.
    + apply Z.ltb_ge in Hlt. split; [|by apply IH].
      eapply Permutation_Forall; [symmetry; apply insert_by_id_perm|].
      apply Forall_app. split; [done|]. apply Forall_singleton. lia.
Qed.

(** X6: a successful [add_user] puts the user on record: the identifier
    is there afterwards and [user_exists], with nothing failing, answers
    [True].  For an identifier not on record before, the table holds the
    rows it held and one more, which has the identity given, the time of
    creation and no other field; the new row takes the place of its
    identifier, so that a table in the order of [user_id] stays so. *)
Theorem add_user_then_user_exists uid un fn w :
  result (add_user uid un fn) w = Val true →
  let w1 := run (add_user uid un fn) w in
  In uid (ids (db w1))
  ∧ (no_faults w1 → result (user_exists uid) w1 = Val true)
  ∧ (find_row uid (file_rows (db w)) = None →
     ∃ t, db w = DbFile (Some t)
          ∧ let new := Row uid (Some un) fn None None None None None
                         (if bool_decide ("created_at" ∈ columns t)
                          then Some (now w) else None) in
            find_row uid (file_rows (db w1)) = Some new
            ∧ file_rows (db w1) ≡ₚ new :: rows t
            ∧ (by_user_id (rows t) → by_user_id (file_rows (db w1)))).
Proof.
  intros Hr w1. subst w1. revert Hr. unfold run, result.
  rewrite add_user_transaction.
  destruct (transaction_cases ["user_id"; "username"; "full_name"]
              (insert_or_ignore uid un fn) w)
    as [_ [(_ & t & Hdb & Hcols & Hdb1)|[Hr _]]];
    unfold run, result in *; [intros _|congruence].
  pose proof (insert_or_ignore_found uid un fn (now w) t) as Hfound.
  split_and!.
  - unfold ids. rewrite Hdb1. cbn. by apply find_row_In.
  - intros Hw. unfold user_exists.
    assert (has_columns ["user_id"] (insert_or_ignore uid un fn (now w) t) = true)
      as Hc.
    { unfold has_columns in *. rewrite insert_or_ignore_columns.
      cbn in *. apply andb_true_iff in Hcols as [-> _]. done. }
    erewrite try_val; [reflexivity|].
    rewrite (bind_val _ _ _ _ _ (sqlite3_connect_quiet _ _ Hdb1 Hw)).
    rewrite (bind_val _ _ _ _ _ (from_users_quiet _ _ _ Hdb1 Hc Hw)).
    by destruct (find_row uid (rows (insert_or_ignore uid un fn (now w) t))).
  - intros Hnone. exists t. split; [done|]. cbn zeta. rewrite Hdb1.
    cbn [file_rows].
    rewrite Hdb in Hnone. change (find_row uid (rows t) = None) in Hnone.
    unfold insert_or_ignore. rewrite Hnone. cbn [rows].
    set (new := Row uid (Some un) fn None None None None None _).
    split_and!.
    + by apply (insert_by_id_new new).
    + rewrite insert_by_id_perm. by rewrite Permutation_app_comm.
    + by apply (insert_by_id_ordered new).
Qed.

Lemma update_where_comm uid1 f uid2 g rs :
  (∀ r, user_id (f r) = user_id r) → (∀ r, user_id (g r) = user_id r) →
  (∀ r, f (g r) = g (f r)) →
  update_where uid1 f (update_where uid2 g rs)
  = update_where uid2 g (update_where uid1 f rs).
Proof.
  intros Hf Hg Hfg. unfold update_where. rewrite !List.map_map.
  apply List.map_ext. intros r.
  destruct (user_id r =? uid1) eqn:H1, (user_id r =? uid2) eqn:H2;
    rewrite ?Hf, ?Hg, ?H1, ?H2; auto.
Qed.

Lemma update_where_twice uid f g rs :
  (∀ r, user_id (f r) = user_id r) →
  update_where uid g (update_where uid f rs)
  = update_where uid (fun r => g (f r)) rs.
Proof.
  intros Hf. unfold update_where. rewrite List.map_map.
  apply List.map_ext. intros r.
  destruct (user_id r =? uid) eqn:H1; rewrite ?Hf, ?H1; auto.
Qed.

Lemma update_where_fields {A} (p : user_row → A) uid f rs :
  (∀ r, p (f r) = p r) →
  List.map p (update_where uid f rs) = List.map p rs.
Proof.
  intros Hp. unfold update_where. rewrite List.map_map.
  apply List.map_ext. intros r. by destruct (user_id r =? uid).
Qed.

Lemma transaction_fields {A} (p : user_row → A) cols g w :
  (∀ tm t, List.map p (rows (g tm t)) = List.map p (rows t)) →
  List.map p (file_rows (db (run (transaction cols g) w)))
  = List.map p (file_rows (db w)).
Proof.
  intros Hg.
  destruct (transaction_cases cols g w)
    as [_ [(_ & t & Hdb & _ & Hdb1)|[_ Hu]]].
  - rewrite Hdb1, Hdb. cbn. apply Hg.
  - by rewrite (file_rows_untouched _ _ Hu).
Qed.

Lemma update_user_problem_commits uid seg custom w t :
  db w = DbFile (Some t) → has_columns all_columns t = true → no_faults w →
  update_user_problem uid seg custom w
  = (Val true, set_db (DbFile (Some (problem_update uid seg custom t))) w).
Proof.
  intros Hdb Hcols Hw. rewrite update_user_problem_transaction.
  apply (transaction_commits (problem_columns seg custom)
           (fun _ => problem_update uid seg custom) w t Hdb); [|done].
  apply has_columns_sub; [done|apply problem_columns_known].
Qed.

Lemma update_user_contact_info_commits uid name a ph w t :
  db w = DbFile (Some t) → has_columns all_columns t = true → no_faults w →
  update_user_contact_info uid name a ph w
  = (Val true, set_db (DbFile (Some (contact_update uid name a ph t))) w).
Proof.
  intros Hdb Hcols Hw. rewrite update_user_contact_info_transaction.
  apply (transaction_commits ["real_name"; "age"; "phone"; "user_id"]
           (fun _ => contact_update uid name a ph) w t Hdb); [|done].
  by apply has_columns_sub.
Qed.

(** X7: the two updates of a record are independent.  Whatever fails,
    [update_user_problem] leaves the name, the age and the contact of
    every record as they are and [update_user_contact_info] leaves the
    category and the description; with the table in place and nothing
    failing, the two can be made in either order, on the same or on
    different users, with the same result. *)
Theorem problem_and_contact_updates_are_independent :
  (∀ uid seg custom w,
     List.map contact_fields
       (file_rows (db (run (update_user_problem uid seg custom) w)))
     = List.map contact_fields (file_rows (db w)))
  ∧ (∀ uid name a ph w,
       List.map problem_fields
         (file_rows (db (run (update_user_contact_info uid name a ph) w)))
       = List.map problem_fields (file_rows (db w)))
  ∧ (∀ uid1 seg custom uid2 name a ph w,
       schema_ok (db w) → no_faults w →
       run (update_user_contact_info uid2 name a ph)
         (run (update_user_problem uid1 seg custom) w)
       = run (update_user_problem uid1 seg custom)
           (run (update_user_contact_info uid2 name a ph) w)).
Proof.
  split_and!.
  - intros uid seg custom w. unfold run.
    rewrite update_user_problem_transaction.
    apply (transaction_fields contact_fields). intros _ t.
    unfold problem_update. cbn. apply update_where_fields.
    intros r. by destruct (truthy custom && str_eqb seg CUSTOM).
  - intros uid name a ph w. unfold run.
    rewrite update_user_contact_info_transaction.
    apply (transaction_fields problem_fields). intros _ t.
    unfold contact_update. cbn. by apply update_where_fields.
  - intros uid1 seg custom uid2 name a ph w (t & Hdb & Hcols) Hw.
    unfold run.
    rewrite (update_user_problem_commits uid1 seg custom w t Hdb Hcols Hw).
    rewrite (update_user_contact_info_commits uid2 name a ph w t Hdb Hcols Hw).
    cbn [snd].
    erewrite update_user_contact_info_commits; [|reflexivity|done|done].
    erewrite update_user_problem_commits; [|reflexivity|done|done].
    cbn [snd]. unfold set_db. cbn. f_equal. f_equal. f_equal.
    unfold contact_update, problem_update. cbn. f_equal.
    apply update_where_comm; try done.
    + intros r. by destruct (truthy custom && str_eqb seg CUSTOM).
    + intros r. by destruct (truthy custom && str_eqb seg CUSTOM).
Qed.

(** X8: the last update wins.  With the table in place and nothing
    failing, a second [update_user_contact_info] for a user gives the
    store that it alone would have given, and so does a second
    [update_user_problem], unless the first stored a description and the
    second stores none; and after [update_user_problem] the category of
    the user's record is the one passed. *)
Theorem last_update_wins uid w :
  schema_ok (db w) → no_faults w →
  (∀ n1 a1 p1 n2 a2 p2,
     run (update_user_contact_info uid n2 a2 p2)
       (run (update_user_contact_info uid n1 a1 p1) w)
     = run (update_user_contact_info uid n2 a2 p2) w)
  ∧ (∀ seg1 c1 seg2 c2,
       (truthy c1 && str_eqb seg1 CUSTOM = true →
        truthy c2 && str_eqb seg2 CUSTOM = true) →
       run (update_user_problem uid seg2 c2)
         (run (update_user_problem uid seg1 c1) w)
       = run (update_user_problem uid seg2 c2) w)
  ∧ (∀ seg custom r,
       find_row uid (file_rows (db w)) = Some r →
       ∃ r', find_row uid
               (file_rows (db (run (update_user_problem uid seg custom) w)))
             = Some r'
             ∧ problem_segment r' = Some seg
             ∧ contact_fields r' = contact_fields r
             ∧ identity r' = identity r).
Proof.
  intros (t & Hdb & Hcols) Hw. split_and!.
  - intros n1 a1 p1 n2 a2 p2. unfold run.
    rewrite (update_user_contact_info_commits uid n1 a1 p1 w t Hdb Hcols Hw).
    rewrite (update_user_contact_info_commits uid n2 a2 p2 w t Hdb Hcols Hw).
    cbn [snd].
    erewrite update_user_contact_info_commits; [|reflexivity|done|done].
    cbn [snd]. unfold set_db. cbn -[update_where]. do 3 f_equal.
    unfold contact_update. cbn -[update_where]. f_equal.
    by rewrite update_where_twice.
  - intros seg1 c1 seg2 c2 Himp. unfold run.
    rewrite (update_user_problem_commits uid seg1 c1 w t Hdb Hcols Hw).
    rewrite (update_user_problem_commits uid seg2 c2 w t Hdb Hcols Hw).
    cbn [snd].
    erewrite update_user_problem_commits; [|reflexivity|done|done].
    cbn [snd]. unfold set_db. cbn -[update_where]. do 3 f_equal.
    unfold problem_update. cbn -[update_where]. f_equal.
    rewrite update_where_twice.
    + unfold update_where. apply List.map_ext. intros r.
      destruct (truthy c1 && str_eqb seg1 CUSTOM);
        destruct (truthy c2 && str_eqb seg2 CUSTOM); try done.
      by specialize (Himp eq_refl).
    + intros r. by destruct (truthy c1 && str_eqb seg1 CUSTOM).
  - intros seg custom r Hr. unfold run.
    rewrite (update_user_problem_commits uid seg custom w t Hdb Hcols Hw).
    rewrite Hdb in Hr. change (find_row uid (rows t) = Some r) in Hr.
    cbn [snd db set_db file_rows problem_update rows].
    rewrite find_row_update_where, Hr.
    + eexists; split; [reflexivity|].
      by destruct (truthy custom && str_eqb seg CUSTOM).
    + intros r0. by destruct (truthy custom && str_eqb seg CUSTOM).
Qed.

(** * The statistics and the export *)

Lemma insert_desc_perm {A} (key : A → Z) x l : insert_desc key x l ≡ₚ x :: l.
Proof.
  induction l as [|y l IH]; cbn; [done|].
  destruct (key x <? key y); [|done].
  rewrite IH. apply Permutation_swap.
Qed.

Lemma sort_desc_perm {A} (key : A → Z) l : sort_desc key l ≡ₚ l.
Proof.
  induction l as [|x l IH]; cbn; [done|].
  rewrite insert_desc_perm. by rewrite IH.
Qed.

Lemma insert_desc_descending {A} (key : A → Z) x l :
  descending key l → descending key (insert_desc key x l).
Proof.
  induction l as [|y l IH]; cbn.
  - intros _. split; [constructor|done].
  - intros [Hy Hl]. destruct (key x <? key y) eqn:Hxy; cbn.
    + split; [|by apply IH].
      rewrite insert_desc_perm. constructor; [lia|done].
    + apply Z.ltb_ge in Hxy. split_and!; [|done..].
      constructor; [done|].
      eapply Forall_impl; [exact Hy|]. cbn. intros; lia.
Qed.

Lemma sort_desc_descending {A} (key : A → Z) l : descending key (sort_desc key l).
Proof.
  induction l as [|x l IH]; cbn; [done|]. by apply insert_desc_descending.
Qed.

Lemma tally_get_add k k' acc :
  tally_get k' (tally_add k acc)
  = (tally_get k' acc + if str_eqb k' k then 1 else 0)%nat.
Proof.
  unfold str_eqb.
  induction acc as [|[k0 n] acc IH]; cbn; unfold str_eqb.
  - by case_bool_decide.
  - repeat case_bool_decide; subst; cbn; unfold str_eqb;
      repeat case_bool_decide; subst; try done; try lia.
Qed.

Lemma tally_keys_add k acc :
  List.map fst (tally_add k acc)
  = if bool_decide (k ∈ List.map fst acc) then List.map fst acc
    else List.map fst acc ++ [k].
Proof.
  induction acc as [|[k0 n] acc IH]; cbn; unfold str_eqb.
  - done.
  - repeat case_bool_decide; subst; cbn; rewrite ?IH;
      repeat case_bool_decide; subst; try done.
    all: exfalso; rewrite ?elem_of_cons in *; tauto.
Qed.

Lemma tally_keys_NoDup k acc :
  NoDup (List.map fst acc) → NoDup (List.map fst (tally_add k acc)).
Proof.
  intros H. rewrite tally_keys_add. case_bool_decide; [done|].
  apply NoDup_app. split_and!; [done| |apply NoDup_singleton].
  intros x Hx Hk. apply list_elem_of_singleton in Hk. by subst.
Qed.

Lemma tally_sum_add k acc :
  list_sum (List.map snd (tally_add k acc)) = S (list_sum (List.map snd acc)).
Proof.
  induction acc as [|[k0 n] acc IH]; cbn; [done|].
  destruct (str_eqb k k0); [done|].
  change (n + list_sum (List.map snd (tally_add k acc))
          = S (n + list_sum (List.map snd acc)))%nat.
  rewrite IH. lia.
Qed.

Lemma tally_get_In k n acc :
  NoDup (List.map fst acc) → In (k, n) acc → tally_get k acc = n.
Proof.
  induction acc as [|[k0 n0] acc IH]; cbn; [done|].
  intros Hnd [[= -> ->]|Hin]; unfold str_eqb.
  - by rewrite bool_decide_eq_true_2.
  - apply NoDup_cons in Hnd as [Hk0 Hnd].
    case_bool_decide; [|by apply IH]. subst.
    exfalso. apply Hk0, list_elem_of_In, in_map_iff. by exists (k0, n).
Qed.

Lemma tally_get_keys k acc :
  tally_get k acc ≠ 0%nat → In k (List.map fst acc).
Proof.
  induction acc as [|[k0 n0] acc IH]; cbn; [done|]. unfold str_eqb.
  case_bool_decide; [subst; by left|]. intros. right. by apply IH.
Qed.

Lemma group_count_spec ks : ∀ acc,
  let res := fold_left (fun acc k => tally_add k acc) ks acc in
  (∀ k, tally_get k res = (tally_get k acc + occurrences k ks)%nat)
  ∧ (NoDup (List.map fst acc) → NoDup (List.map fst res))
  ∧ list_sum (List.map snd res)
    = (list_sum (List.map snd acc) + length ks)%nat
  ∧ (Forall (fun kc => (1 ≤ snd kc)%nat) acc
     → Forall (fun kc => (1 ≤ snd kc)%nat) res).
Proof.
  induction ks as [|k0 ks IH]; intros acc; cbn zeta.
  - cbn. split_and!; try done; intros; lia.
  - cbn [fold_left]. destruct (IH (tally_add k0 acc)) as (H1 & H2 & H3 & H4).
    split_and!.
    + intros k. rewrite H1, tally_get_add. unfold occurrences. cbn.
      unfold str_eqb. repeat case_bool_decide; subst; cbn; try done; lia.
    + intros Hnd. by apply H2, tally_keys_NoDup.
    + rewrite H3, tally_sum_add. cbn. lia.
    + intros Hf. apply H4. clear -Hf.
      induction acc as [|[k n] acc IH]; cbn.
      * repeat constructor.
      * apply Forall_cons in Hf as [Hn Hf].
        destruct (str_eqb k0 k); constructor; cbn in *; auto; lia.
Qed.

Lemma occurrences_segments k rs :
  occurrences k (omap problem_segment rs)
  = length (List.filter (in_category k) rs).
Proof.
  unfold occurrences, in_category, str_eqb.
  induction rs as [|r rs IH]; cbn; [done|].
  destruct (problem_segment r) as [k'|]; cbn.
  - repeat case_bool_decide; simplify_eq; cbn; by rewrite ?IH.
  - rewrite bool_decide_eq_false_2 by done. done.
Qed.

Lemma list_sum_perm l l' : l ≡ₚ l' → list_sum l = list_sum l'.
Proof. unfold list_sum. induction 1; cbn in *; lia. Qed.

Lemma get_user_stats_stats_of w st :
  result get_user_stats w = Val (Some st) →
  ∃ t, db w = DbFile (Some t) ∧ st = stats_of t.
Proof.
  unfold get_user_stats. unfold_m.
  destruct (sqlite3_connect w) as [[[]|?] w1] eqn:H1; [|cbn; congruence].
  apply sqlite3_connect_run in H1 as (_ & Hu & Hn).
  destruct (from_users [] w1) as [[t1|?] w2] eqn:H2; [|cbn; congruence].
  apply from_users_run in H2 as (_ & E2 & H2). destruct (H2 _ eq_refl) as [D1 _].
  destruct (from_users _ w2) as [[t2|?] w3] eqn:H3; [|cbn; congruence].
  apply from_users_run in H3 as (_ & E3 & H3). destruct (H3 _ eq_refl) as [D2 _].
  destruct (from_users _ w3) as [[t3|?] w4] eqn:H4; [|cbn; congruence].
  apply from_users_run in H4 as (_ & E4 & H4). destruct (H4 _ eq_refl) as [D3 _].
  destruct (from_users _ w4) as [[t4|?] w5] eqn:H5; [|cbn; congruence].
  apply from_users_run in H5 as (_ & E5 & H5). destruct (H5 _ eq_refl) as [D4 _].
  cbn. intros [= <-].
  assert (t2 = t1) by congruence. assert (t3 = t1) by congruence.
  assert (t4 = t1) by congruence. subst t2 t3 t4.
  exists t1. split; [|done].
  destruct Hu as [Hu|[Hu Hu']]; congruence.
Qed.

(** X9: the distribution that [get_user_stats] returns has one entry for
    each category that some record has, with the number of records of
    that category, which is at least 1; the counts add up to the number
    of records that have a category, so to no more than [total_users];
    and the entries come with the greatest count first. *)
Theorem problems_distribution_counts w st :
  result get_user_stats w = Val (Some st) →
  let rs := file_rows (db w) in
  let dist := problems_distribution st in
  NoDup (List.map fst dist)
  ∧ (∀ k n, In (k, n) dist →
       (1 ≤ n)%nat ∧ n = length (List.filter (in_category k) rs))
  ∧ (∀ r k, In r rs → problem_segment r = Some k → In k (List.map fst dist))
  ∧ list_sum (List.map snd dist) = length (omap problem_segment rs)
  ∧ (list_sum (List.map snd dist) ≤ total_users st)%nat
  ∧ descending (fun kc => Z.of_nat (snd kc)) dist.
Proof.
  intros Hst. destruct (get_user_stats_stats_of w st Hst) as (t & Hdb & ->).
  cbn zeta. rewrite Hdb. cbn [file_rows stats_of problems_distribution total_users].
  set (ks := omap problem_segment (rows t)).
  set (key := fun kc : pystr * nat => Z.of_nat (snd kc)).
  pose proof (sort_desc_perm key (group_count ks)) as Hperm.
  destruct (group_count_spec ks []) as (Hget & Hnd & Hsum & Hpos).
  fold (group_count ks) in Hget, Hnd, Hsum, Hpos. cbn in Hget, Hsum.
  specialize (Hnd (NoDup_nil_2)). specialize (Hpos (Forall_nil_2 _)).
  assert (list_sum (List.map snd (sort_desc key (group_count ks))) = length ks)
    as Hs.
  { rewrite <- Hsum. apply list_sum_perm. by apply Permutation_map. }
  split_and!.
  - assert (List.map fst (sort_desc key (group_count ks))
            ≡ₚ List.map fst (group_count ks)) as Hp
      by (by apply Permutation_map).
    by rewrite Hp.
  - intros k n Hin.
    assert (In (k, n) (group_count ks)) as Hin'.
    { eapply Permutation_in; [exact Hperm|done]. }
    split.
    + rewrite Forall_forall in Hpos.
      apply (Hpos (k, n)), list_elem_of_In, Hin'.
    + rewrite <- occurrences_segments. fold ks. rewrite <- Hget.
      symmetry. by apply tally_get_In.
  - intros r k Hr Hk.
    eapply Permutation_in; [apply Permutation_map; symmetry; exact Hperm|].
    apply tally_get_keys. rewrite Hget. unfold ks.
    rewrite occurrences_segments.
    assert (In r (List.filter (in_category k) (rows t))) as Hf.
    { apply List.filter_In. split; [done|].
      unfold in_category. by apply bool_decide_eq_true_2. }
    destruct (List.filter (in_category k) (rows t)); [done|cbn; lia].
  - exact Hs.
  - rewrite Hs. unfold ks. clear.
    induction (rows t) as [|r rs IH]; cbn; [lia|].
    destruct (problem_segment r); cbn; lia.
  - apply sort_desc_descending.
Qed.

Lemma filter_length_le {A} (f : A → bool) l :
  (length (List.filter f l) ≤ length l)%nat.
Proof. induction l as [|x l IH]; cbn; [lia|]. destruct (f x); cbn; lia. Qed.

Lemma filter_length_mono {A} (f g : A → bool) l :
  (∀ x, f x = true → g x = true) →
  (length (List.filter f l) ≤ length (List.filter g l))%nat.
Proof.
  intros Hfg. induction l as [|x l IH]; cbn; [lia|].
  destruct (f x) eqn:Hf.
  - rewrite (Hfg x Hf). cbn. lia.
  - destruct (g x); cbn; lia.
Qed.

(** X10: the recent requests that [get_user_stats] returns are the
    records with a name, newest first, cut after the fifth: five of them,
    or all when there are fewer, and none of those left out was created
    later than one that is listed.  [users_with_requests] counts no more
    records than have a name, and these are no more than [total_users]. *)
Theorem recent_requests_are_the_newest w st :
  result get_user_stats w = Val (Some st) →
  let named := List.filter has_name (file_rows (db w)) in
  (∃ listed rest,
     recent_requests st = List.map request_tuple listed
     ∧ listed ++ rest ≡ₚ named
     ∧ descending created_key (listed ++ rest)
     ∧ length listed = Nat.min 5 (length named))
  ∧ (users_with_requests st ≤ length named)%nat
  ∧ (length named ≤ total_users st)%nat.
Proof.
  intros Hst. destruct (get_user_stats_stats_of w st Hst) as (t & Hdb & ->).
  cbn zeta. rewrite Hdb.
  cbn [file_rows stats_of recent_requests users_with_requests total_users].
  set (named := List.filter has_name (rows t)).
  pose proof (sort_desc_perm created_key named) as Hperm.
  split_and!.
  - exists (firstn 5 (sort_desc created_key named)),
           (skipn 5 (sort_desc created_key named)).
    rewrite firstn_skipn. split_and!; [done|done|apply sort_desc_descending|].
    rewrite length_take. f_equal. by apply Permutation_length.
  - apply filter_length_mono. intros r. unfold is_request, has_name.
    by intros [H _]%andb_true_iff.
  - apply filter_length_le.
Qed.

Lemma sort_desc_nil {A} (key : A → Z) l : sort_desc key l = [] → l = [].
Proof.
  intros H. destruct l as [|x l]; [done|].
  by destruct (sort_desc_not_nil key (x :: l)).
Qed.

(** ** Calls that pass, with failures scheduled for later *)

Lemma outside_passes e w :
  hd false (faults w) = false → outside e w = (Val tt, popped w).
Proof.
  destruct w as [d f o ex fs tm j]. unfold outside, popped. cbn.
  by destruct fs as [|[] fs].
Qed.

Lemma from_users_passes cols w t :
  db w = DbFile (Some t) → has_columns cols t = true →
  hd false (faults w) = false → from_users cols w = (Val t, popped w).
Proof.
  intros Hdb Hc Hh. unfold from_users, opened.
  rewrite (bind_val _ _ _ (Some t) (popped w)).
  - by rewrite Hc.
  - rewrite (bind_val _ _ _ _ _ (outside_passes _ _ Hh)).
    rewrite (bind_val _ _ _ (popped w) (popped w)) by done.
    change (db (popped w)) with (db w). by rewrite Hdb.
Qed.

Lemma answer_sends chat r w :
  hd false (faults w) = false →
  answer chat r w = (Val tt, push_out (chat, r) (popped w)).
Proof.
  intros Hh. unfold answer.
  by rewrite (bind_val _ _ _ _ _ (outside_passes _ _ Hh)).
Qed.

Lemma answer_fails chat r w :
  hd false (faults w) = true →
  answer chat r w = (Exc TelegramAPIError, popped w).
Proof.
  intros Hh. unfold answer.
  by rewrite (bind_exc _ _ _ _ _ (outside_fails _ _ Hh)).
Qed.

Lemma from_users_passes_known cols w t :
  db w = DbFile (Some t) → has_columns all_columns t = true →
  forallb (fun c => bool_decide (c ∈ all_columns)) cols = true →
  hd false (faults w) = false → from_users cols w = (Val t, popped w).
Proof.
  intros Hd Hc Hs Hf. apply from_users_passes; [done| |done].
  by apply has_columns_sub.
Qed.

(** One step of a computation, by a lemma whose premises hold by
    evaluation or by assumption. *)
Ltac step_val L :=
  erewrite bind_val; cycle 1;
  [solve [eapply L; first [reflexivity|eassumption]]|].

Lemma get_user_stats_passes w t fs :
  db w = DbFile (Some t) → has_columns all_columns t = true →
  faults w = false :: false :: false :: false :: false :: fs →
  get_user_stats w = (Val (Some (stats_of t)), set_faults fs w).
Proof.
  destruct w as [d f o ex fs0 tm j]. cbn [db faults]. intros -> Hc ->.
  unfold get_user_stats. apply try_val.
  step_val sqlite3_connect_passes.
  do 4 step_val from_users_passes_known.
  reflexivity.
Qed.

Lemma export_users_to_excel_passes w t fs :
  db w = DbFile (Some t) → has_columns all_columns t = true →
  rows t ≠ [] → faults w = false :: false :: false :: false :: fs →
  export_users_to_excel w
  = (Val (Some (now w), None),
     set_exports (<[now w := sort_desc created_key (rows t)]> (exports w))
       (set_faults fs w)).
Proof.
  destruct w as [d f o ex fs0 tm j]. cbn [db faults]. intros -> Hc Hne ->.
  unfold export_users_to_excel. apply try_val.
  step_val sqlite3_connect_passes.
  step_val from_users_passes_known.
  pose proof (sort_desc_not_nil created_key (rows t) Hne) as Hs.
  destruct (sort_desc created_key (rows t)) as [|r rs]; [done|].
  unfold to_excel. unfold_m. cbn -[insert].
  unfold set_exports, set_faults. cbn -[insert].
  by rewrite insert_insert_eq.
Qed.

(** The write of the export fails after the file has been created. *)
Lemma export_users_to_excel_write_fails w t fs :
  db w = DbFile (Some t) → has_columns all_columns t = true →
  rows t ≠ [] → faults w = false :: false :: false :: true :: fs →
  export_users_to_excel w
  = (Val (None, Some ErrRaised),
     set_exports (<[now w := []]> (exports w)) (set_faults fs w)).
Proof.
  destruct w as [d f o ex fs0 tm j]. cbn [db faults]. intros -> Hc Hne ->.
  unfold export_users_to_excel. erewrite try_exc; [reflexivity|].
  step_val sqlite3_connect_passes.
  step_val from_users_passes_known.
  pose proof (sort_desc_not_nil created_key (rows t) Hne) as Hs.
  destruct (sort_desc created_key (rows t)) as [|r rs]; [done|].
  reflexivity.
Qed.

Lemma export_users_to_excel_empty w t :
  db w = DbFile (Some t) → has_columns all_columns t = true → no_faults w →
  rows t = [] →
  export_users_to_excel w = (Val (None, Some ErrEmpty), w).
Proof.
  intros Hd Hc Hf He. unfold export_users_to_excel. apply try_val.
  rewrite (bind_val _ _ _ _ _ (sqlite3_connect_quiet w _ Hd Hf)).
  rewrite (bind_val _ _ _ _ _
             (from_users_known ["created_at"] w t Hd Hc eq_refl Hf)).
  by rewrite He.
Qed.

Lemma answer_document_fails chat f st w rs :
  exports w !! f = Some rs → hd false (faults w) = true →
  answer_document chat f st w = (Exc TelegramAPIError, popped w).
Proof.
  intros Hf Hh. unfold answer_document.
  rewrite (bind_val _ _ _ w w) by done. rewrite Hf. by apply answer_fails.
Qed.

(** The outcomes of [export_users_to_excel], whatever fails. *)
Lemma export_users_to_excel_cases w :
  let w' := run export_users_to_excel w in
  let r := result export_users_to_excel w in
  (r = Val (Some (now w), None)
   ∧ ∃ written,
       exports w' = <[now w := written]> (exports w)
       ∧ written ≡ₚ file_rows (db w)
       ∧ descending created_key written
       ∧ written ≠ [])
  ∨ (r = Val (None, Some ErrEmpty)
     ∧ exports w' = exports w
     ∧ ∃ t, db w = DbFile (Some t) ∧ rows t = [])
  ∨ (r = Val (None, Some ErrRaised)
     ∧ (exports w' = exports w
        ∨ exports w' = <[now w := []]> (exports w))).
Proof.
  cbn zeta.
  unfold run, result, export_users_to_excel, to_excel. unfold_m.
  destruct (sqlite3_connect w) as [[[]|?] w1] eqn:H1; cbn.
  2:{ apply sqlite3_connect_run in H1 as ((_ & _ & He & _) & _). auto. }
  apply sqlite3_connect_run in H1 as (A1 & Hu & Hn).
  destruct (from_users ["created_at"] w1) as [[t|?] w2] eqn:H2; cbn.
  2:{ apply from_users_run in H2 as ((_ & _ & He & _) & _).
      destruct A1 as (_ & _ & He1 & _). right. right. split; [done|].
      left. congruence. }
  apply from_users_run in H2 as (A2 & E2 & H2).
  destruct (H2 _ eq_refl) as [D1 _].
  assert (db w = DbFile (Some t)) as Hdb.
  { destruct Hu as [Hu|[Hu Hu']]; congruence. }
  assert (aside w w2) as A by (by eapply aside_trans).
  destruct A as (_ & _ & He & Hnow & _).
  pose proof (sort_desc_perm created_key (rows t)) as Hp.
  pose proof (sort_desc_descending created_key (rows t)) as Hd.
  destruct (sort_desc created_key (rows t)) as [|x l] eqn:Hs; cbn -[descending].
  { right. left. split_and!; [done|done|].
    exists t. split; [done|]. by eapply sort_desc_nil. }
  assert (∃ written,
            <[now w := x :: l]> (<[now w := []]> (exports w))
            = <[now w := written]> (exports w)
            ∧ written ≡ₚ file_rows (db w)
            ∧ descending created_key written ∧ written ≠ []) as Hw.
  { exists (x :: l). rewrite Hdb. cbn [file_rows].
    refine (conj _ (conj Hp (conj Hd _))); [apply insert_insert_eq|done]. }
  clear -He Hnow Hw. destruct w2 as [d2 f2 o2 ex2 fs2 tm2 j2].
  cbn [exports now] in He, Hnow. subst ex2 tm2.
  destruct fs2 as [|[] [|[] fs]]; cbn -[descending insert];
    first [ by left; split
          | right; right; split; [done|]; first [by left|by right] ].
Qed.


(** X12: [/export] by the operator on a store without records, nothing
    failing: after the notice that the export has started the operator
    is sent the error message, with the text for the empty store in it;
    no file is written, and nothing else changes.  (The message of the
    branch [if not filename] is not the one sent.) *)
Theorem export_of_empty_store ADMIN_ID m w t :
  from_id m = ADMIN_ID →
  db w = DbFile (Some t) → has_columns all_columns t = true →
  rows t = [] → no_faults w →
  command_export ADMIN_ID m w
  = (Val tt,
     push_out (chat_id m, MsgExportError ErrEmpty)
       (push_out (chat_id m, MsgExportStarted) w)).
Proof.
  intros Heq Hd Hc He Hf. unfold command_export.
  rewrite bool_decide_eq_false_2 by (intros H; by apply H).
  rewrite (bind_val _ _ _ _ _ (answer_quiet _ _ w Hf)).
  set (w1 := push_out (chat_id m, MsgExportStarted) w).
  rewrite (bind_val _ _ _ _ _ (export_users_to_excel_empty w1 t Hd Hc Hf He)).
  cbn [fst snd]. by rewrite answer_quiet.
Qed.

(** X13: the export file is removed once it has been sent, and only then.
    With records in the table and nothing failing, [/export] by the
    operator leaves no file of the name it used.  When the send of the
    document fails (here the eleventh call that leaves the process, after
    the notice, the export and the statistics), the operator is told so
    and the file stays where it was written. *)
Theorem export_file_is_removed_when_sent ADMIN_ID m w t :
  from_id m = ADMIN_ID →
  db w = DbFile (Some t) → has_columns all_columns t = true →
  rows t ≠ [] →
  let w' := run (command_export ADMIN_ID m) w in
  (no_faults w →
   exports w' = delete (now w) (exports w)
   ∧ result (command_export ADMIN_ID m) w = Val tt)
  ∧ (faults w = replicate 10 false ++ [true] →
     exports w' = <[now w := sort_desc created_key (rows t)]> (exports w)
     ∧ outbox w'
       = outbox w ++ [(chat_id m, MsgExportStarted);
                      (chat_id m, MsgSendFileError)]
     ∧ result (command_export ADMIN_ID m) w = Val tt).
Proof.
  intros Heq Hd Hc Hne. cbn zeta. split.
  - intros Hf. unfold command_export, run, result.
    rewrite bool_decide_eq_false_2 by (intros H; by apply H).
    rewrite (bind_val _ _ _ _ _ (answer_quiet _ _ w Hf)).
    set (w1 := push_out (chat_id m, MsgExportStarted) w).
    rewrite (bind_val _ _ _ _ _
               (export_users_to_excel_quiet w1 t Hd Hc Hf Hne)).
    cbn [fst snd].
    set (w2 := set_exports _ w1).
    assert (exports w2 !! now w = Some (sort_desc created_key (rows t)))
      as Hfile by apply lookup_insert_eq.
    erewrite try_val; cycle 1.
    { rewrite (bind_val _ _ _ _ _ (get_user_stats_quiet w2 t Hd Hc Hf)).
      rewrite (bind_val _ _ _ _ _
                 (answer_document_quiet _ _ _ w2 _ Hfile Hf)).
      eapply os_remove_export_quiet; [exact Hfile|exact Hf]. }
    cbn. split; [|done]. apply delete_insert_eq.
  - destruct w as [d f o ex fs0 tm j]. cbn in Hd. cbn [faults]. intros ->.
    subst d. unfold command_export, run, result.
    rewrite bool_decide_eq_false_2 by (intros H; by apply H).
    step_val answer_sends.
    erewrite bind_val; cycle 1.
    { eapply (export_users_to_excel_passes _ t); [reflexivity|done|done|].
      reflexivity. }
    cbn [fst snd].
    erewrite try_exc; cycle 1.
    { erewrite bind_val; cycle 1.
      { eapply (get_user_stats_passes _ t); [reflexivity|done|reflexivity]. }
      erewrite bind_exc; [reflexivity|].
      eapply answer_document_fails; [apply lookup_insert_eq|reflexivity]. }
    rewrite answer_sends by reflexivity.
    cbn. split_and!; [done| |done]. by rewrite <- app_assoc.
Qed.

(** * Relations kept by every primitive step *)

Lemma keeps_os_path_exists_db_any (R : relation world) `{!PreOrder R} :
  keeps R os_path_exists_db.
Proof. intros w. apply reflexivity. Qed.

Lemma keeps_outside_any (R : relation world) `{!PreOrder R} e :
  (∀ w, R w (popped w)) → keeps R (outside e).
Proof.
  intros H w. specialize (H w). unfold run, outside, popped in *.
  destruct (faults w) as [|[] fs]; cbn in *; [apply reflexivity|apply H..].
Qed.

(** Every computation of the program is built from [outside], [modify],
    [get_world], [raise] and [try_]. *)
Ltac unfold_program :=
  unfold command_start, ensure_schema, register_and_greet, greeting_name,
    handle_problem_selection, handle_custom_problem_start,
    handle_custom_problem_input, handle_signup_start, handle_name_input,
    handle_age_input, handle_phone_input, command_export, command_stats,
    on_startup, os_remove_export, answer_document, int_;
  unfold init_database, user_exists, add_user, update_user_problem,
    update_user_contact_info, get_user_stats, export_users_to_excel,
    update_database_schema, alter_table_add_column;
  unfold to_excel;
  unfold answer, text_strip, datetime_now, get_data, set_state, update_data,
    state_clear, pragma_table_info, create_table_users, from_users,
    conn_commit, os_remove_db, sqlite3_connect, opened.

Create HintDb kept.

(** [keeps R m] for a relation that [tac] shows of every single change of
    the world made by [m]; the hints of [kept] are for the computations
    that are taken as a whole. *)
Ltac keeps_prim tac :=
  repeat first
    [ kret
    | kraise
    | kget
    | solve [eauto with kept]
    | apply keeps_os_path_exists_db_any; typeclasses eauto
    | apply keeps_outside_any; [typeclasses eauto|intros ?; solve [tac]]
    | apply keeps_modify; intros ?; solve [tac]
    | kbind
    | ktry
    | match goal with
      | |- keeps _ (if ?b then _ else _) => destruct b eqn:?
      | |- keeps _ (match ?x with _ => _ end) => destruct x eqn:?
      end ].

#[export] Instance aside_preorder : PreOrder aside.
Proof. split; [exact aside_refl|exact aside_trans]. Qed.

Lemma aside_get_user_stats : keeps aside get_user_stats.
Proof.
  unfold_program.
  keeps_prim ltac:(first [apply aside_popped|unfold aside; cbn; by split_and!]).
Qed.

Lemma get_user_stats_returns w : ∃ o, result get_user_stats w = Val o.
Proof.
  unfold get_user_stats, try_, result.
  match goal with |- context [match ?b w with _ => _ end] =>
    destruct (b w) as [[o|e] w1] end; cbn; eauto.
Qed.

(** X14: [get_user_stats] never raises; it returns [None] when the table
    [users] is not there and when the connection fails; and whenever it
    returns [None], [/stats] by the operator sends the message that the
    statistics could not be read, and no report. *)
Theorem stats_unavailable ADMIN_ID :
  (∀ w, ∃ o, result get_user_stats w = Val o)
  ∧ (∀ w, (∀ t, db w ≠ DbFile (Some t)) → result get_user_stats w = Val None)
  ∧ (∀ w, hd false (faults w) = true → result get_user_stats w = Val None)
  ∧ (∀ m w,
       from_id m = ADMIN_ID → result get_user_stats w = Val None →
       hd false (faults (run get_user_stats w)) = false →
       outbox (run (command_stats ADMIN_ID m) w)
       = outbox w ++ [(chat_id m, MsgStatsUnavailable)]).
Proof.
  split_and!.
  - apply get_user_stats_returns.
  - intros w Hdb. destruct (get_user_stats_returns w) as [[st|] Ho]; [|done].
    destruct (get_user_stats_stats_of w st Ho) as (t & Ht & _).
    by destruct (Hdb t).
  - intros w Hh. unfold result, get_user_stats.
    by rewrite (try_exc _ _ _ _ _
      (bind_exc _ _ _ _ _ (sqlite3_connect_fails _ Hh))).
  - intros m w Heq Hr Hh. unfold command_stats.
    rewrite bool_decide_eq_false_2 by (intros H; by apply H).
    pose proof (aside_get_user_stats w) as (_ & Ho & _).
    unfold run, result in *.
    destruct (get_user_stats w) as [r w1] eqn:E. cbn in Hr, Hh, Ho. subst r.
    rewrite (bind_val _ _ _ _ _ E).
    rewrite <- Ho. by apply answer_passes.
Qed.

(** * The conversations *)

Ltac unfold_handlers :=
  unfold command_start, ensure_schema, register_and_greet, greeting_name,
    handle_problem_selection, handle_custom_problem_start,
    handle_custom_problem_input, handle_signup_start, handle_name_input,
    handle_age_input, handle_phone_input, command_export, command_stats,
    on_startup, os_remove_export, answer_document, int_;
  unfold init_database, user_exists, get_user_stats, export_users_to_excel;
  unfold to_excel.

Ltac unfold_prims :=
  unfold answer, text_strip, datetime_now, get_data, set_state, update_data,
    state_clear, pragma_table_info, create_table_users, from_users,
    conn_commit, os_remove_db, sqlite3_connect, opened.

#[export] Instance conv_kept_preorder : PreOrder conv_kept.
Proof.
  split; [intros w H; exact H|intros w1 w2 w3 H1 H2 H; exact (H2 (H1 H))].
Qed.

#[export] Instance fixed_at_preorder k : PreOrder (fixed_at k).
Proof.
  split; [by intros w|]. unfold fixed_at. intros w1 w2 w3 H1 H2. congruence.
Qed.

Lemma record_ok_empty : record_ok empty_record.
Proof. by split_and!. Qed.

Lemma conversations_ok_insert k c w w' :
  fsm w' = <[k := c]> (fsm w) → record_ok c →
  conversations_ok w → conversations_ok w'.
Proof.
  intros Hf Hc Hw k'. unfold fsm_of. rewrite Hf.
  destruct (decide (k = k')) as [->|Hne].
  - by rewrite lookup_insert_eq.
  - rewrite lookup_insert_ne by done. apply Hw.
Qed.

Lemma conversations_ok_fsm w w' :
  fsm w' = fsm w → conversations_ok w → conversations_ok w'.
Proof. intros Hf Hw k. unfold fsm_of. rewrite Hf. apply Hw. Qed.

Lemma conv_state_clear k w :
  conv_kept w (set_fsm (<[k := empty_record]> (fsm w)) w).
Proof.
  intros Hw.
  eapply (conversations_ok_insert k empty_record w);
    [reflexivity|apply record_ok_empty|done].
Qed.

Lemma conv_set_state_free k s w :
  s ≠ Some Form_age → s ≠ Some Form_phone →
  conv_kept w (set_fsm (<[k := Fsm s (data_of w k)]> (fsm w)) w).
Proof.
  intros H1 H2 Hw.
  eapply (conversations_ok_insert k (Fsm s (data_of w k)) w);
    [reflexivity| |done].
  destruct (Hw k) as (Hn & Ha & _). by split_and!.
Qed.

(** What a handler keeps that only clears the state or sets it to one of
    the first questions. *)
Ltac conv_step :=
  first [ apply conv_state_clear
        | apply conv_set_state_free; done
        | intros H; exact H ].

Lemma conv_command_start m : keeps conv_kept (command_start m).
Proof. unfold_program. keeps_prim conv_step. Qed.

Lemma conv_on_startup ADMIN_ID : keeps conv_kept (on_startup ADMIN_ID).
Proof. unfold_program. keeps_prim conv_step. Qed.

Lemma conv_handle_problem_selection c :
  keeps conv_kept (handle_problem_selection c).
Proof. unfold_program. keeps_prim conv_step. Qed.

Lemma conv_handle_custom_problem_start c :
  keeps conv_kept (handle_custom_problem_start c).
Proof. unfold_program. keeps_prim conv_step. Qed.

Lemma conv_handle_custom_problem_input m :
  keeps conv_kept (handle_custom_problem_input m).
Proof. unfold_program. keeps_prim conv_step. Qed.

Lemma conv_handle_signup_start c : keeps conv_kept (handle_signup_start c).
Proof. unfold_program. keeps_prim conv_step. Qed.

Lemma conv_handle_phone_input ADMIN_ID m :
  keeps conv_kept (handle_phone_input ADMIN_ID m).
Proof. unfold_program. keeps_prim conv_step. Qed.

Lemma conv_command_export ADMIN_ID m :
  keeps conv_kept (command_export ADMIN_ID m).
Proof. unfold_program. keeps_prim conv_step. Qed.

Lemma conv_command_stats ADMIN_ID m :
  keeps conv_kept (command_stats ADMIN_ID m).
Proof. unfold_program. keeps_prim conv_step. Qed.

(** An answer is held, the next question is sent, the state advances: when
    the question cannot be sent, the answer is held all the same and the
    state stays. *)
Lemma hold_then_advance k f chat r s w :
  let m := (update_data k f ;; answer chat r ;; set_state k s) in
  db (run m w) = db w ∧ exports (run m w) = exports w
  ∧ ((hd false (faults w) = false ∧ result m w = Val tt
      ∧ fsm (run m w) = <[k := Fsm s (f (data_of w k))]> (fsm w)
      ∧ outbox (run m w) = outbox w ++ [(chat, r)])
     ∨ (hd false (faults w) = true ∧ result m w = Exc TelegramAPIError
        ∧ fsm (run m w)
          = <[k := Fsm (state_of w k) (f (data_of w k))]> (fsm w)
        ∧ outbox (run m w) = outbox w)).
Proof.
  destruct w as [d fm o e fs tm j]. cbn zeta.
  unfold update_data, answer, set_state, run, result, data_of, state_of,
    fsm_of. unfold_m. cbn.
  destruct fs as [|[] fs]; cbn; (split; [done|]); (split; [done|]).
  - left. split_and!; try done.
    by rewrite lookup_insert_eq, insert_insert_eq.
  - right. by split_and!.
  - left. split_and!; try done.
    by rewrite lookup_insert_eq, insert_insert_eq.
Qed.

Lemma name_accepted m t w :
  text m = Some t → 2 ≤ len (strip t) →
  handle_name_input m w
  = (update_data (key_of m) (fun d => Data (Some (strip t)) (d_age d)) ;;
     answer (chat_id m) (MsgAskAge (strip t)) ;;
     set_state (key_of m) (Some Form_age)) w.
Proof.
  intros Ht Hl. unfold handle_name_input.
  rewrite (bind_val _ _ _ _ _ (text_strip_Some m t w Ht)).
  by rewrite (proj2 (Z.ltb_ge _ _) Hl).
Qed.

Lemma no_text_raises_name m w :
  text m = None → handle_name_input m w = (Exc AttributeError, w).
Proof. intros Ht. unfold handle_name_input, text_strip. by rewrite Ht. Qed.

Lemma no_text_raises_age ud mx m w :
  text m = None → handle_age_input ud mx m w = (Exc AttributeError, w).
Proof. intros Ht. unfold handle_age_input, text_strip. by rewrite Ht. Qed.

Lemma no_text_raises_phone ADMIN_ID m w :
  text m = None → handle_phone_input ADMIN_ID m w = (Exc AttributeError, w).
Proof. intros Ht. unfold handle_phone_input, text_strip. by rewrite Ht. Qed.

Lemma no_text_raises_custom m w :
  text m = None → handle_custom_problem_input m w = (Exc AttributeError, w).
Proof.
  intros Ht. unfold handle_custom_problem_input, text_strip. by rewrite Ht.
Qed.

Lemma conv_handle_name_input m w :
  conv_kept w (run (handle_name_input m) w).
Proof.
  intros Hw. destruct (text m) as [t|] eqn:Ht.
  2:{ unfold run. by rewrite no_text_raises_name. }
  destruct (Z.ltb_spec (len (strip t)) 2) as [Hl|Hl].
  { unfold run. rewrite (name_rejected m t w Ht Hl).
    eapply conversations_ok_fsm; [|done]. apply answer_only_sends. }
  unfold run. rewrite (name_accepted m t w Ht Hl).
  destruct (hold_then_advance (key_of m)
              (fun d => Data (Some (strip t)) (d_age d))
              (chat_id m) (MsgAskAge (strip t)) (Some Form_age) w)
    as (_ & _ & [(_ & _ & Hf & _)|(_ & _ & Hf & _)]);
    (eapply conversations_ok_insert; [exact Hf| |done]);
    destruct (Hw (key_of m)) as (Hn & Ha & Hs1 & Hs2);
    (split_and!; cbn; [by intros n [= <-]|exact Ha|done|]).
  - done.
  - intros Hs. split; [done|]. by apply Hs2.
Qed.

Section ConversationAge.

Variable unicode_decimal : N → option Z.
Variable int_max_str_digits : N.

Lemma conv_handle_age_input m w :
  state_of w (key_of m) = Some Form_age →
  conv_kept w (run (handle_age_input unicode_decimal int_max_str_digits m) w).
Proof.
  intros Hst Hw. destruct (text m) as [t|] eqn:Ht.
  2:{ unfold run. by rewrite no_text_raises_age. }
  destruct (py_int unicode_decimal int_max_str_digits (strip t))
    as [a|] eqn:Hp.
  2:{ eapply conversations_ok_fsm; [|done].
      apply (age_rejected_only_sends _ _ m t w Ht).
      unfold age_rejected. by rewrite Hp. }
  destruct (decide (10 ≤ a ≤ 100)) as [Hr|Hr].
  2:{ eapply conversations_ok_fsm; [|done].
      apply (age_rejected_only_sends _ _ m t w Ht).
      unfold age_rejected. rewrite Hp. lia. }
  unfold run. rewrite (age_in_range _ _ m t a w Ht Hp Hr).
  destruct (Hw (key_of m)) as (Hn & Ha & Hs1 & Hs2).
  specialize (Hs1 Hst).
  destruct (hold_then_advance (key_of m)
              (fun d => Data (d_name d) (Some a))
              (chat_id m) (MsgAskUsername a) (Some Form_phone) w)
    as (_ & _ & [(_ & _ & Hf & _)|(_ & _ & Hf & _)]);
    (eapply conversations_ok_insert; [exact Hf| |done]);
    (split_and!; cbn; [exact Hn|by intros ? [= <-]|done|]).
  - done.
  - fold (state_of w (key_of m)). rewrite Hst. done.
Qed.

End ConversationAge.

(** * What the store holds of the intake *)

#[export] Instance contacts_valid_inv : StoreInv contacts_valid.
Proof. split; apply Forall_nil_2. Qed.

Lemma valid_transaction cols g :
  (∀ tm t, Forall contact_valid (rows t) → Forall contact_valid (rows (g tm t))) →
  keeps (inv_kept contacts_valid) (transaction cols g).
Proof.
  intros Hg w Hok.
  destruct (transaction_cases cols g w)
    as [_ [(_ & t & Hd & _ & Hd')|(_ & Hu)]].
  - unfold contacts_valid in *. rewrite Hd'. rewrite Hd in Hok. by apply Hg.
  - unfold contacts_valid in *. by rewrite (file_rows_untouched _ _ Hu).
Qed.

Lemma valid_add_user uid un fn :
  keeps (inv_kept contacts_valid) (add_user uid un fn).
Proof.
  eapply keeps_pointwise; [apply add_user_transaction|].
  apply valid_transaction. intros tm t Ht.
  unfold insert_or_ignore. case_match; cbn [rows]; [done|].
  eapply Permutation_Forall; [symmetry; apply insert_by_id_perm|].
  apply Forall_app. split; [done|]. apply Forall_singleton. by split_and!.
Qed.

Lemma valid_update_user_problem uid seg custom :
  keeps (inv_kept contacts_valid) (update_user_problem uid seg custom).
Proof.
  eapply keeps_pointwise; [apply update_user_problem_transaction|].
  apply valid_transaction. intros _ t Ht. unfold problem_update. cbn [rows].
  apply Forall_update_where; [|done].
  intros r Hr. by destruct (truthy custom && str_eqb seg CUSTOM).
Qed.

Lemma valid_update_user_contact_info uid name a ph :
  2 ≤ len name → 10 ≤ a ≤ 100 → 2 ≤ len ph →
  keeps (inv_kept contacts_valid) (update_user_contact_info uid name a ph).
Proof.
  intros Hn Ha Hp.
  eapply keeps_pointwise; [apply update_user_contact_info_transaction|].
  apply valid_transaction. intros _ t Ht. unfold contact_update. cbn [rows].
  apply Forall_update_where; [|done].
  intros r _. split_and!; cbn; by intros ? [= <-].
Qed.

#[export] Hint Resolve valid_add_user valid_update_user_problem
  valid_update_user_contact_info : kept.

(** What a step keeps that leaves the file alone or leaves it without
    records. *)
Ltac valid_step :=
  first [ intros H; exact H
        | intros _; apply Forall_nil_2 ].

Lemma valid_command_start m :
  keeps (inv_kept contacts_valid) (command_start m).
Proof. unfold_handlers. unfold_prims. keeps_prim valid_step. Qed.

Lemma valid_on_startup ADMIN_ID :
  keeps (inv_kept contacts_valid) (on_startup ADMIN_ID).
Proof. unfold_handlers. unfold_prims. keeps_prim valid_step. Qed.

Lemma valid_handle_problem_selection c :
  keeps (inv_kept contacts_valid) (handle_problem_selection c).
Proof. unfold_handlers. unfold_prims. keeps_prim valid_step. Qed.

Lemma valid_handle_custom_problem_input m :
  keeps (inv_kept contacts_valid) (handle_custom_problem_input m).
Proof. unfold_handlers. unfold_prims. keeps_prim valid_step. Qed.

Lemma normalized_length t : 3 ≤ len (strip t) → 2 ≤ len (normalized t).
Proof.
  unfold normalized, len. destruct (strip t) as [|c s]; cbn; [lia|].
  destruct (c =? at_sign)%N; cbn; lia.
Qed.

Lemma valid_handle_phone_input ADMIN_ID m w :
  state_of w (key_of m) = Some Form_phone → conversations_ok w →
  inv_kept contacts_valid w (run (handle_phone_input ADMIN_ID m) w).
Proof.
  intros Hst Hw. destruct (text m) as [t|] eqn:Ht.
  2:{ unfold run. rewrite no_text_raises_phone by done. by intros H. }
  destruct (Z.ltb_spec (len (strip t)) 3) as [Hl|Hl].
  { unfold run. rewrite (phone_rejected ADMIN_ID m t w Ht Hl).
    apply (keeps_calm (inv_kept contacts_valid)). apply keeps_answer. }
  destruct (Hw (key_of m)) as (Hn & Ha & _ & Hs). destruct (Hs Hst) as [Hsn Hsa].
  fold (data_of w (key_of m)) in Hn, Ha, Hsn, Hsa.
  destruct (d_name (data_of w (key_of m))) as [n|] eqn:En; [|done].
  destruct (d_age (data_of w (key_of m))) as [a|] eqn:Ea; [|done].
  specialize (Hn n eq_refl). specialize (Ha a eq_refl).
  pose proof (normalized_length t Hl) as Hp. unfold normalized in Hp.
  unfold handle_phone_input, run. cbv zeta.
  rewrite (bind_val _ _ _ _ _ (text_strip_Some m t w Ht)).
  rewrite (proj2 (Z.ltb_ge _ _) Hl).
  rewrite (bind_val (get_data _) _ w (data_of w (key_of m)) w) by done.
  rewrite En, Ea. cbn [default].
  match goal with
  | |- inv_kept _ w (snd (?rest w)) =>
      assert (keeps (inv_kept contacts_valid) rest) as Hrest;
      [|exact (Hrest w)]
  end.
  unfold_prims. keeps_prim valid_step.
Qed.

Section IntakeInvariant.

Variable ADMIN_ID : Z.
Variable unicode_decimal : N → option Z.
Variable int_max_str_digits : N.

#[local] Abbreviation handle_ev :=
  (handle ADMIN_ID unicode_decimal int_max_str_digits).
#[local] Abbreviation reachable_w :=
  (reachable ADMIN_ID unicode_decimal int_max_str_digits).

Lemma conv_handle ev w :
  accepts ev w → conv_kept w (run (handle_ev ev) w).
Proof.
  destruct ev; cbn [handle accepts]; intros Hacc.
  - intros _. apply (conv_on_startup ADMIN_ID (set_fsm ∅ w)).
    intros k. unfold fsm_of. cbn. rewrite lookup_empty. apply record_ok_empty.
  - apply conv_command_start.
  - apply conv_handle_problem_selection.
  - apply conv_handle_custom_problem_start.
  - apply conv_handle_custom_problem_input.
  - apply conv_handle_signup_start.
  - apply conv_handle_name_input.
  - by apply conv_handle_age_input.
  - apply conv_handle_phone_input.
  - apply conv_command_export.
  - apply conv_command_stats.
  - intros H. exact H.
Qed.

Lemma valid_handle ev w :
  accepts ev w → conversations_ok w →
  inv_kept contacts_valid w (run (handle_ev ev) w).
Proof.
  destruct ev; cbn [handle accepts]; intros Hacc Hw;
    first [ apply valid_command_start
          | apply valid_handle_problem_selection
          | apply valid_handle_custom_problem_input
          | by apply valid_handle_phone_input
          | apply (keeps_calm (inv_kept contacts_valid));
            solve [eauto with keeps]
          | idtac ].
  - apply (valid_on_startup ADMIN_ID (set_fsm ∅ w)).
  - intros H. exact H.
Qed.

Lemma intake_ok_handle ev w :
  accepts ev w → intake_ok w → intake_ok (run (handle_ev ev) w).
Proof.
  intros Hacc [Hc Hv]. split.
  - by apply conv_handle.
  - by apply valid_handle.
Qed.

Lemma reachable_intake_ok w : reachable_w w → intake_ok w.
Proof.
  induction 1 as [w (Hd & Hf & _)|w ev _ IH Hacc].
  - apply (intake_ok_handle Startup w I). split.
    + intros k. unfold fsm_of. rewrite Hf, lookup_empty.
      apply record_ok_empty.
    + rewrite Hd. apply Forall_nil_2.
  - by apply intake_ok_handle.
Qed.

(** X15: in every state the bot reaches, a conversation holds only
    answers that passed the checks: a name of two characters at least, an
    age between 10 and 100.  A conversation that waits for the age holds a
    name, and one that waits for the contact holds a name and an age, so
    that [handle_phone_input] never falls back on the defaults of
    [data.get]. *)
Theorem conversations_hold_checked_answers w :
  reachable_w w →
  conversations_ok w
  ∧ ∀ m, accepts (PhoneInput m) w →
      ∃ n a, d_name (data_of w (key_of m)) = Some n
             ∧ d_age (data_of w (key_of m)) = Some a
             ∧ 2 ≤ len n ∧ 10 ≤ a ≤ 100.
Proof.
  intros [Hw _]%reachable_intake_ok. split; [done|].
  intros m Hst. cbn in Hst.
  destruct (Hw (key_of m)) as (Hn & Ha & _ & Hs). destruct (Hs Hst) as [Hsn Hsa].
  fold (data_of w (key_of m)) in Hn, Ha, Hsn, Hsa.
  destruct (d_name (data_of w (key_of m))) as [n|]; [|done].
  destruct (d_age (data_of w (key_of m))) as [a|]; [|done].
  exists n, a. split; [done|]. split; [done|].
  split; [by apply Hn|by apply Ha].
Qed.

(** X16: in every state the bot reaches, the contact fields of a record
    are values that passed the checks of the intake: a name of two
    characters at least, an age between 10 and 100, a contact of two
    characters at least. *)
Theorem stored_contacts_passed_the_checks w r :
  reachable_w w → In r (file_rows (db w)) →
  (∀ n, real_name r = Some n → 2 ≤ len n)
  ∧ (∀ a, age r = Some a → 10 ≤ a ≤ 100)
  ∧ (∀ p, phone r = Some p → 2 ≤ len p).
Proof.
  intros [_ Hv]%reachable_intake_ok Hr.
  unfold contacts_valid in Hv. rewrite Forall_forall in Hv.
  apply (Hv r). by apply list_elem_of_In.
Qed.

End IntakeInvariant.

(** * One conversation at a time *)

Ltac fixed_step :=
  first [ reflexivity
        | unfold fixed_at, set_fsm; cbn [fsm];
          apply lookup_insert_ne; congruence ].

(** X17: a handler touches the conversation of the update it handles and
    no other: after any event but the start of the process, the state and
    the data of every other conversation are as they were. *)
Theorem other_conversations_untouched ADMIN_ID unicode_decimal
  int_max_str_digits ev k w :
  ev ≠ Startup → conversation ev ≠ Some k →
  fsm (run (handle ADMIN_ID unicode_decimal int_max_str_digits ev) w) !! k
  = fsm w !! k.
Proof.
  intros Hev Hk.
  assert (keeps (fixed_at k)
            (handle ADMIN_ID unicode_decimal int_max_str_digits ev)) as H;
    [|exact (H w)].
  destruct ev; cbn [handle conversation] in *; try done;
    unfold_program; keeps_prim fixed_step.
Qed.

(** * Answers that are held *)

Lemma data_of_insert k c w w' :
  fsm w' = <[k := c]> (fsm w) →
  data_of w' k = fsm_values c ∧ state_of w' k = fsm_state c.
Proof.
  intros Hf. unfold data_of, state_of, fsm_of.
  by rewrite Hf, lookup_insert_eq.
Qed.

(** X18: an answer that passes its check is held before the next question
    is sent, and the state advances after it.  When the question cannot be
    sent, [handle_name_input] and [handle_age_input] raise with the answer
    held and the state where it was, so that the user is asked nothing
    and the next message is taken as another answer to the same
    question; when it can be sent, the state is the next one. *)
Theorem answer_is_held_before_the_next_question unicode_decimal
  int_max_str_digits :
  (∀ m t w,
     text m = Some t → 2 ≤ len (strip t) →
     let w' := run (handle_name_input m) w in
     d_name (data_of w' (key_of m)) = Some (strip t)
     ∧ d_age (data_of w' (key_of m)) = d_age (data_of w (key_of m))
     ∧ db w' = db w
     ∧ (if hd false (faults w)
        then result (handle_name_input m) w = Exc TelegramAPIError
             ∧ state_of w' (key_of m) = state_of w (key_of m)
             ∧ outbox w' = outbox w
        else result (handle_name_input m) w = Val tt
             ∧ state_of w' (key_of m) = Some Form_age
             ∧ outbox w' = outbox w ++ [(chat_id m, MsgAskAge (strip t))]))
  ∧ (∀ m t a w,
       text m = Some t →
       py_int unicode_decimal int_max_str_digits (strip t) = Some a →
       10 ≤ a ≤ 100 →
       let h := handle_age_input unicode_decimal int_max_str_digits m in
       let w' := run h w in
       d_age (data_of w' (key_of m)) = Some a
       ∧ d_name (data_of w' (key_of m)) = d_name (data_of w (key_of m))
       ∧ db w' = db w
       ∧ (if hd false (faults w)
          then result h w = Exc TelegramAPIError
               ∧ state_of w' (key_of m) = state_of w (key_of m)
               ∧ outbox w' = outbox w
          else result h w = Val tt
               ∧ state_of w' (key_of m) = Some Form_phone
               ∧ outbox w' = outbox w ++ [(chat_id m, MsgAskUsername a)])).
Proof.
  split.
  - intros m t w Ht Hl. cbn zeta. unfold run, result.
    rewrite (name_accepted m t w Ht Hl).
    destruct (hold_then_advance (key_of m)
                (fun d => Data (Some (strip t)) (d_age d))
                (chat_id m) (MsgAskAge (strip t)) (Some Form_age) w)
      as (Hd & _ & [(Hh & Hr & Hf & Ho)|(Hh & Hr & Hf & Ho)]);
      unfold run, result in *; rewrite Hh;
      destruct (data_of_insert _ _ _ _ Hf) as [-> ->]; by split_and!.
  - intros m t a w Ht Hp Ha. cbn zeta. unfold run, result.
    rewrite (age_in_range _ _ m t a w Ht Hp Ha).
    destruct (hold_then_advance (key_of m)
                (fun d => Data (d_name d) (Some a))
                (chat_id m) (MsgAskUsername a) (Some Form_phone) w)
      as (Hd & _ & [(Hh & Hr & Hf & Ho)|(Hh & Hr & Hf & Ho)]);
      unfold run, result in *; rewrite Hh;
      destruct (data_of_insert _ _ _ _ Hf) as [-> ->]; by split_and!.
Qed.

(** * The end of the intake *)

Lemma conn_commit_passes t' w :
  hd false (faults w) = false →
  conn_commit (Some t') w = (Val tt, set_db (DbFile (Some t')) (popped w)).
Proof.
  intros Hh. unfold conn_commit.
  by rewrite (bind_val _ _ _ _ _ (outside_passes _ _ Hh)).
Qed.

Lemma update_user_contact_info_passes uid name a ph w t fs :
  db w = DbFile (Some t) → has_columns all_columns t = true →
  faults w = false :: false :: false :: fs →
  update_user_contact_info uid name a ph w
  = (Val true,
     set_db (DbFile (Some (contact_update uid name a ph t))) (set_faults fs w)).
Proof.
  destruct w as [d f o ex fs0 tm j]. cbn [db faults]. intros -> Hc ->.
  unfold update_user_contact_info. apply try_val.
  step_val sqlite3_connect_passes.
  step_val from_users_passes_known.
  erewrite bind_val; [reflexivity|].
  by apply conn_commit_passes.
Qed.

Lemma problem_lookup_passes uid w t fs :
  db w = DbFile (Some t) → has_columns all_columns t = true →
  faults w = false :: false :: fs →
  try_ (sqlite3_connect ;;
        t ← from_users ["problem_segment"; "custom_problem"; "user_id"];
        mret (problem_display_of (find_row uid (rows t))))
       (fun _ => mret (lit "не удалось определить")) w
  = (Val (problem_display_of (find_row uid (rows t))), set_faults fs w).
Proof.
  destruct w as [d f o ex fs0 tm j]. cbn [db faults]. intros -> Hc ->.
  apply try_val.
  step_val sqlite3_connect_passes.
  step_val from_users_passes_known.
  reflexivity.
Qed.

Lemma phone_input_committed ADMIN_ID m t w t0 fs :
  text m = Some t → 3 ≤ len (strip t) →
  db w = DbFile (Some t0) → has_columns all_columns t0 = true →
  faults w = false :: false :: false :: false :: false :: false :: fs →
  handle_phone_input ADMIN_ID m w
  = ((if bool_decide (ADMIN_ID ≠ 0) then
        try_ (time ← datetime_now;
              answer ADMIN_ID
                (MsgAdminRequest
                   (default (lit "Не указано") (d_name (data_of w (key_of m))))
                   (default 0 (d_age (data_of w (key_of m))))
                   (problem_display_of (find_row (from_id m) (rows t0)))
                   (normalized t) (from_id m) time))
             (fun _ => mret tt)
      else mret tt) ;;
     state_clear (key_of m))
      (push_out (chat_id m, MsgRequestAccepted)
         (set_db (DbFile (Some (committed m t w t0))) (set_faults fs w))).
Proof.
  intros Ht Hl Hd Hc Hf. unfold handle_phone_input. cbv zeta.
  rewrite (bind_val _ _ _ _ _ (text_strip_Some m t w Ht)).
  rewrite (proj2 (Z.ltb_ge _ _) Hl).
  rewrite (bind_val (get_data _) _ w (data_of w (key_of m)) w) by done.
  rewrite (bind_val _ _ _ _ _
             (problem_lookup_passes (from_id m) w t0 _ Hd Hc Hf)).
  erewrite bind_val; cycle 1.
  { eapply (update_user_contact_info_passes _ _ _ _ _ t0); [done|done|].
    reflexivity. }
  erewrite bind_val; cycle 1.
  { apply answer_sends. reflexivity. }
  destruct w as [d f o ex fs0 tm j]. cbn [db faults] in *. subst.
  reflexivity.
Qed.

Lemma datetime_now_bind {A} (f : N → M A) w :
  (time ← datetime_now; f time) w = f (now w) w.
Proof. reflexivity. Qed.

(** X19: the end of the intake, with the table in place and the six calls
    up to the confirmation passing (the look-up of the problem, the
    update, the confirmation).  The contact is committed, the user is
    told that the request is accepted, and the conversation is cleared,
    whatever becomes of the operator's notice: with [ADMIN_ID = 0] none is
    sent, and a notice that cannot be sent is dropped without an error.  A
    notice that is sent names the problem as it was on record before the
    update. *)
Theorem operator_notice_is_best_effort ADMIN_ID m t w t0 fs :
  text m = Some t → 3 ≤ len (strip t) →
  db w = DbFile (Some t0) → has_columns all_columns t0 = true →
  faults w = replicate 6 false ++ fs →
  let w' := run (handle_phone_input ADMIN_ID m) w in
  result (handle_phone_input ADMIN_ID m) w = Val tt
  ∧ db w' = DbFile (Some (committed m t w t0))
  ∧ fsm w' = <[key_of m := empty_record]> (fsm w)
  ∧ outbox w'
    = outbox w ++
      (chat_id m, MsgRequestAccepted)
      :: (if bool_decide (ADMIN_ID ≠ 0) && negb (hd false fs)
          then [(ADMIN_ID,
                 notice_of m t w (find_row (from_id m) (rows t0)))]
          else []).
Proof.
  intros Ht Hl Hd Hc Hf. cbn zeta. unfold run, result.
  rewrite (phone_input_committed ADMIN_ID m t w t0 fs Ht Hl Hd Hc Hf).
  set (w1 := push_out _ _).
  destruct (bool_decide (ADMIN_ID ≠ 0)); cbn [andb].
  { destruct (hd false fs) eqn:Hh; cbn [negb].
    - erewrite bind_val; cycle 1.
      { erewrite try_exc; [reflexivity|].
        rewrite datetime_now_bind. apply answer_fails. exact Hh. }
      cbn. split_and!; done.
    - erewrite bind_val; cycle 1.
      { apply try_val.
        rewrite datetime_now_bind. apply answer_sends. exact Hh. }
      cbn. split_and!; try done. by rewrite <- app_assoc. }
  cbn. split_and!; done.
Qed.

(** The handlers of the intake when nothing fails. *)
Lemma hold_then_advance_quiet k f chat r s w :
  no_faults w →
  (update_data k f ;; answer chat r ;; set_state k s) w
  = (Val tt,
     set_fsm (<[k := Fsm s (f (data_of w k))]> (fsm w)) (push_out (chat, r) w)).
Proof.
  destruct w as [d fm o e fs tm j]. unfold no_faults. cbn [faults].
  intros ->.
  unfold update_data, answer, set_state, data_of, state_of, fsm_of.
  unfold_m. cbn.
  by rewrite lookup_insert_eq, insert_insert_eq.
Qed.

Lemma handle_signup_start_quiet c w :
  no_faults w →
  handle_signup_start c w
  = (Val tt,
     push_out (cb_chat c, MsgCallbackAnswer)
       (set_fsm (<[cb_key c := Fsm (Some Form_name) (data_of w (cb_key c))]>
                   (fsm w))
          (push_out (cb_chat c, MsgAskName) w))).
Proof.
  destruct w as [d fm o e fs tm j]. unfold no_faults. cbn [faults].
  intros ->. reflexivity.
Qed.

Lemma handle_phone_input_quiet ADMIN_ID m t w t0 :
  text m = Some t → 3 ≤ len (strip t) →
  db w = DbFile (Some t0) → has_columns all_columns t0 = true → no_faults w →
  handle_phone_input ADMIN_ID m w
  = (Val tt,
     set_fsm (<[key_of m := empty_record]> (fsm w))
       ((if bool_decide (ADMIN_ID ≠ 0)
         then push_out (ADMIN_ID,
                        notice_of m t w (find_row (from_id m) (rows t0)))
         else fun w => w)
          (push_out (chat_id m, MsgRequestAccepted)
             (set_db (DbFile (Some (committed m t w t0))) w)))).
Proof.
  intros Ht Hl Hd Hc Hf. unfold handle_phone_input. cbv zeta.
  rewrite (bind_val _ _ _ _ _ (text_strip_Some m t w Ht)).
  rewrite (proj2 (Z.ltb_ge _ _) Hl).
  rewrite (bind_val (get_data _) _ w (data_of w (key_of m)) w) by done.
  erewrite bind_val; cycle 1.
  { apply try_val.
    rewrite (bind_val _ _ _ _ _ (sqlite3_connect_quiet w _ Hd Hf)).
    rewrite (bind_val _ _ _ _ _
               (from_users_known ["problem_segment"; "custom_problem"; "user_id"]
                  w t0 Hd Hc eq_refl Hf)).
    reflexivity. }
  rewrite (bind_val _ _ _ _ _
             (update_user_contact_info_commits _ _ _ _ w t0 Hd Hc Hf)).
  erewrite bind_val; cycle 1.
  { apply answer_quiet. exact Hf. }
  destruct (bool_decide (ADMIN_ID ≠ 0)).
  - erewrite bind_val; cycle 1.
    { apply try_val. rewrite datetime_now_bind. apply answer_quiet. exact Hf. }
    reflexivity.
  - reflexivity.
Qed.

Lemma table_eta t : Table (columns t) (rows t) = t.
Proof. by destruct t. Qed.

(** X20: the last answer of the intake from a user who is not on record
    (one who never sent [/start], or whose record went with a reset of the
    store), with the table in place and nothing failing: no record is
    written, and yet the user is told that the request is accepted, the
    operator is sent the notice, naming no problem, and the conversation
    is cleared. *)
Theorem request_of_a_user_not_on_record ADMIN_ID m t w t0 :
  text m = Some t → 3 ≤ len (strip t) →
  db w = DbFile (Some t0) → has_columns all_columns t0 = true → no_faults w →
  find_row (from_id m) (rows t0) = None →
  let w' := run (handle_phone_input ADMIN_ID m) w in
  db w' = db w
  ∧ fsm_of w' (key_of m) = empty_record
  ∧ outbox w'
    = outbox w ++
      (chat_id m, MsgRequestAccepted)
      :: (if bool_decide (ADMIN_ID ≠ 0)
          then [(ADMIN_ID, notice_of m t w None)] else [])
  ∧ problem_display_of None = lit "не указана".
Proof.
  intros Ht Hl Hd Hc Hf Hnone. cbn zeta. unfold run.
  rewrite (handle_phone_input_quiet ADMIN_ID m t w t0 Ht Hl Hd Hc Hf).
  rewrite Hnone. cbn [snd].
  assert (committed m t w t0 = t0) as ->.
  { unfold committed, contact_update.
    rewrite update_where_absent by done. apply table_eta. }
  split_and!.
  - rewrite Hd. by destruct (bool_decide (ADMIN_ID ≠ 0)).
  - unfold fsm_of. cbn [fsm set_fsm]. by rewrite lookup_insert_eq.
  - destruct (bool_decide (ADMIN_ID ≠ 0)); cbn; [|done].
    by rewrite <- app_assoc.
  - reflexivity.
Qed.

Lemma find_row_contact_update uid name a ph t r :
  find_row uid (rows t) = Some r →
  find_row uid (rows (contact_update uid name a ph t))
  = Some (set_contact name a ph r).
Proof.
  intros Hr. unfold contact_update. cbn [rows].
  by rewrite find_row_update_where, Hr.
Qed.

(** C5: input that a handler of the intake turns down leaves the
    conversations (state and data), the database and the export files as
    they were: the handler has sent the re-prompt and nothing else.  After
    any number of rejected answers to the age question the state is still
    [Form.age] and no age is held.  At the last question the input turned
    down is the one whose trimmed text, a leading [@] counted, has fewer
    than 3 characters.  Every other text is taken, whatever is left of it
    without the [@]: with the table in place and nothing failing the
    conversation is over, and the record of the user holds the name and
    the age of the conversation and the handle without the [@].  "@ab" is
    such a text, and its handle has two characters. *)
Theorem rejected_input_changes_nothing ADMIN_ID unicode_decimal
  int_max_str_digits :
  (∀ m t w, text m = Some t → len (strip t) < 10 →
     only_sent w (run (handle_custom_problem_input m) w))
  ∧ (∀ m t w, text m = Some t → len (strip t) < 2 →
       only_sent w (run (handle_name_input m) w))
  ∧ (∀ m t w, text m = Some t →
       age_rejected unicode_decimal int_max_str_digits t →
       only_sent w
         (run (handle_age_input unicode_decimal int_max_str_digits m) w))
  ∧ (∀ m t w, text m = Some t → len (strip t) < 3 →
       only_sent w (run (handle_phone_input ADMIN_ID m) w))
  ∧ (∀ ms w,
       Forall (fun m => ∃ t, text m = Some t
                             ∧ age_rejected unicode_decimal
                                 int_max_str_digits t) ms →
       let w' := fold_left
                   (fun w m =>
                      run (handle_age_input unicode_decimal
                             int_max_str_digits m) w) ms w in
       only_sent w w'
       ∧ ∀ k, state_of w k = Some Form_age → d_age (data_of w k) = None →
              state_of w' k = Some Form_age ∧ d_age (data_of w' k) = None)
  ∧ (∀ m t w t0 r,
       text m = Some t → 3 ≤ len (strip t) →
       db w = DbFile (Some t0) → has_columns all_columns t0 = true →
       find_row (from_id m) (rows t0) = Some r → no_faults w →
       let w' := run (handle_phone_input ADMIN_ID m) w in
       state_of w' (key_of m) = None
       ∧ db w' = DbFile (Some (committed m t w t0))
       ∧ find_row (from_id m) (file_rows (db w'))
         = Some (set_contact
                   (default (lit "Не указано") (d_name (data_of w (key_of m))))
                   (default 0 (d_age (data_of w (key_of m))))
                   (normalized t) r))
  ∧ 3 ≤ len (strip (lit "@ab")) ∧ len (normalized (lit "@ab")) < 3.
Proof.
  split_and!.
  - intros m t w Ht Hl. unfold run. rewrite (custom_problem_rejected m t w Ht Hl).
    apply answer_only_sends.
  - intros m t w Ht Hl. unfold run. rewrite (name_rejected m t w Ht Hl).
    apply answer_only_sends.
  - apply age_rejected_only_sends.
  - intros m t w Ht Hl. unfold run.
    rewrite (phone_rejected ADMIN_ID m t w Ht Hl). apply answer_only_sends.
  - intros ms w Hall. cbn zeta.
    assert (only_sent w
              (fold_left
                 (fun w m =>
                    run (handle_age_input unicode_decimal
                           int_max_str_digits m) w) ms w)) as H.
    { revert w. induction Hall as [|m ms (t & Ht & Hr) _ IH]; intros w; cbn.
      - apply only_sent_refl.
      - eapply only_sent_trans; [|apply IH].
        by apply (age_rejected_only_sends _ _ m t). }
    split; [done|]. intros k Hs Hd. destruct H as (Hf & _).
    unfold state_of, data_of, fsm_of in *. by rewrite Hf.
  - intros m t w t0 r Ht Hl Hd Hc Hr Hf. cbn zeta. unfold run.
    rewrite (handle_phone_input_quiet ADMIN_ID m t w t0 Ht Hl Hd Hc Hf).
    cbn [snd].
    assert (db (set_fsm (<[key_of m := empty_record]> (fsm w))
                  ((if bool_decide (ADMIN_ID ≠ 0)
                    then push_out
                           (ADMIN_ID,
                            notice_of m t w (find_row (from_id m) (rows t0)))
                    else fun w => w)
                     (push_out (chat_id m, MsgRequestAccepted)
                        (set_db (DbFile (Some (committed m t w t0))) w))))
            = DbFile (Some (committed m t w t0))) as ->
      by (by destruct (bool_decide (ADMIN_ID ≠ 0))).
    split_and!.
    + unfold state_of, fsm_of, set_fsm. cbn [fsm].
      by rewrite lookup_insert_eq.
    + done.
    + cbn [file_rows]. unfold committed. by apply find_row_contact_update.
  - by vm_compute.
  - by vm_compute.
Qed.


(** * The start of a conversation *)

Lemma ensure_schema_heals w :
  no_faults w →
  (∃ t, db w = DbFile (Some t) ∧ has_columns required_columns t = true
        ∧ ensure_schema w = (Val tt, w))
  ∨ ((∀ t, db w = DbFile (Some t) → has_columns required_columns t = false)
     ∧ ensure_schema w = (Val tt, set_db fresh_table w)).
Proof.
  intros Hf. destruct (db w) as [| |[t|]] eqn:Hd.
  - right. split; [done|]. unfold ensure_schema.
    rewrite (bind_val _ _ _ false w)
      by (unfold os_path_exists_db; by rewrite Hd).
    by rewrite (bind_val _ _ _ _ _ (init_database_quiet w Hf)).
  - right. split; [done|]. unfold ensure_schema.
    rewrite (bind_val _ _ _ true w)
      by (unfold os_path_exists_db; by rewrite Hd).
    erewrite try_exc; cycle 1.
    { erewrite bind_val; cycle 1.
      { unfold sqlite3_connect.
        rewrite (bind_val _ _ _ _ _ (outside_quiet _ w Hf)).
        rewrite (bind_val _ _ _ w w) by done. by rewrite Hd. }
      apply bind_exc. unfold pragma_table_info. apply bind_exc.
      unfold opened. rewrite (bind_val _ _ _ _ _ (outside_quiet _ w Hf)).
      rewrite (bind_val _ _ _ w w) by done. by rewrite Hd. }
    rewrite (bind_val _ _ _ true w)
      by (unfold os_path_exists_db; by rewrite Hd).
    rewrite (bind_val _ _ _ _ _ (os_remove_db_quiet w ltac:(congruence) Hf)).
    rewrite (bind_val _ _ _ _ _ (init_database_quiet (set_db NoFile w) Hf)).
    by destruct w.
  - destruct (has_columns required_columns t) eqn:Hc.
    + left. exists t. split_and!; [done..|]. by apply (ensure_schema_quiet w t).
    + right. split; [by intros ? [= <-]|]. by apply (ensure_schema_resets w t).
  - right. split; [done|]. unfold ensure_schema.
    rewrite (bind_val _ _ _ true w)
      by (unfold os_path_exists_db; by rewrite Hd).
    apply try_val.
    rewrite (bind_val _ _ _ _ _ (sqlite3_connect_quiet w _ Hd Hf)).
    unfold pragma_table_info.
    rewrite (bind_val _ _ _ [] w)
      by (by rewrite (bind_val _ _ _ _ _ (opened_quiet w _ Hd Hf))).
    cbn [List.filter required_columns].
    rewrite !(bool_decide_eq_false_2 (_ ∈ [])) by apply not_elem_of_nil.
    cbn [negb].
    rewrite (bind_val _ _ _ _ _ (os_remove_db_quiet w ltac:(congruence) Hf)).
    rewrite (bind_val _ _ _ _ _ (init_database_quiet (set_db NoFile w) Hf)).
    by destruct w.
Qed.

Lemma has_all_columns_fresh : has_columns all_columns (Table all_columns []) = true.
Proof. reflexivity. Qed.

(** X22: [/start] leaves a store that works, whatever it finds: with
    nothing failing, from no file, from a file that is no database, from
    a database without the table or with a table that lacks a required
    column, and from a table with all its columns, the table is there
    afterwards with all nine columns and the sender is on record; in all
    cases but the last the sender is then the only one on record. *)
Theorem start_heals_the_store m w :
  no_faults w →
  (∀ t, db w = DbFile (Some t) → has_columns required_columns t = true →
        has_columns all_columns t = true) →
  let w' := run (command_start m) w in
  schema_ok (db w') ∧ In (from_id m) (ids (db w')) ∧ no_faults w'
  ∧ ((∀ t, db w = DbFile (Some t) → has_columns required_columns t = false) →
     ids (db w') = [from_id m]).
Proof.
  intros Hf Hall. cbn zeta. unfold command_start, run.
  destruct (ensure_schema_heals w Hf) as [(t & Hd & Hc & He)|[Hno He]];
    rewrite (bind_val _ _ _ _ _ He).
  -     destruct (register_and_greet_quiet m w t Hd (Hall t Hd Hc) Hf) as [Hd' Hf'].
    unfold run in Hd', Hf'. rewrite Hd'. split_and!.
    + eexists. split; [done|]. unfold has_columns.
      rewrite insert_or_ignore_columns. by apply Hall.
    + unfold ids. cbn [file_rows]. apply find_row_In.
      apply insert_or_ignore_found.
    + done.
    + intros Hno. rewrite (Hno t Hd) in Hc. done.
  - destruct (register_and_greet_quiet m (set_db fresh_table w)
                (Table all_columns []) eq_refl has_all_columns_fresh Hf)
      as [Hd' Hf'].
    unfold run in Hd', Hf'. rewrite Hd'. split_and!.
    + eexists. split; [done|]. unfold has_columns.
      by rewrite insert_or_ignore_columns.
    + unfold ids. cbn [file_rows]. apply find_row_In.
      apply insert_or_ignore_found.
    + done.
    + intros _. reflexivity.
Qed.

Lemma blank_has_no_word s : forallb isspace s = true → first_word s = None.
Proof.
  intros H. unfold first_word.
  assert (lstrip s = []) as ->; [|done].
  induction s as [|c s IH]; cbn in *; [done|].
  apply andb_true_iff in H as [-> H]. by apply IH.
Qed.

(** X23: [/start] from a user whose full name is not empty and is all
    white space.  With the table in place and nothing failing the sender
    is put on record, and then [full_name.split()[0]] raises
    [IndexError]: the handler ends there and no greeting is sent. *)
Theorem start_with_a_blank_name m w t :
  db w = DbFile (Some t) → has_columns all_columns t = true → no_faults w →
  from_full_name m ≠ [] → forallb isspace (from_full_name m) = true →
  result (command_start m) w = Exc IndexError
  ∧ In (from_id m) (ids (db (run (command_start m) w)))
  ∧ outbox (run (command_start m) w) = outbox w.
Proof.
  intros Hd Hc Hf Hne Hsp. unfold command_start, run, result.
  rewrite (bind_val _ _ _ _ _ (ensure_schema_quiet w t Hd
             (has_columns_sub required_columns t Hc eq_refl) Hf)).
  unfold register_and_greet. cbv zeta.
  rewrite (bind_val _ _ _ _ _ (user_exists_quiet (from_id m) w t Hd Hc Hf)).
  assert (∀ w1, greeting_name (from_full_name m) w1 = (Exc IndexError, w1))
    as Hg.
  { intros w1. unfold greeting_name.
    destruct (from_full_name m) as [|c s] eqn:E; [done|].
    by rewrite (blank_has_no_word _ Hsp). }
  destruct (find_row (from_id m) (rows t)) eqn:E.
  - rewrite (bind_val _ _ _ tt w) by done.
    rewrite (bind_exc _ _ _ _ _ (Hg w)). cbn [fst snd].
    split_and!; [done| |done].
    unfold ids. rewrite Hd. cbn [file_rows]. apply find_row_In. by rewrite E.
  - erewrite bind_val; cycle 1.
    { erewrite bind_val; [reflexivity|]. rewrite add_user_transaction.
      apply (transaction_commits _ _ w t Hd); [|done].
      by apply (has_columns_sub ["user_id"; "username"; "full_name"]). }
    rewrite (bind_exc _ _ _ _ _ (Hg _)). cbn [fst snd].
    split_and!; [done| |done].
    unfold ids. cbn [db set_db file_rows]. apply find_row_In.
    apply insert_or_ignore_found.
Qed.

(** X24: the operator's identifier as the module reads it.  It is [0]
    when the variable is missing or empty and when [int] does not take
    it, and the integer read otherwise.  With [0] no notice is sent at
    the start of the process, and [/stats] and [/export] are refused to
    every user whose identifier is not [0]. *)
Theorem operator_not_configured unicode_decimal int_max_str_digits :
  let ADMIN_ID := configured_ADMIN_ID unicode_decimal int_max_str_digits in
  ADMIN_ID None = 0 ∧ ADMIN_ID (Some []) = 0
  ∧ (∀ s, py_int unicode_decimal int_max_str_digits s = None →
          ADMIN_ID (Some s) = 0)
  ∧ (∀ s n, s ≠ [] → py_int unicode_decimal int_max_str_digits s = Some n →
            ADMIN_ID (Some s) = n)
  ∧ (∀ env, ADMIN_ID env = 0 →
       (∀ w, on_startup (ADMIN_ID env) w = (init_database ;; mret tt) w)
       ∧ ∀ m w, from_id m ≠ 0 →
           command_stats (ADMIN_ID env) m w = answer (chat_id m) MsgDenied w
           ∧ command_export (ADMIN_ID env) m w
             = answer (chat_id m) MsgDenied w).
Proof.
  cbn zeta. unfold configured_ADMIN_ID. split_and!.
  - done.
  - done.
  - intros s Hs. destruct s as [|c s]; [done|].
    change (match py_int unicode_decimal int_max_str_digits (c :: s) with
            | Some n => n | None => 0 end = 0).
    by rewrite Hs.
  - intros s n Hne Hs. destruct s as [|c s]; [done|].
    change (match py_int unicode_decimal int_max_str_digits (c :: s) with
            | Some n => n | None => 0 end = n).
    by rewrite Hs.
  - intros env ->. split.
    + intros w. unfold on_startup.
      by rewrite (bool_decide_eq_false_2 (0 ≠ 0)) by (intros H; by apply H).
    + intros m w Hne. unfold command_stats, command_export.
      by rewrite !(bool_decide_eq_true_2 (from_id m ≠ 0)).
Qed.

(** X25: the line of the operator's notice that names the problem.  A user
    without a record or without a category is shown as "не указана"; a
    category chosen with a button is shown by its name, whatever
    description the record still holds; the custom category is shown with
    the first 100 characters of the description, or by its name when there
    is none. *)
Theorem problem_display_of_cases :
  problem_display_of None = lit "не указана"
  ∧ (∀ r, truthy (problem_segment r) = false →
       problem_display_of (Some r) = lit "не указана")
  ∧ (∀ r seg, problem_segment r = Some seg → In seg fixed_names →
       problem_display_of (Some r) = seg)
  ∧ (∀ r text, problem_segment r = Some CUSTOM →
       custom_problem r = Some text → text ≠ [] →
       problem_display_of (Some r)
       = lit "Своя проблема: " ++ slice_to 100 text ++ lit "...")
  ∧ (∀ r, problem_segment r = Some CUSTOM →
       truthy (custom_problem r) = false →
       problem_display_of (Some r) = lit "Своя проблема").
Proof.
  split_and!.
  - done.
  - intros r Hr. unfold problem_display_of. rewrite Hr.
    by vm_compute.
  - intros r seg Hr Hin. unfold problem_display_of. rewrite Hr.
    destruct Hin as [<-|[<-|[<-|[]]]];
      cbn [from_option id]; by vm_compute.
  - intros r text Hr Hc Hne. unfold problem_display_of. rewrite Hr, Hc.
    destruct text as [|c text]; [done|].
    assert (truthy (Some CUSTOM) = true) as -> by (by vm_compute).
    cbn [from_option id truthy].
    assert (str_eqb CUSTOM CUSTOM = true) as ->
      by (unfold str_eqb; by apply bool_decide_eq_true_2).
    done.
  - intros r Hr Hc. unfold problem_display_of. rewrite Hr, Hc.
    assert (truthy (Some CUSTOM) = true) as -> by (by vm_compute).
    cbn [from_option id]. rewrite andb_false_r. by vm_compute.
Qed.

(** * The identity of a record *)

#[export] Instance same_identities_preorder : PreOrder same_identities.
Proof.
  split; [by intros w|]. unfold same_identities. intros w1 w2 w3 H1 H2.
  congruence.
Qed.

#[export] Instance same_identities_coarse : Coarse same_identities.
Proof.
  intros w w' [H _]. unfold same_identities.
  by rewrite (file_rows_untouched w w' H).
Qed.

#[export] Instance grown_identities_preorder : PreOrder grown_identities.
Proof.
  split.
  - intros w. unfold grown_identities. reflexivity.
  - unfold grown_identities. intros w1 w2 w3 H1 H2. by etransitivity.
Qed.

#[export] Instance grown_identities_coarse : Coarse grown_identities.
Proof.
  intros w w' [H _]. unfold grown_identities.
  by rewrite (file_rows_untouched w w' H).
Qed.

Lemma insert_by_id_sublist r rs : rs `sublist_of` insert_by_id r rs.
Proof.
  induction rs as [|r' rs IH]; cbn.
  - by apply sublist_cons.
  - destruct (user_id r <? user_id r').
    + by apply sublist_cons.
    + by apply sublist_skip.
Qed.

Lemma sublist_map {A B} (f : A → B) l1 l2 :
  l1 `sublist_of` l2 → List.map f l1 `sublist_of` List.map f l2.
Proof.
  induction 1; cbn; [done|by apply sublist_skip|by apply sublist_cons].
Qed.

Lemma same_identities_update_user_problem uid seg custom :
  keeps same_identities (update_user_problem uid seg custom).
Proof.
  intros w. unfold same_identities, run.
  rewrite update_user_problem_transaction.
  apply (transaction_fields identity). intros _ t.
  unfold problem_update. cbn [rows]. apply update_where_fields.
  intros r. by destruct (truthy custom && str_eqb seg CUSTOM).
Qed.

Lemma same_identities_update_user_contact_info uid name a ph :
  keeps same_identities (update_user_contact_info uid name a ph).
Proof.
  intros w. unfold same_identities, run.
  rewrite update_user_contact_info_transaction.
  apply (transaction_fields identity). intros _ t.
  unfold contact_update. cbn [rows]. by apply update_where_fields.
Qed.

Lemma grown_identities_add_user uid un fn :
  keeps grown_identities (add_user uid un fn).
Proof.
  intros w. unfold grown_identities, run. rewrite add_user_transaction.
  destruct (transaction_cases ["user_id"; "username"; "full_name"]
              (insert_or_ignore uid un fn) w)
    as [_ [(_ & t & Hd & _ & Hd')|(_ & Hu)]]; unfold run in *.
  - rewrite Hd', Hd. cbn [file_rows]. apply sublist_map.
    unfold insert_or_ignore. case_match; cbn [rows]; [done|].
    apply insert_by_id_sublist.
  - by rewrite (file_rows_untouched _ _ Hu).
Qed.

#[export] Hint Resolve same_identities_update_user_problem
  same_identities_update_user_contact_info grown_identities_add_user : keeps.

Lemma same_identities_handle_problem_selection c :
  keeps same_identities (handle_problem_selection c).
Proof. unfold handle_problem_selection. keeps_tac. Qed.

Lemma same_identities_handle_custom_problem_input m :
  keeps same_identities (handle_custom_problem_input m).
Proof. unfold handle_custom_problem_input. keeps_tac. Qed.

Lemma same_identities_handle_phone_input ADMIN_ID m :
  keeps same_identities (handle_phone_input ADMIN_ID m).
Proof. unfold handle_phone_input. keeps_tac. Qed.

Lemma grown_identities_register_and_greet m :
  keeps grown_identities (register_and_greet m).
Proof. unfold register_and_greet. keeps_tac. Qed.

(** X26: the identity of a record (the identifier, the user name and the
    full name from Telegram, the time of creation) is set when the record
    is created and never changed.  Whatever fails, every handler but
    [/start] and the start of the process leaves the identities on
    record exactly as they were, in the same order; [add_user] and a
    [/start] that finds the required columns leave the identities that
    were on record as they were and in the order they were in, with
    the new records, if any, among them. *)
Theorem identity_is_never_updated ADMIN_ID unicode_decimal
  int_max_str_digits :
  (∀ ev, ordinary ev →
     keeps same_identities
       (handle ADMIN_ID unicode_decimal int_max_str_digits ev))
  ∧ (∀ uid seg custom,
       keeps same_identities (update_user_problem uid seg custom))
  ∧ (∀ uid name a ph,
       keeps same_identities (update_user_contact_info uid name a ph))
  ∧ (∀ uid un fn, keeps grown_identities (add_user uid un fn))
  ∧ (∀ m w t,
       db w = DbFile (Some t) → has_columns required_columns t = true →
       check_undisturbed w →
       grown_identities w (run (command_start m) w)).
Proof.
  split_and!.
  - intros ev Hord. destruct ev; cbn [handle]; try done;
      first [ apply same_identities_handle_problem_selection
            | apply same_identities_handle_custom_problem_input
            | apply same_identities_handle_phone_input
            | apply (keeps_calm same_identities); solve [eauto with keeps]
            | apply keeps_modify; by intros w ].
  - apply same_identities_update_user_problem.
  - apply same_identities_update_user_contact_info.
  - apply grown_identities_add_user.
  - intros m w t Hd Hc Hu. unfold command_start, run.
    rewrite (bind_val _ _ _ _ _ (ensure_schema_intact w t Hd Hc Hu)).
    apply (grown_identities_register_and_greet m (popped (popped w))).
Qed.

(** * A problem of the user's own *)

(** X27: a description of ten characters or more, after trimming, is
    taken: with the table in place and nothing failing the record of a
    user on record gets the custom category and the trimmed text, the
    user is shown the first 100 characters of it and the sign-up button,
    and the conversation is cleared. *)
Theorem custom_problem_is_stored_trimmed m t w t0 r :
  text m = Some t → 10 ≤ len (strip t) →
  db w = DbFile (Some t0) → has_columns all_columns t0 = true → no_faults w →
  find_row (from_id m) (rows t0) = Some r →
  let w' := run (handle_custom_problem_input m) w in
  result (handle_custom_problem_input m) w = Val tt
  ∧ find_row (from_id m) (file_rows (db w'))
    = Some (set_segment_custom CUSTOM (strip t) r)
  ∧ contact_fields (set_segment_custom CUSTOM (strip t) r) = contact_fields r
  ∧ fsm_of w' (key_of m) = empty_record
  ∧ outbox w'
    = outbox w ++ [(chat_id m, MsgCustomThanks (slice_to 100 (strip t)));
                   (chat_id m, MsgSignupButton)].
Proof.
  intros Ht Hl Hd Hc Hf Hr. cbn zeta.
  unfold handle_custom_problem_input, run, result.
  rewrite (bind_val _ _ _ _ _ (text_strip_Some m t w Ht)).
  rewrite (proj2 (Z.ltb_ge _ _) Hl).
  rewrite (bind_val _ _ _ _ _
             (update_user_problem_commits (from_id m) CUSTOM (Some (strip t))
                w t0 Hd Hc Hf)).
  erewrite bind_val; cycle 1. { by apply answer_quiet. }
  erewrite bind_val; cycle 1. { by apply answer_quiet. }
  unfold state_clear, modify. cbn [fst snd].
  assert (truthy (Some (strip t)) = true) as Htr.
  { destruct (strip t); [unfold len in Hl; cbn in Hl; lia|done]. }
  assert (str_eqb CUSTOM CUSTOM = true) as Heq
    by (unfold str_eqb; by apply bool_decide_eq_true_2).
  split_and!.
  - done.
  - cbn [db set_db set_fsm push_out file_rows]. unfold problem_update.
    rewrite Htr, Heq. cbn [andb rows from_option id].
    by rewrite find_row_update_where, Hr.
  - done.
  - unfold fsm_of. cbn [fsm set_fsm]. by rewrite lookup_insert_eq.
  - cbn [outbox set_fsm push_out set_db]. by rewrite <- app_assoc.
Qed.

(** * Updates without text *)

(** X28: a message without text (a photo, a sticker) that reaches one of
    the four handlers of the intake makes [message.text.strip()] raise
    [AttributeError] before anything is done: nothing is sent, and the
    state, the data and the store are as they were. *)
Theorem update_without_text_raises ADMIN_ID unicode_decimal
  int_max_str_digits :
  ∀ m w, text m = None →
    handle_custom_problem_input m w = (Exc AttributeError, w)
    ∧ handle_name_input m w = (Exc AttributeError, w)
    ∧ handle_age_input unicode_decimal int_max_str_digits m w
      = (Exc AttributeError, w)
    ∧ handle_phone_input ADMIN_ID m w = (Exc AttributeError, w).
Proof.
  intros m w Ht. split_and!.
  - by apply no_text_raises_custom.
  - by apply no_text_raises_name.
  - by apply no_text_raises_age.
  - by apply no_text_raises_phone.
Qed.

(** * More examples *)

Lemma up_to_contact_reachable :
  reachable operator ascii_only default_limit
    (run_events operator ascii_only default_limit up_to_contact booted).
Proof.
  apply reachable_run_events.
  - apply reach_boot. by vm_compute.
  - vm_compute. tauto.
Qed.

Lemma whole_intake_reachable :
  reachable operator ascii_only default_limit
    (run_events operator ascii_only default_limit whole_intake booted).
Proof.
  apply reachable_run_events.
  - apply reach_boot. by vm_compute.
  - vm_compute. tauto.
Qed.

(** C5: three rejected answers, and the age is still being asked. *)
Lemma rejected_input_changes_nothing_witness :
  let w' := fold_left
              (fun w m =>
                 run (handle_age_input ascii_only default_limit m) w)
              bad_ages at_age_entry in
  state_of w' (7, 7) = Some Form_age ∧ d_age (data_of w' (7, 7)) = None.
Proof.
  cbv zeta.
  apply (proj1 (proj2 (proj2 (proj2 (proj2
           (rejected_input_changes_nothing operator ascii_only
              default_limit))))) bad_ages at_age_entry); [|reflexivity..].
  repeat constructor.
  - eexists. split; [reflexivity|]. by vm_compute.
  - eexists. split; [reflexivity|]. vm_compute. by left.
  - eexists. split; [reflexivity|]. vm_compute. by right.
Defined.

(** C5 does not hold as it is stated.  A user sends [/start], presses the
    sign-up button and answers "Anna" and "29"; the conversation is at
    the last question.  The answer "@ab" fails the validation of the
    contact, the handle "ab" having two characters; yet the conversation
    is over after it and the record of the user holds the handle. *)
Lemma failed_contact_validation_is_committed :
  let w := run_events operator ascii_only default_limit up_to_contact booted in
  let w' := run (handle operator ascii_only default_limit
                   (PhoneInput (says 7 "@ab"))) w in
  reachable operator ascii_only default_limit w
  ∧ state_of w (7, 7) = Some Form_phone
  ∧ accepts (PhoneInput (says 7 "@ab")) w
  ∧ len (normalized (lit "@ab")) < 3
  ∧ state_of w' (7, 7) = None
  ∧ (phone <$> find_row 7 (file_rows (db w))) = Some None
  ∧ (phone <$> find_row 7 (file_rows (db w'))) = Some (Some (lit "ab"))
  ∧ ¬ only_sent w w'.
Proof.
  cbv zeta. split; [apply up_to_contact_reachable|].
  split_and!; try (by vm_compute).
  intros (_ & Hdb & _). revert Hdb. by vm_compute.
Qed.

(** A user with a smaller identifier comes first in the table. *)
Lemma add_user_smaller_id_comes_first :
  List.map user_id
    (file_rows (db (run (add_user 3 (lit "cy") (lit "Cy")) one_user)))
  = [3; 7].
Proof. by vm_compute. Qed.

(** X1: a table from before the intake gets its columns and keeps its
    record. *)
Lemma update_database_schema_only_adds_witness :
  result update_database_schema old_store = Val true
  ∧ ids (db (run update_database_schema old_store)) = [7].
Proof.
  destruct (update_database_schema_only_adds old_store old_table eq_refl)
    as (added & _ & _ & _ & Hq & Hids & _).
  split; [by apply Hq|exact Hids].
Defined.

(** X2: after the upgrade of that table, [/start] of another user keeps
    the record. *)
Lemma start_after_upgrade_keeps_records_witness :
  In 7 (ids (db (run (command_start (says 8 "/start"))
                   (run update_database_schema old_store)))).
Proof.
  apply (proj1 (proj2 (start_after_upgrade_keeps_records (says 8 "/start")
                         old_store old_table eq_refl ltac:(by vm_compute)))).
  - by vm_compute.
  - by left.
Defined.

(** X3: there is nothing to upgrade before the first start. *)
Lemma update_database_schema_needs_the_table_witness :
  result update_database_schema unboxed = Val false.
Proof.
  apply (proj1 (update_database_schema_needs_the_table unboxed
                  ltac:(intros t H; discriminate H))).
Defined.

(** X6: a new user is on record once added. *)
Lemma add_user_then_user_exists_witness :
  In 9 (ids (db (run (add_user 9 (lit "dan") (lit "Dan")) one_user))).
Proof.
  apply (proj1 (add_user_then_user_exists 9 (lit "dan") (lit "Dan") one_user
                  ltac:(by vm_compute))).
Defined.

(** X8: a corrected contact replaces the first. *)
Lemma last_update_wins_witness :
  run (update_user_contact_info 7 (lit "Anna") 29 (lit "anna_t"))
    (run (update_user_contact_info 7 (lit "Ann") 28 (lit "ann")) one_user)
  = run (update_user_contact_info 7 (lit "Anna") 29 (lit "anna_t")) one_user.
Proof.
  apply (proj1 (last_update_wins 7 one_user one_user_schema_ok eq_refl)).
Defined.

(** X9: three users with a category, in two categories. *)
Lemma problems_distribution_counts_witness :
  result get_user_stats three_users = Val (Some (stats_of three_users_table))
  ∧ list_sum (List.map snd (problems_distribution (stats_of three_users_table)))
    = 3%nat.
Proof.
  assert (result get_user_stats three_users
          = Val (Some (stats_of three_users_table))) as H by (by vm_compute).
  split; [exact H|].
  exact (proj1 (proj2 (proj2 (proj2
           (problems_distribution_counts three_users _ H))))).
Defined.

(** X10: one request among three users. *)
Lemma recent_requests_are_the_newest_witness :
  (users_with_requests (stats_of three_users_table)
   ≤ total_users (stats_of three_users_table))%nat.
Proof.
  destruct (recent_requests_are_the_newest three_users
              (stats_of three_users_table) ltac:(by vm_compute))
    as (_ & H1 & H2).
  exact (Nat.le_trans _ _ _ H1 H2).
Defined.

(** X12: the operator exports a table just created. *)
Lemma export_of_empty_store_witness :
  outbox (run (command_export operator (says 1000 "/export")) just_created)
  = [(1000, MsgExportStarted); (1000, MsgExportError ErrEmpty)].
Proof.
  unfold run.
  rewrite (export_of_empty_store operator (says 1000 "/export") just_created
             (Table all_columns []) eq_refl eq_refl eq_refl eq_refl eq_refl).
  reflexivity.
Defined.

(** X13: no file is left after an export that was sent. *)
Lemma export_file_is_removed_when_sent_witness :
  exports (run (command_export operator (says 1000 "/export")) one_user) = ∅.
Proof.
  rewrite (proj1 (proj1 (export_file_is_removed_when_sent operator
                           (says 1000 "/export") one_user
                           (Table all_columns [anna_row])
                           eq_refl eq_refl eq_refl
                           ltac:(intros H; discriminate H))
                    eq_refl)).
  by vm_compute.
Defined.

(** X15: at the last question the conversation holds "Anna" and 29. *)
Lemma conversations_hold_checked_answers_witness :
  ∃ n a,
    let w := run_events operator ascii_only default_limit up_to_contact
               booted in
    d_name (data_of w (7, 7)) = Some n ∧ d_age (data_of w (7, 7)) = Some a
    ∧ 2 ≤ len n ∧ 10 ≤ a ≤ 100.
Proof.
  apply (proj2 (conversations_hold_checked_answers operator ascii_only
                  default_limit _ up_to_contact_reachable)
           (says 7 "@anna_t")).
  by vm_compute.
Defined.

(** X16: the record at the end of the intake. *)
Lemma stored_contacts_passed_the_checks_witness :
  In (set_contact (lit "Anna") 29 (lit "anna_t") anna_row)
     (file_rows (db (run_events operator ascii_only default_limit
                       whole_intake booted)))
  ∧ 2 ≤ len (lit "Anna") ∧ 10 ≤ 29 ≤ 100 ∧ 2 ≤ len (lit "anna_t").
Proof.
  assert (In (set_contact (lit "Anna") 29 (lit "anna_t") anna_row)
            (file_rows (db (run_events operator ascii_only default_limit
                              whole_intake booted)))) as Hin
    by (vm_compute; by left).
  destruct (stored_contacts_passed_the_checks operator ascii_only
              default_limit _ _ whole_intake_reachable Hin)
    as (Hn & Ha & Hp).
  split; [exact Hin|].
  split; [exact (Hn _ eq_refl)|].
  split; [exact (Ha _ eq_refl)|exact (Hp _ eq_refl)].
Defined.

(** X17: a name from user 8 leaves the conversation of user 7 alone. *)
Lemma other_conversations_untouched_witness :
  fsm (run (handle operator ascii_only default_limit
              (NameInput (says 8 "Bob"))) at_age_entry) !! (7, 7)
  = fsm at_age_entry !! (7, 7).
Proof.
  apply (other_conversations_untouched operator ascii_only default_limit
           (NameInput (says 8 "Bob")) (7, 7) at_age_entry).
  - intros H. discriminate H.
  - intros H. discriminate H.
Defined.

(** X19: the notice fails, the request is taken. *)
Lemma operator_notice_is_best_effort_witness :
  result (handle_phone_input operator (says 7 "@anna_t")) notice_fails
  = Val tt
  ∧ outbox (run (handle_phone_input operator (says 7 "@anna_t")) notice_fails)
    = [(7, MsgRequestAccepted)].
Proof.
  destruct (operator_notice_is_best_effort operator (says 7 "@anna_t")
              (lit "@anna_t") notice_fails (Table all_columns [anna_row])
              [true] eq_refl ltac:(by vm_compute) eq_refl eq_refl eq_refl)
    as (Hr & _ & _ & Ho).
  split; [exact Hr|]. rewrite Ho. reflexivity.
Defined.

(** X20: user 8 never sent [/start]. *)
Lemma request_of_a_user_not_on_record_witness :
  db (run (handle_phone_input operator (says 8 "@bob_b")) one_user)
  = db one_user.
Proof.
  apply (proj1 (request_of_a_user_not_on_record operator (says 8 "@bob_b")
                  (lit "@bob_b") one_user (Table all_columns [anna_row])
                  eq_refl ltac:(by vm_compute) eq_refl eq_refl eq_refl
                  eq_refl)).
Defined.


(** X22: the first [/start] of all. *)
Lemma start_heals_the_store_witness :
  In 7 (ids (db (run (command_start (says 7 "/start")) unboxed))).
Proof.
  apply (proj1 (proj2 (start_heals_the_store (says 7 "/start") unboxed
                         eq_refl ltac:(intros t H; discriminate H)))).
Defined.

(** X23: a name of three blanks. *)
Lemma start_with_a_blank_name_witness :
  result (command_start blank_start) one_user = Exc IndexError.
Proof.
  apply (proj1 (start_with_a_blank_name blank_start one_user
                  (Table all_columns [anna_row]) eq_refl eq_refl eq_refl
                  ltac:(by vm_compute) ltac:(by vm_compute))).
Defined.

(** X27: the description of the example is stored as it is. *)
Lemma custom_problem_is_stored_trimmed_witness :
  find_row 7
    (file_rows (db (run (handle_custom_problem_input (says 7 exhausted))
                      one_user)))
  = Some (set_segment_custom CUSTOM (lit exhausted) anna_row).
Proof.
  destruct (custom_problem_is_stored_trimmed (says 7 exhausted) (lit exhausted)
              one_user (Table all_columns [anna_row]) anna_row
              eq_refl ltac:(by vm_compute) eq_refl eq_refl eq_refl eq_refl)
    as (_ & Hr & _).
  etransitivity; [exact Hr|by vm_compute].
Defined.

(** X28: a photo where the name is asked for. *)
Lemma update_without_text_raises_witness :
  handle_name_input photo at_age_entry = (Exc AttributeError, at_age_entry).
Proof.
  apply (proj1 (proj2 (update_without_text_raises operator ascii_only
                         default_limit photo at_age_entry eq_refl))).
Defined.
